(** * i2c_term

    A shallow embedding of [examples/i2c_term/i2c_term.ino]: the serial
    command console (line buffer and dispatcher), the I2C transaction
    engine and the USB mass-storage callbacks, with the properties the
    specification states about them.

    Conventions of the embedding.
    - [char] is an 8-bit [ascii]; where the sketch uses a [char] as a
      number (the slave address) it is the byte value [0..255]: the boards
      the sketch targets (SAMD, nRF52) are ARM, where [char] is unsigned.
    - [int] and [long] are 32 bits; conversions write their wrap-around out.
    - A [char *] is [None] (the null pointer) or [Some o], the address of
      [commandBuf[o]]: every pointer the sketch handles points into that
      buffer.  Reading through a null pointer is undefined behaviour in C
      and is the one way a function of the sketch can fail: [Undefined].
    - Every call into a peripheral or a library object ([Serial], [Wire],
      [flash], [fatfs], [file], [root], [machXO], pins) appends one [Event]
      to the [trace]; what the outside world answers is read from [world],
      a function of the trace so far. *)

From Stdlib Require Import ZArith DecimalString Ascii.
From stdpp Require Import base list strings.

Local Open Scope Z_scope.

(** ** The C library functions the sketch calls *)

Module Libc.

(** The string terminator. *)
Definition NUL : ascii := zero.

(** The C string stored in [l]: its characters up to the first [NUL]. *)
Fixpoint cstr (l : list ascii) : list ascii :=
  match l with
  | [] => []
  | x :: l' => if decide (x = NUL) then [] else x :: cstr l'
  end.

(** The C string a pointer to [buf[o]] denotes. *)
Definition cstr_at (buf : list ascii) (o : nat) : list ascii := cstr (drop o buf).

(** [elem c set]: [strchr(set, c) != NULL] for [c] other than [NUL]. *)
Definition elem (x : ascii) (set : list ascii) : bool := bool_decide (x ∈ set).

(** [strspn(s, accept)]. *)
Fixpoint strspn (s : list ascii) (accept : list ascii) : nat :=
  match s with
  | x :: s' =>
      if decide (x = NUL) then O
      else if elem x accept then S (strspn s' accept) else O
  | [] => O
  end.

(** [strcspn(s, reject)]. *)
Fixpoint strcspn (s : list ascii) (reject : list ascii) : nat :=
  match s with
  | x :: s' =>
      if decide (x = NUL) then O
      else if elem x reject then O else S (strcspn s' reject)
  | [] => O
  end.

Definition isspace (x : ascii) : bool :=
  match x with
  | " " | "009" | "010" | "011" | "012" | "013" => true
  | _ => false
  end%char.

Definition code (x : ascii) : Z := Z.of_N (N_of_ascii x).

(** The value of [x] as a digit or letter, as [strtoul] reads it. *)
Definition digit_of (x : ascii) : option Z :=
  let n := code x in
  if (48 <=? n) && (n <=? 57) then Some (n - 48)
  else if (97 <=? n) && (n <=? 122) then Some (n - 97 + 10)
  else if (65 <=? n) && (n <=? 90) then Some (n - 65 + 10)
  else None.

Definition digit_in (base : Z) (x : ascii) : option Z :=
  match digit_of x with
  | Some d => if d <? base then Some d else None
  | None => None
  end.

(** Reads the longest run of digits of [base] at the head of [s]:
    the accumulated value and the number of characters read. *)
Fixpoint digits (base : Z) (s : list ascii) (acc : Z) (n : nat) : Z * nat :=
  match s with
  | x :: s' =>
      match digit_in base x with
      | Some d => digits base s' (acc * base + d) (S n)
      | None => (acc, n)
      end
  | [] => (acc, n)
  end.

Definition ULONG_MAX : Z := 2 ^ 32 - 1.

(** The number of leading white-space characters of [s]. *)
Fixpoint strspn_space (s : list ascii) : nat :=
  match s with
  | x :: s' => if isspace x then S (strspn_space s') else O
  | [] => O
  end.

(** [strtoul(nptr, &endptr, 0)] of ISO C (7.22.1.4) with a 32-bit
    [unsigned long]: optional white space, optional sign, base detected from
    the prefix ([0x]/[0X] before a hexadecimal digit: 16; a leading [0]: 8;
    otherwise 10), then the digits.  The result is the value and
    [endptr - nptr]; the latter is [0] exactly when no conversion was done,
    and the value is then [0].  A magnitude above [ULONG_MAX] gives
    [ULONG_MAX]; a minus sign negates modulo [2^32].  (For [0x] without a
    hexadecimal digit behind it ISO C reads the [0]; a library that skips the
    prefix before it looks for a digit reads nothing there.  No property
    below depends on the difference.) *)
Definition strtoul (nptr : list ascii) : Z * nat :=
  let ws := strspn_space nptr in
  let s := drop ws nptr in
  let '(neg, sg) :=
    match s with
    | "-"%char :: _ => (true, 1%nat)
    | "+"%char :: _ => (false, 1%nat)
    | _ => (false, O)
    end in
  let s := drop sg s in
  let '(base, pre) :=
    match s with
    | "0"%char :: x :: h :: _ =>
        if (elem x ["x"; "X"]%char) && bool_decide (is_Some (digit_in 16 h))
        then (16, 2%nat) else (8, O)
    | "0"%char :: _ => (8, O)
    | _ => (10, O)
    end in
  let '(v, n) := digits base (drop pre s) 0 O in
  if decide (n = O) then (0, O)
  else
    ((if ULONG_MAX <? v then ULONG_MAX
      else if neg then (- v) mod 2 ^ 32 else v),
     (ws + sg + pre + n)%nat).

End Libc.

Import Libc.

(** ** Integer conversions *)

(** Conversion to [int] / [int32_t]: the value modulo [2^32] in
    [-2^31 .. 2^31-1]. *)
Definition to_int (v : Z) : Z := (v + 2 ^ 31) mod 2 ^ 32 - 2 ^ 31.

(** Conversion to [uint32_t]. *)
Definition to_uint32 (v : Z) : Z := v mod 2 ^ 32.

(** Conversion to [char] / [uint8_t]: the low byte. *)
Definition to_char (v : Z) : Z := v mod 256.

(** ** Text that [Serial.print] and [sprintf] produce *)

(** [Serial.print(int)]: decimal digits, with a minus sign when negative. *)
Definition dec (v : Z) : string := NilZero.string_of_int (Z.to_int v).

Definition hex_digit (d : Z) : ascii :=
  nth (Z.to_nat d) (String.list_ascii_of_string "0123456789ABCDEF") "0"%char.

(** The hexadecimal digits of [v], most significant first, without
    leading zeros ([fuel] bounds the number of digits). *)
Fixpoint hex_digits (fuel : nat) (v : Z) (acc : list ascii) : list ascii :=
  match fuel with
  | O => acc
  | S f =>
      if v <? 16 then hex_digit v :: acc
      else hex_digits f (v / 16) (hex_digit (v mod 16) :: acc)
  end.

(** The conversion [%02X] of an [int] argument: read as [unsigned],
    upper-case hexadecimal, padded with zeros to two digits. *)
Definition fmt_02X (v : Z) : list ascii :=
  let ds := hex_digits 8 (to_uint32 v) [] in
  replicate (2 - length ds) "0"%char ++ ds.

(** [sprintf(tmpStr, "%02X", v)]. *)
Definition sprintf_02X (v : Z) : string := String.string_of_list_ascii (fmt_02X v).

(** [sprintf(tmpStr, "0x%02X ", v)]. *)
Definition sprintf_0x02X_sp (v : Z) : string :=
  String.string_of_list_ascii (["0"; "x"]%char ++ fmt_02X v ++ [" "%char]).

#[global] Arguments dec : simpl never.
#[global] Arguments sprintf_02X : simpl never.
#[global] Arguments sprintf_0x02X_sp : simpl never.
#[global] Arguments to_int : simpl never.
#[global] Arguments to_uint32 : simpl never.
#[global] Arguments to_char : simpl never.

(** ** Events and the outside world *)

Inductive Pin := LED_BUILTIN | XO_PRGMN.
Inductive Level := LOW | HIGH.
Inductive Mode := INPUT_PULLUP | OUTPUT.

(** The operations of the [MachXO] programmer object the sketch calls.
    [erase] is called with [MACHXO_ERASE_CONFIG_FLASH | MACHXO_ERASE_UFM];
    the two constants are in [MachXO.h], so the argument is kept as the two
    flags it selects. *)
Inductive MachXO_op :=
| readDeviceID | readUserCode | readFeatureRow | readFeatureBits | readStatus
| enableConfigOffline | refresh | erase (config_flash ufm : bool) | waitBusy
| loadHex | programDone.

(** One entry of the root directory, as [file.openNext] finds it. *)
Record DirEntry := { de_size : Z; de_name : string; de_isDir : bool }.

(** The calls the sketch makes, named after the object and the method;
    [Serial_shl b] is [Serial << byte(b)]. *)
Inductive Event :=
| Serial_print (text : string)
| Serial_println (text : string)
| Serial_write (x : ascii)
| Serial_shl (b : Z)
| Wire_beginTransmission (addr : Z)
| Wire_write (b : Z)
| Wire_endTransmission (sendStop : bool)
| Wire_requestFrom (addr cnt : Z)
| Wire_available
| Wire_read
| flash_readBlocks (lba n : Z)
| flash_writeBlocks (lba n : Z)
| flash_syncBlocks
| fatfs_cacheClear
| digitalWrite (p : Pin) (v : Level)
| pinMode (p : Pin) (m : Mode)
| machXO (op : MachXO_op)
| file_open (name : list ascii)
| file_close
| file_openNext
| file_printFileSize (size : Z)
| file_printName (name : string)
| file_isDir
| root_open
| root_close
| delay (ms : Z).

(** What the outside world answers, given the trace up to and including
    the call it answers. *)
Record World := {
  (** the bytes the I2C slave delivers to a [Wire.requestFrom] *)
  Wire_reply : list Event -> list Z;
  (** whether a [flash.readBlocks] / [flash.writeBlocks] succeeds *)
  flash_ok : list Event -> bool;
  (** whether [file.open(filename)] succeeds *)
  file_ok : list Event -> bool;
  (** the entries of the root directory, [None] when [root.open] fails *)
  root_dir : list Event -> option (list DirEntry);
  (** the bytes a [machXO.read...] stores through its buffer argument *)
  machXO_reply : list Event -> list Z;
  (** the content of a local array before it is written *)
  uninitialised : list Event -> list Z
}.

(** ** The state of the sketch *)

Definition COMMAND_BUFFER_LENGTH : Z := 127.

Definition delimiters : list ascii := [","; " "; "009"]%char.

Definition RD1124_I2C_ADDR : Z := 65.

Record State := {
  (** [bool changed]: set to true when the PC writes to flash *)
  changed : bool;
  (** [int charCnt] *)
  charCnt : Z;
  (** [char c] *)
  c : ascii;
  (** [char commandBuf[COMMAND_BUFFER_LENGTH + 1]] *)
  commandBuf : list ascii;
  (** [char i2cSlaveAddress] *)
  i2cSlaveAddress : Z;
  (** the position [strtok] saved: [None] or an index of [commandBuf] *)
  strtok_save : option nat;
  (** the receive buffer of [Wire] *)
  Wire_rx : list Z;
  trace : list Event;
  world : World
}.

Definition set_changed (v : bool) (st : State) : State :=
  {| changed := v; charCnt := charCnt st; c := c st;
     commandBuf := commandBuf st; i2cSlaveAddress := i2cSlaveAddress st;
     strtok_save := strtok_save st; Wire_rx := Wire_rx st;
     trace := trace st; world := world st |}.

Definition set_charCnt (v : Z) (st : State) : State :=
  {| changed := changed st; charCnt := v; c := c st;
     commandBuf := commandBuf st; i2cSlaveAddress := i2cSlaveAddress st;
     strtok_save := strtok_save st; Wire_rx := Wire_rx st;
     trace := trace st; world := world st |}.

Definition set_c (v : ascii) (st : State) : State :=
  {| changed := changed st; charCnt := charCnt st; c := v;
     commandBuf := commandBuf st; i2cSlaveAddress := i2cSlaveAddress st;
     strtok_save := strtok_save st; Wire_rx := Wire_rx st;
     trace := trace st; world := world st |}.

Definition set_commandBuf (v : list ascii) (st : State) : State :=
  {| changed := changed st; charCnt := charCnt st; c := c st;
     commandBuf := v; i2cSlaveAddress := i2cSlaveAddress st;
     strtok_save := strtok_save st; Wire_rx := Wire_rx st;
     trace := trace st; world := world st |}.

Definition set_i2cSlaveAddress (v : Z) (st : State) : State :=
  {| changed := changed st; charCnt := charCnt st; c := c st;
     commandBuf := commandBuf st; i2cSlaveAddress := v;
     strtok_save := strtok_save st; Wire_rx := Wire_rx st;
     trace := trace st; world := world st |}.

Definition set_strtok_save (v : option nat) (st : State) : State :=
  {| changed := changed st; charCnt := charCnt st; c := c st;
     commandBuf := commandBuf st; i2cSlaveAddress := i2cSlaveAddress st;
     strtok_save := v; Wire_rx := Wire_rx st;
     trace := trace st; world := world st |}.

Definition set_Wire_rx (v : list Z) (st : State) : State :=
  {| changed := changed st; charCnt := charCnt st; c := c st;
     commandBuf := commandBuf st; i2cSlaveAddress := i2cSlaveAddress st;
     strtok_save := strtok_save st; Wire_rx := v;
     trace := trace st; world := world st |}.

Definition set_trace (v : list Event) (st : State) : State :=
  {| changed := changed st; charCnt := charCnt st; c := c st;
     commandBuf := commandBuf st; i2cSlaveAddress := i2cSlaveAddress st;
     strtok_save := strtok_save st; Wire_rx := Wire_rx st;
     trace := v; world := world st |}.

(** A call into the outside: one more event. *)
Definition emit (e : Event) (st : State) : State := set_trace (trace st ++ [e]) st.

(** ** Results: a state, or undefined behaviour *)

Inductive Result (A : Type) :=
| Ok (a : A)
| Undefined (what : string).
Arguments Ok {A} a.
Arguments Undefined {A} what.

(** Sequencing, written [x ← r; k]: undefined behaviour ends the run. *)
#[global] Instance Result_bind : MBind Result := fun A B k r =>
  match r with
  | Ok a => k a
  | Undefined w => Undefined w
  end.

(** A [char *]: null, or the address of [commandBuf[o]]. *)
Definition ptr := option nat.

(** [p[0]]. *)
Definition deref (p : ptr) (st : State) : Result ascii :=
  match p with
  | None => Undefined "null pointer read"
  | Some o => Ok (default NUL (commandBuf st !! o))
  end.

(** The string at [p], for a library function that reads it. *)
Definition string_at (p : ptr) (st : State) : Result (list ascii) :=
  match p with
  | None => Undefined "null pointer read"
  | Some o => Ok (cstr_at (commandBuf st) o)
  end.

(** [strtok(s, delim)] of ISO C (7.24.5.8) on [commandBuf]: [s] is
    [Some o] for a first call on the string at [commandBuf[o]] and [None]
    to continue from the saved position.  The delimiter that ends the token
    is overwritten with [NUL]. *)
Definition strtok (s : ptr) (delim : list ascii) (st : State) : ptr * State :=
  match (match s with Some o => Some o | None => strtok_save st end) with
  | None => (None, st)
  | Some o =>
      let buf := commandBuf st in
      let tok := (o + strspn (drop o buf) delim)%nat in
      if decide (cstr_at buf tok = []) then (None, set_strtok_save None st)
      else
        let e := (tok + strcspn (drop tok buf) delim)%nat in
        if decide (cstr_at buf e = []) then (Some tok, set_strtok_save None st)
        else
          (Some tok,
           set_strtok_save (Some (S e)) (set_commandBuf (<[e:=NUL]> buf) st))
  end.

(** ** Peripheral and library calls *)

Definition Serial_print_ (text : string) (st : State) : State :=
  emit (Serial_print text) st.

Definition Serial_println_ (text : string) (st : State) : State :=
  emit (Serial_println text) st.

(** [Wire.requestFrom(addr, cnt)]: the receive buffer now holds what the
    slave delivered. *)
Definition Wire_requestFrom_ (addr cnt : Z) (st : State) : State :=
  let st1 := emit (Wire_requestFrom addr cnt) st in
  set_Wire_rx (map to_char (Wire_reply (world st1) (trace st1))) st1.

(** [Wire.available()]: the number of bytes in the receive buffer. *)
Definition Wire_available_ (st : State) : Z * State :=
  (Z.of_nat (length (Wire_rx st)), emit Wire_available st).

(** [Wire.read()]: the next byte of the receive buffer, [-1] when empty. *)
Definition Wire_read_ (st : State) : Z * State :=
  match Wire_rx st with
  | b :: rx => (b, set_Wire_rx rx (emit Wire_read st))
  | [] => (-1, emit Wire_read st)
  end.

(** A local [uint8_t dataBuf[n]] before anything is stored in it. *)
Definition local_array (n : nat) (st : State) : list Z :=
  let g := map to_char (uninitialised (world st) (trace st)) in
  take n (g ++ replicate n 0).

(** [machXO.read...(dataBuf)]: the bytes the device returned, stored from
    [dataBuf[0]] on. *)
Definition machXO_read (op : MachXO_op) (dataBuf : list Z) (st : State)
  : list Z * State :=
  let st1 := emit (machXO op) st in
  let r := map to_char (machXO_reply (world st1) (trace st1)) in
  (take (length dataBuf) (r ++ drop (length r) dataBuf), st1).

(** ** The sketch *)

(** [printBufHEX], lines 171-180. *)
Definition printBufHEX (msg : string) (buf : list Z) (cnt : nat) (st : State)
  : State :=
  let st := Serial_print_ msg st in
  let st := Serial_print_ "0x" st in
  let st :=
    foldl (fun st b => Serial_print_ (sprintf_02X b) st) st (take cnt buf) in
  Serial_println_ EmptyString st.

(** [xoDetails], lines 182-194. *)
Definition xoDetails (st : State) : State :=
  let dataBuf := local_array 8 st in
  let '(dataBuf, st) := machXO_read readDeviceID dataBuf st in
  let st := printBufHEX "Device ID:  " dataBuf 4 st in
  let '(dataBuf, st) := machXO_read readUserCode dataBuf st in
  let st := printBufHEX "User Code:  " dataBuf 4 st in
  let '(dataBuf, st) := machXO_read readFeatureRow dataBuf st in
  let st := printBufHEX "Feature Row:  " dataBuf 8 st in
  let '(dataBuf, st) := machXO_read readFeatureBits dataBuf st in
  let st := printBufHEX "Feature Bits:  " dataBuf 2 st in
  let '(dataBuf, st) := machXO_read readStatus dataBuf st in
  printBufHEX "Status:  " dataBuf 4 st.

(** [xoStatus], lines 196-200. *)
Definition xoStatus (st : State) : State :=
  let dataBuf := local_array 4 st in
  let '(dataBuf, st) := machXO_read readStatus dataBuf st in
  printBufHEX "Status:  " dataBuf 4 st.

(** [xoConfig], lines 202-205. *)
Definition xoConfig (st : State) : State :=
  let st := emit (machXO enableConfigOffline) st in
  Serial_println_ "Enabled Offline Configuration" st.

(** [xoRefresh], lines 207-210. *)
Definition xoRefresh (st : State) : State :=
  let st := emit (machXO refresh) st in
  Serial_println_ "Refreshed MachXO Configuration" st.

(** [xoErase], lines 212-217. *)
Definition xoErase (st : State) : State :=
  let st := emit (machXO (erase true true)) st in
  let st := Serial_println_ "Erasing..." st in
  let st := emit (machXO waitBusy) st in
  Serial_println_ "Erased Configuration and UFM" st.

(** [xoProgPin], lines 219-236. *)
Definition xoProgPin (prog : ptr) (st : State) : Result State :=
  p0 ← deref prog st;
  match p0 with
  | "0" | "L" | "l" =>
      let st := emit (digitalWrite XO_PRGMN LOW) st in
      let st := emit (pinMode XO_PRGMN OUTPUT) st in
      Ok (Serial_println_ "Program_N pin low" st)
  | _ =>
      let st := emit (pinMode XO_PRGMN INPUT_PULLUP) st in
      Ok (Serial_println_ "Program_N pin high" st)
  end%char.

(** [xoLoadHEX], lines 238-252.  [file.open] reads the path it is given. *)
Definition xoLoadHEX (filename : ptr) (st : State) : Result State :=
  name ← string_at filename st;
  let st := emit (file_open name) st in
  if negb (file_ok (world st) (trace st)) then
    let st := Serial_print_ "Failed to open " st in
    Ok (Serial_println_ (String.string_of_list_ascii name) st)
  else
    let st := Serial_print_ "Opened " st in
    let st := Serial_println_ (String.string_of_list_ascii name) st in
    let st := emit (machXO loadHex) st in
    let st := emit file_close st in
    let st := Serial_print_ "Loaded " st in
    let st := Serial_println_ (String.string_of_list_ascii name) st in
    Ok (emit (machXO programDone) st).

(** [i2cAddr], lines 254-258. *)
Definition i2cAddr (addr : Z) (st : State) : State :=
  let st := set_i2cSlaveAddress addr st in
  let st := Serial_print_ "I2C Slave Address set to:  " st in
  Serial_println_ (dec (i2cSlaveAddress st)) st.

(** The [for] loop of [i2cRead], lines 268-271, for [n] iterations. *)
Fixpoint i2cRead_for (n : nat) (st : State) : State :=
  match n with
  | O => st
  | S n' =>
      let '(v, st) := Wire_read_ st in
      let st := Serial_print_ (sprintf_0x02X_sp v) st in
      i2cRead_for n' st
  end.

(** [i2cRead], lines 260-274. *)
Definition i2cRead (cnt : Z) (st : State) : State :=
  let st := Serial_print_ "Reading " st in
  let st := Serial_print_ (dec cnt) st in
  let st := Serial_print_ " bytes from " st in
  let st := Serial_println_ (dec (i2cSlaveAddress st)) st in
  let st := Wire_requestFrom_ (i2cSlaveAddress st) cnt st in
  let '(avail, st) := Wire_available_ st in
  let st := if cnt <=? avail then i2cRead_for (Z.to_nat cnt) st else st in
  Serial_println_ EmptyString st.

(** [nextByte], lines 276-293. *)
Definition nextByte (st : State) : Z * State :=
  let '(nptr, st) := strtok None delimiters st in
  match nptr with
  | None => (-1, st)
  | Some o =>
      let '(ul, len) := strtoul (cstr_at (commandBuf st) o) in
      if decide (len = O) then (-1, st)
      else if ul <? 256 then (ul, st) else (-1, st)
  end.

(** The [while] loop of [i2cWrite], lines 300-304.  Each iteration calls
    [nextByte], which moves [strtok]'s position forward, so [fuel] above the
    length of the buffer is never used up ([i2cWrite_while_total]). *)
Fixpoint i2cWrite_while (fuel : nat) (nextData dataCnt : Z) (st : State)
  : option (Z * State) :=
  match fuel with
  | O => None
  | S fuel' =>
      if 0 <=? nextData then
        let st := emit (Wire_write (to_char nextData)) st in
        let '(nextData, st) := nextByte st in
        let dataCnt := to_int (dataCnt + 1) in
        i2cWrite_while fuel' nextData dataCnt st
      else Some (dataCnt, st)
  end.

(** [i2cWrite], lines 295-312. *)
Definition i2cWrite (sendStop : bool) (st : State) : State :=
  let '(nextData, st) := nextByte st in
  let dataCnt := 0 in
  if 0 <=? nextData then
    let st := emit (Wire_beginTransmission (i2cSlaveAddress st)) st in
    match i2cWrite_while (length (commandBuf st) + 2) nextData dataCnt st with
    | Some (dataCnt, st) =>
        let st := emit (Wire_endTransmission sendStop) st in
        let st := Serial_print_ "Wrote " st in
        let st := Serial_print_ (dec dataCnt) st in
        Serial_println_ " bytes" st
    | None => st
    end
  else Serial_println_ "nothing to write" st.

(** [i2cGet], lines 314-317. *)
Definition i2cGet (cnt : Z) (st : State) : State :=
  let st := i2cWrite false st in
  i2cRead cnt st.

(** [i2cHelp], lines 319-327. *)
Definition i2cHelp (st : State) : State :=
  let st := Serial_println_ "I2C Interface" st in
  let st := Serial_println_ "Implemented commands:" st in
  let st := Serial_println_ "I/i A/a addr  - Set I2C slave address" st in
  let st := Serial_println_ "I/i W/w byte byte ... - Write bytes to I2C" st in
  let st := Serial_println_
    "I/i F/f byte byte ... - Write bytes to I2C (stop=false)" st in
  let st := Serial_println_ "I/i R/r cnt - Read cnt bytes from I2C" st in
  Serial_println_
    "I/i G/g cnt byte byte ... - Get cnt bytes after writing remaining bytes" st.

(** [strtoul(strtok(NULL, delimiters), NULL, 0)], as lines 333, 337 and 341
    call it: [strtoul] reads the string it is given. *)
Definition strtoul_strtok (st : State) : Result (Z * State) :=
  let '(nptr, st) := strtok None delimiters st in
  str ← string_at nptr st;
  Ok (fst (strtoul str), st).

(** [i2cTrans], lines 329-356. *)
Definition i2cTrans (i2cCmd : ptr) (st : State) : Result State :=
  c0 ← deref i2cCmd st;
  match c0 with
  | "A" | "a" =>
      '(ul, st) ← strtoul_strtok st;
      Ok (i2cAddr (to_char ul) st)
  | "G" | "g" =>
      '(ul, st) ← strtoul_strtok st;
      Ok (i2cGet (to_int ul) st)
  | "R" | "r" =>
      '(ul, st) ← strtoul_strtok st;
      Ok (i2cRead (to_int ul) st)
  | "W" | "w" => Ok (i2cWrite true st)
  | "F" | "f" => Ok (i2cWrite false st)
  | _ =>
      let st := Serial_print_ "Unknown command:  " st in
      str ← string_at i2cCmd st;
      let st := Serial_println_ (String.string_of_list_ascii str) st in
      Ok (i2cHelp st)
  end%char.

(** The [for] loop of [rd1124MemTst], lines 395-397: [dataBuf[i] = Wire.read()]
    for [i] from [i] up to [i + n - 1]. *)
Fixpoint rd1124_for (n : nat) (i : nat) (dataBuf : list Z) (st : State)
  : list Z * State :=
  match n with
  | O => (dataBuf, st)
  | S n' =>
      let '(v, st) := Wire_read_ st in
      rd1124_for n' (S i) (<[i:=to_char v]> dataBuf) st
  end.

(** [rd1124MemTst], lines 358-400. *)
Definition rd1124MemTst (st : State) : State :=
  let dataBuf := local_array 8 st in
  let st := emit (Wire_beginTransmission RD1124_I2C_ADDR) st in
  let st := foldl (fun st b => emit (Wire_write b) st) st
                  [2; 0; 0; 1; 2; 3; 4; 5; 6; 7] in
  let st := emit (Wire_endTransmission true) st in
  let st := emit (Wire_beginTransmission RD1124_I2C_ADDR) st in
  let st := foldl (fun st b => emit (Wire_write b) st) st
                  [2; 8; 16; 17; 18; 19; 20; 21; 22; 23] in
  let st := emit (Wire_endTransmission true) st in
  let st := Serial_println_ "Filled with:  0x00-0x07, 0x10-0x17" st in
  let st := emit (Wire_beginTransmission RD1124_I2C_ADDR) st in
  let st := emit (Wire_write 11) st in
  let st := emit (Wire_write 4) st in
  let '(nb, st) := nextByte st in
  let st :=
    if 0 <? nb then emit (Wire_endTransmission true) st
    else emit (Wire_endTransmission false) st in
  let st := Wire_requestFrom_ RD1124_I2C_ADDR 8 st in
  let '(avail, st) := Wire_available_ st in
  let '(dataBuf, st) :=
    if 8 <=? avail then rd1124_for 8 0 dataBuf st else (dataBuf, st) in
  printBufHEX "Read back from 0x04:  " dataBuf 8 st.

(** The body of the [while] loop of [printDir], lines 417-426, for the
    entry [file.openNext] has just opened. *)
Definition printDir_entry (st : State) (e : DirEntry) : State :=
  let st := emit file_openNext st in
  let st := emit (file_printFileSize (de_size e)) st in
  let st := emit (Serial_write " ") st in
  let st := emit (file_printName (de_name e)) st in
  let st := emit file_isDir st in
  let st := if de_isDir e then emit (Serial_write "/") st else st in
  let st := Serial_println_ EmptyString st in
  emit file_close st.

(** [printDir], lines 403-430.  The loop runs once for each entry of the
    root directory; the last [file.openNext] fails and ends it. *)
Definition printDir (st : State) : State :=
  let st := emit root_open st in
  match root_dir (world st) (trace st) with
  | None => Serial_println_ "open root failed" st
  | Some entries =>
      let st := Serial_println_ "Flash contents:" st in
      let st := foldl printDir_entry st entries in
      let st := emit file_openNext st in
      let st := emit root_close st in
      Serial_println_ EmptyString st
  end.

(** [printHelp], lines 432-446. *)
Definition printHelp (st : State) : State :=
  foldl (fun st line => Serial_println_ line st) st
    [ "MachXO Programming Example Command Interface";
      "Valid commands:";
      "H/h/? - Print this help information";
      "D/d   - Print root directory";
      "X/x   - MachXO Device Details";
      "S/s   - MaxhXO Status";
      "C/c   - MaxhXO enable offline Configuration";
      "E/e   - MaxhXO Erase configuration and UFM";
      "R/r   - MachXO Refresh";
      "P/p [0/low/1/high] - MachXO PROGRAMN pin";
      "L/l [filename] - MachXO Load hex file";
      "I/i [command] - I2C transaction commands";
      "M/m [0/1] - MachXO RD1124 memory test" ].

(** [runCommand], lines 448-501. *)
Definition runCommand (st : State) : Result State :=
  let '(commandName, st) := strtok (Some O) delimiters st in
  c0 ← deref commandName st;
  match c0 with
  | "H" | "h" | "?" => Ok (printHelp st)
  | "X" | "x" => Ok (xoDetails st)
  | "S" | "s" => Ok (xoStatus st)
  | "C" | "c" => Ok (xoConfig st)
  | "E" | "e" => Ok (xoErase st)
  | "R" | "r" => Ok (xoRefresh st)
  | "L" | "l" =>
      let '(filename, st) := strtok None delimiters st in
      xoLoadHEX filename st
  | "P" | "p" =>
      let '(prog, st) := strtok None delimiters st in
      xoProgPin prog st
  | "M" | "m" => Ok (rd1124MemTst st)
  | "I" | "i" =>
      let '(i2cCmd, st) := strtok None delimiters st in
      i2cTrans i2cCmd st
  | "D" | "d" => Ok (printDir st)
  | _ =>
      let st := Serial_print_ "Unknown command:  " st in
      str ← string_at commandName st;
      let st := Serial_println_ (String.string_of_list_ascii str) st in
      Ok (printHelp st)
  end%char.

(** [commandBuf[i] = x] for an [int] index [i]. *)
Definition commandBuf_store (i : Z) (x : ascii) (st : State) : State :=
  set_commandBuf (<[Z.to_nat i:=x]> (commandBuf st)) st.

(** The body of the [while] loop of [loop], lines 135-157, for the
    character [x] that [Serial.read()] returned; [run] is the function
    called at line 141. *)
Definition loop_switch (run : State -> Result State) (x : ascii) (st : State)
  : Result State :=
  let st := set_c x st in
  match c st with
  | "013"%char | "010"%char =>
      let st := commandBuf_store (charCnt st) NUL st in
      if 0 <? charCnt st then
        st ← run st;
        Ok (set_charCnt 0 st)
      else Ok st
  | "008"%char =>
      if 0 <? charCnt st then
        let st := set_charCnt (charCnt st - 1) st in
        let st := commandBuf_store (charCnt st) NUL st in
        let st := emit (Serial_shl 8) st in
        let st := emit (Serial_shl 32) st in
        Ok (emit (Serial_shl 8) st)
      else Ok st
  | _ =>
      let st :=
        if charCnt st <? COMMAND_BUFFER_LENGTH then
          let st := commandBuf_store (charCnt st) (c st) st in
          set_charCnt (charCnt st + 1) st
        else st in
      Ok (commandBuf_store (charCnt st) NUL st)
  end.

(** The [while (Serial.available())] loop of [loop], lines 134-158:
    [input] is what [Serial] has to deliver, one character each turn. *)
Fixpoint loop_while (run : State -> Result State) (input : list ascii)
  (st : State) : Result State :=
  match input with
  | [] => Ok st
  | x :: input' =>
      st ← loop_switch run x st;
      loop_while run input' st
  end.

(** Lines 160-167 of [loop]. *)
Definition loop_refresh (st : State) : State :=
  let st :=
    if changed st then
      let st := set_changed false st in
      printDir st
    else st in
  emit (delay 100) st.

(** [loop], lines 132-169. *)
Definition loop (input : list ascii) (st : State) : Result State :=
  st ← loop_while runCommand input st;
  Ok (loop_refresh st).

(** [msc_read_cb], lines 506-511.  The conditional expression has the type
    [uint32_t], so [-1] is [2^32 - 1] there; the [return] converts to
    [int32_t]. *)
Definition msc_read_cb (lba bufsize : Z) (st : State) : Z * State :=
  let st := emit (flash_readBlocks lba (bufsize / 512)) st in
  (to_int (if flash_ok (world st) (trace st) then bufsize else to_uint32 (-1)),
   st).

(** [msc_write_cb], lines 516-523. *)
Definition msc_write_cb (lba bufsize : Z) (st : State) : Z * State :=
  let st := emit (digitalWrite LED_BUILTIN HIGH) st in
  let st := emit (flash_writeBlocks lba (bufsize / 512)) st in
  (to_int (if flash_ok (world st) (trace st) then bufsize else to_uint32 (-1)),
   st).

(** The statements of [msc_flush_cb], lines 530-537, in order. *)
Definition msc_flush_cb_body : list (State -> State) :=
  [ emit flash_syncBlocks;
    emit fatfs_cacheClear;
    set_changed true;
    emit (digitalWrite LED_BUILTIN LOW) ].

(** Running statements one after the other. *)
Definition run_body (body : list (State -> State)) (st : State) : State :=
  foldl (fun st stmt => stmt st) st body.

(** [msc_flush_cb], lines 527-538. *)
Definition msc_flush_cb (st : State) : State := run_body msc_flush_cb_body st.

(** The sketch after [setup]: the globals as lines 95 and 127-129 leave
    them, over zero-initialised memory; the trace starts empty here. *)
Definition after_setup (w : World) : State :=
  {| changed := true; charCnt := 0; c := NUL;
     commandBuf := replicate 128 NUL; i2cSlaveAddress := 65;
     strtok_save := None; Wire_rx := []; trace := []; world := w |}.

(** A world in which nothing answers: no I2C slave, failing storage, no
    file system. *)
Definition silent_world : World :=
  {| Wire_reply := fun _ => []; flash_ok := fun _ => false;
     file_ok := fun _ => false; root_dir := fun _ => None;
     machXO_reply := fun _ => []; uninitialised := fun _ => [] |}.

(** A world like [silent_world], except that the flash answers every
    block transfer with success. *)
Definition flash_world : World :=
  {| Wire_reply := fun _ => []; flash_ok := fun _ => true;
     file_ok := fun _ => false; root_dir := fun _ => None;
     machXO_reply := fun _ => []; uninitialised := fun _ => [] |}.

(** The terminator a terminal sends for the return key. *)
Definition CR : ascii := "013"%char.

(** What an observer asks of a finished run. *)
Definition after {A : Type} (f : State -> A) (r : Result State) : option A :=
  match r with
  | Ok st => Some (f st)
  | Undefined _ => None
  end.

(** ** Vocabulary for the line buffer *)

Definition LF : ascii := "010"%char.
Definition BS : ascii := "008"%char.

(** A terminator: carriage return or newline. *)
Definition terminator (x : ascii) : Prop := x = CR \/ x = LF.

#[global] Instance terminator_dec (x : ascii) : Decision (terminator x).
Proof. unfold terminator. apply _. Defined.

(** The line buffer of [st] holds [text]: [charCnt] is its length, the
    buffer starts with it, and the buffer has its declared size. *)
Definition holds (st : State) (text : list ascii) : Prop :=
  charCnt st = Z.of_nat (length text) /\
  take (length text) (commandBuf st) = text /\
  length (commandBuf st) = 128%nat.

(** One typed character applied to the text so far: a backspace removes
    the character before it, if there is one; any other character is added
    at the end. *)
Definition edit_step (text : list ascii) (x : ascii) : list ascii :=
  if decide (x = BS) then removelast text else text ++ [x].

(** The typed characters with the backspaces applied. *)
Definition edit (typed : list ascii) : list ascii := foldl edit_step [] typed.

(** The content of the line buffer: the [charCnt] characters before the
    cursor. *)
Definition line (st : State) : list ascii :=
  take (Z.to_nat (charCnt st)) (commandBuf st).

(** A dispatcher that only prints the line it is given. *)
Definition print_line (st : State) : Result State :=
  Ok (Serial_println_ (String.string_of_list_ascii (line st)) st).

(** The texts given to [Serial.println] in a run of events. *)
Definition printed_lines (evs : list Event) : list string :=
  omap (fun e => match e with Serial_println t => Some t | _ => None end) evs.

(** The completed lines the line buffer yields for [input], in order: what
    [print_line] prints when it is the dispatcher; [None] if the run does
    not end. *)
Definition completed_lines (input : list ascii) (st : State)
  : option (list string) :=
  after (fun st' => printed_lines (trace st'))
    (loop_while print_line input (set_trace [] st)).

(** ** Vocabulary for the token stream *)

(** The fields of a string: what lies between its delimiters, empty fields
    included. *)
Fixpoint fields (s : list ascii) : list (list ascii) :=
  match s with
  | [] => [[]]
  | x :: s' =>
      if elem x delimiters then [] :: fields s'
      else match fields s' with
           | t :: ts => (x :: t) :: ts
           | [] => [[x]]
           end
  end.

(** The tokens of a string: its non-empty fields, left to right. *)
Definition tokens (s : list ascii) : list (list ascii) :=
  filter (fun t => t <> []) (fields s).

(** The tokens [strtok] has still to deliver in [st]. *)
Definition pending_tokens (st : State) : list (list ascii) :=
  match strtok_save st with
  | None => []
  | Some o => tokens (cstr_at (commandBuf st) o)
  end.

(** A token as a byte: an unsigned number, base detected from its prefix,
    below 256. *)
Definition byte_of (t : list ascii) : option Z :=
  let '(ul, len) := strtoul t in
  if decide (len = O) then None
  else if ul <? 256 then Some ul else None.

(** The token stream: the byte values of the tokens up to the first token
    that is not a byte, which ends the stream. *)
Fixpoint byte_stream (ts : list (list ascii)) : list Z :=
  match ts with
  | [] => []
  | t :: ts' =>
      match byte_of t with
      | Some b => b :: byte_stream ts'
      | None => []
      end
  end.

(** What is left of the tokens after the stream has been read to its end:
    the bytes and the token that ended the stream are gone. *)
Fixpoint after_stream (ts : list (list ascii)) : list (list ascii) :=
  match ts with
  | [] => []
  | t :: ts' =>
      match byte_of t with
      | Some _ => after_stream ts'
      | None => ts'
      end
  end.

(** [strtok] changes nothing but its saved position and the buffer it
    cuts, whose length stays. *)
Definition strtok_frame (st st' : State) : Prop :=
  exists buf sv,
    length buf = length (commandBuf st) /\
    st' = set_strtok_save sv (set_commandBuf buf st).

(** ** Vocabulary for the I2C engine *)

(** [dataCnt] after [n] turns of the loop of [i2cWrite]: [n] for every
    count an [int] holds. *)
Definition counted (n : nat) : Z := Nat.iter n (fun k => to_int (k + 1)) 0.


(** What [i2cWrite] leaves in the trace for the bytes [bs] of its token
    stream: nothing but the remark when there is none, otherwise one
    transmission to [addr] that holds them all. *)
Definition i2cWrite_events (sendStop : bool) (addr : Z) (bs : list Z)
  : list Event :=
  match bs with
  | [] => [Serial_println "nothing to write"]
  | _ :: _ =>
      [Wire_beginTransmission addr] ++ map Wire_write bs ++
      [ Wire_endTransmission sendStop; Serial_print "Wrote ";
        Serial_print (dec (counted (length bs))); Serial_println " bytes" ]
  end.

(** The line [i2cRead] prints first: the count and the slave address. *)
Definition i2cRead_announcement (cnt : Z) (st : State) : list Event :=
  [ Serial_print "Reading "; Serial_print (dec cnt);
    Serial_print " bytes from "; Serial_println (dec (i2cSlaveAddress st)) ].

(** The bus request of [i2cRead]. *)
Definition i2cRead_request (cnt : Z) (st : State) : Event :=
  Wire_requestFrom (i2cSlaveAddress st) cnt.

(** The bytes that become available to [i2cRead cnt] in [st]: what the
    slave delivers in answer to its request. *)
Definition i2cRead_available (cnt : Z) (st : State) : list Z :=
  map to_char
    (Wire_reply (world st)
       (trace st ++ i2cRead_announcement cnt st ++ [i2cRead_request cnt st])).

(** Reading one byte from [Wire] and printing it. *)
Definition read_and_print (b : Z) : list Event :=
  [Wire_read; Serial_print (sprintf_0x02X_sp b)].

(** The texts given to [Serial.print] (not [println]) in a run of events. *)
Definition printed (evs : list Event) : list string :=
  omap (fun e => match e with Serial_print t => Some t | _ => None end) evs.

(** A world like [silent_world], except that an I2C slave answers every
    request with the same three bytes. *)
Definition slave_world : World :=
  {| Wire_reply := fun _ => [160; 161; 162]; flash_ok := fun _ => false;
     file_ok := fun _ => false; root_dir := fun _ => None;
     machXO_reply := fun _ => []; uninitialised := fun _ => [] |}.

(** The characters of a string literal. *)
Definition chars (text : string) : list ascii := String.list_ascii_of_string text.

(** [st] with [text] typed into the line buffer, as [loop] leaves it when
    the terminator arrives: terminated, [charCnt] its length. *)
Definition with_line (text : string) (st : State) : State :=
  set_charCnt (Z.of_nat (length (chars text)))
    (set_commandBuf (take 128 (chars text ++ replicate 128 NUL)) st).

(** The state in which [runCommand] calls [i2cTrans] for the line [text]:
    after the two calls of [strtok] that deliver the command and the
    sub-command. *)
Definition at_i2cTrans (text : string) (st : State) : State :=
  (strtok None delimiters (strtok (Some O) delimiters (with_line text st)).2).2.

(** ** Vocabulary for the dirty flag *)

(** The number of directory refreshes in a run of events: each begins by
    opening the root directory. *)
Definition refreshes (evs : list Event) : nat :=
  length (omap (fun e => match e with root_open => Some e | _ => None end) evs).

(** ** The storage bridge *)

(** The states a list of statements goes through, one after each. *)
Fixpoint steps (body : list (State -> State)) (st : State) : list State :=
  match body with
  | [] => []
  | stmt :: body' => stmt st :: steps body' (stmt st)
  end.

(** ** Vocabulary for what a command leaves alone *)

(** [st'] has the dirty flag, the cursor, the size of the line buffer and
    the world of [st], and with [addr] also its slave address. *)
Definition kept (addr : bool) (st st' : State) : Prop :=
  changed st' = changed st /\
  charCnt st' = charCnt st /\
  length (commandBuf st') = length (commandBuf st) /\
  world st' = world st /\
  (addr = true -> i2cSlaveAddress st' = i2cSlaveAddress st).

(** ** Vocabulary for the dispatcher *)

(** The first characters [runCommand] knows, lines 451-493. *)
Definition command_letters : list ascii := chars "Hh?XxSsCcEeRrLlPpMmIiDd".

(** The first characters [i2cTrans] knows, lines 331-348. *)
Definition i2c_letters : list ascii := chars "AaGgRrWwFf".

(** The lines [printHelp] prints. *)
Definition help_lines : list string :=
  [ "MachXO Programming Example Command Interface";
    "Valid commands:";
    "H/h/? - Print this help information";
    "D/d   - Print root directory";
    "X/x   - MachXO Device Details";
    "S/s   - MaxhXO Status";
    "C/c   - MaxhXO enable offline Configuration";
    "E/e   - MaxhXO Erase configuration and UFM";
    "R/r   - MachXO Refresh";
    "P/p [0/low/1/high] - MachXO PROGRAMN pin";
    "L/l [filename] - MachXO Load hex file";
    "I/i [command] - I2C transaction commands";
    "M/m [0/1] - MachXO RD1124 memory test" ].

(** The lines [i2cHelp] prints. *)
Definition i2c_help_lines : list string :=
  [ "I2C Interface";
    "Implemented commands:";
    "I/i A/a addr  - Set I2C slave address";
    "I/i W/w byte byte ... - Write bytes to I2C";
    "I/i F/f byte byte ... - Write bytes to I2C (stop=false)";
    "I/i R/r cnt - Read cnt bytes from I2C";
    "I/i G/g cnt byte byte ... - Get cnt bytes after writing remaining bytes" ].

(** A world like [silent_world], except that every file opens. *)
Definition file_world : World :=
  {| Wire_reply := fun _ => []; flash_ok := fun _ => false;
     file_ok := fun _ => true; root_dir := fun _ => None;
     machXO_reply := fun _ => []; uninitialised := fun _ => [] |}.

(** The tokens of a line that sets the slave address: the command [i] (or
    [I]) with the sub-command [a] (or [A]), lines 487 and 332. *)
Definition sets_address (ts : list (list ascii)) : bool :=
  match ts with
  | t :: sub :: _ =>
      elem (hd NUL t) (chars "Ii") && elem (hd NUL sub) (chars "Aa")
  | _ => false
  end.

(** The cursor is inside the line buffer, which has its declared size:
    [commandBuf[charCnt]] is an element of the array. *)
Definition in_bounds (st : State) : Prop :=
  0 <= charCnt st <= COMMAND_BUFFER_LENGTH /\
  length (commandBuf st) = Z.to_nat (COMMAND_BUFFER_LENGTH + 1).

(** A character that is kept as typed: neither a terminator nor a
    backspace. *)
Definition plain (x : ascii) : Prop := ~ terminator x /\ x <> BS.

(** What [Serial] delivers for lines typed one after the other, each with
    the terminator that ends it. *)
Definition typed_lines (ls : list (list ascii * ascii)) : list ascii :=
  flat_map (fun l => l.1 ++ [l.2]) ls.

(** The texts of the lines that are not empty once the backspaces have been
    applied. *)
Definition edited_lines (ls : list (list ascii * ascii)) : list string :=
  map String.string_of_list_ascii
    (filter (fun t => t <> []) (map (fun l => edit l.1) ls)).

(** ** Vocabulary for what a command reaches *)

(** The parts of the board the sketch calls into. *)
Inductive Part :=
| console | i2c_bus | fpga | prog_pin | led | files | flash_blocks | timer.

(** The part a call goes to: the object of the call, and for the pin
    functions the pin. *)
Definition part (e : Event) : Part :=
  match e with
  | Serial_print _ | Serial_println _ | Serial_write _ | Serial_shl _ => console
  | Wire_beginTransmission _ | Wire_write _ | Wire_endTransmission _
  | Wire_requestFrom _ _ | Wire_available | Wire_read => i2c_bus
  | flash_readBlocks _ _ | flash_writeBlocks _ _ | flash_syncBlocks
  | fatfs_cacheClear => flash_blocks
  | digitalWrite LED_BUILTIN _ | pinMode LED_BUILTIN _ => led
  | digitalWrite XO_PRGMN _ | pinMode XO_PRGMN _ => prog_pin
  | machXO _ => fpga
  | file_open _ | file_close | file_openNext | file_printFileSize _
  | file_printName _ | file_isDir | root_open | root_close => files
  | delay _ => timer
  end.

(** From [st] to [st'] the sketch has made calls into the parts [ps] only. *)
Definition within (ps : list Part) (st st' : State) : Prop :=
  exists evs, trace st' = trace st ++ evs /\ Forall (fun e => part e ∈ ps) evs.

(** The parts the command with the first letter [x] is for, lines 451-499:
    the console, and the device the command names. *)
Definition reach (x : ascii) : list Part :=
  console ::
  (if elem x (chars "XxSsCcEeRr") then [fpga]
   else if elem x (chars "Ll") then [files; fpga]
   else if elem x (chars "Pp") then [prog_pin]
   else if elem x (chars "MmIi") then [i2c_bus]
   else if elem x (chars "Dd") then [files]
   else []).

(** ** Vocabulary for the memory test *)

(** What [rd1124MemTst] sends first, lines 360-382: two transmissions that
    fill the memory, and the remark. *)
Definition rd1124_fill : list Event :=
  [Wire_beginTransmission RD1124_I2C_ADDR] ++
  map Wire_write [2; 0; 0; 1; 2; 3; 4; 5; 6; 7] ++
  [Wire_endTransmission true; Wire_beginTransmission RD1124_I2C_ADDR] ++
  map Wire_write [2; 8; 16; 17; 18; 19; 20; 21; 22; 23] ++
  [Wire_endTransmission true;
   Serial_println "Filled with:  0x00-0x07, 0x10-0x17"].

(** Whether the tokens behind [m] ask for a stop before the read: the first
    of them is a byte above 0. *)
Definition memtest_stop (ts : list (list ascii)) : bool :=
  match ts with
  | t :: _ => match byte_of t with Some b => 0 <? b | None => false end
  | [] => false
  end.

(** The trace of [rd1124MemTst] up to its read request. *)
Definition memtest_request (st : State) (ts : list (list ascii)) : list Event :=
  trace st ++ rd1124_fill ++
  [ Wire_beginTransmission RD1124_I2C_ADDR; Wire_write 11; Wire_write 4;
    Wire_endTransmission (memtest_stop ts);
    Wire_requestFrom RD1124_I2C_ADDR 8 ].

(** The bytes the slave delivers to that request. *)
Definition memtest_reply (st : State) (ts : list (list ascii)) : list Z :=
  map to_char (Wire_reply (world st) (memtest_request st ts)).

(** ** Vocabulary for the bytes on the console *)

(** The text [i2cRead] prints for the bytes [bs], lines 268-271. *)
Definition hex_line (bs : list Z) : list ascii :=
  flat_map (fun b => chars (sprintf_0x02X_sp b)) bs.

(** ** Vocabulary for the storage callbacks *)

(** One invocation of a callback by the USB stack. *)
Inductive MscCall :=
| msc_read (lba bufsize : Z)
| msc_write (lba bufsize : Z)
| msc_flush.

(** The state after the invocation; the value returned goes to the USB
    stack. *)
Definition msc_call (st : State) (call : MscCall) : State :=
  match call with
  | msc_read lba bufsize => (msc_read_cb lba bufsize st).2
  | msc_write lba bufsize => (msc_write_cb lba bufsize st).2
  | msc_flush => msc_flush_cb st
  end.

(** The level of the built-in LED after the events [evs], when it was [l]
    before: the last level written to it. *)
Definition led_after (evs : list Event) (l : Level) : Level :=
  foldl (fun l e =>
           match e with digitalWrite LED_BUILTIN v => v | _ => l end) l evs.

(** The LED as the callbacks drive it: on with a write, off with a flush. *)
Definition led_step (l : Level) (call : MscCall) : Level :=
  match call with
  | msc_read _ _ => l
  | msc_write _ _ => HIGH
  | msc_flush => LOW
  end.

Definition is_flush (call : MscCall) : bool :=
  match call with msc_flush => true | _ => false end.

(** ** Vocabulary for the bytes as the specification prints them *)

(** One hexadecimal digit in upper case, digit by digit. *)
Definition hex_char (d : Z) : ascii :=
  match d with
  | 0 => "0" | 1 => "1" | 2 => "2" | 3 => "3" | 4 => "4" | 5 => "5"
  | 6 => "6" | 7 => "7" | 8 => "8" | 9 => "9" | 10 => "A" | 11 => "B"
  | 12 => "C" | 13 => "D" | 14 => "E" | 15 => "F" | _ => "?"
  end%char.

(** A byte "hex-formatted" as the console shows it: [0x], the high and the
    low digit, and a space.  Written from the words of the specification,
    not from [sprintf]. *)
Definition hex_text (b : Z) : string :=
  String "0" (String "x" (String (hex_char (b / 16))
    (String (hex_char (b mod 16)) (String " " EmptyString)))).

(** Reading one byte from [Wire] and printing it hex-formatted. *)
Definition read_and_print_hex (b : Z) : list Event :=
  [Wire_read; Serial_print (hex_text b)].

(** ** Vocabulary for the lines a dispatcher is handed *)

(** What a backspace echoes: [Serial << byte(b)], lines 148. *)
Definition echo (e : Event) : Prop := exists b, e = Serial_shl b.

(** Only typing lies between [st] and [st']: the content of the line
    buffer, its cursor and [c] may differ, and backspaces may have been
    echoed; everything else, the size of the buffer included, is as it
    was, and nothing else was printed or called. *)
Definition typing (st st' : State) : Prop :=
  changed st' = changed st /\
  i2cSlaveAddress st' = i2cSlaveAddress st /\
  strtok_save st' = strtok_save st /\
  Wire_rx st' = Wire_rx st /\
  world st' = world st /\
  length (commandBuf st') = length (commandBuf st) /\
  exists echoes, trace st' = trace st ++ echoes /\ Forall echo echoes.

(** The dispatcher [run] is handed the lines [texts] one after the other,
    starting from [st], and [r] is the outcome.  Each line is handed over in
    the buffer, before the cursor and closed by [NUL], with only typing since
    the call before; the cursor is set back after each call; a call that is
    undefined makes the outcome undefined; after the last call there is only
    typing. *)
Fixpoint served (run : State -> Result State) (texts : list (list ascii))
  (st : State) (r : Result State) : Prop :=
  match texts with
  | [] => exists st_end, r = Ok st_end /\ typing st st_end /\ charCnt st_end = 0
  | text :: texts' =>
      exists st_line,
        typing st st_line /\
        line st_line = text /\
        commandBuf st_line !! length text = Some NUL /\
        (NUL ∉ text -> cstr (commandBuf st_line) = text) /\
        match run st_line with
        | Ok st' => served run texts' (set_charCnt 0 st') r
        | Undefined what => r = Undefined what
        end
  end.

(** The edited texts of the lines that are not empty. *)
Definition edited_texts (ls : list (list ascii * ascii)) : list (list ascii) :=
  filter (fun t => t <> []) (map (fun l => edit l.1) ls).

(** ** Tactics *)

(** Unfolds the field updates and reads the fields of explicit states. *)
Ltac unstate :=
  cbn [changed charCnt c commandBuf i2cSlaveAddress strtok_save Wire_rx trace
       world fst snd Serial_print_ Serial_println_ emit commandBuf_store
       set_changed set_charCnt set_c set_commandBuf set_i2cSlaveAddress
       set_strtok_save set_Wire_rx set_trace].

(** Computes a state built from field updates on an explicit record. *)
Ltac state_cbv :=
  cbv [Serial_print_ Serial_println_ emit commandBuf_store
       set_changed set_charCnt set_c set_commandBuf set_i2cSlaveAddress
       set_strtok_save set_Wire_rx set_trace
       changed charCnt c commandBuf i2cSlaveAddress strtok_save Wire_rx trace
       world].

(** * Properties *)

Lemma last_cons {A : Type} (a d : A) (l : list A) :
  List.last (a :: l) d = List.last l a.
Proof.
  revert a d. induction l as [|b l IH]; intros a d; [reflexivity|].
  transitivity (List.last l b); [apply (IH b)|symmetry; apply IH].
Qed.

Lemma run_body_last body st : run_body body st = List.last (steps body st) st.
Proof.
  revert st. induction body as [|stmt body IH]; intros st; [done|].
  unfold run_body in *. cbn [steps foldl]. rewrite IH.
  symmetry. apply last_cons.
Qed.

(** C1. Every call of the flush callback goes through exactly four steps, in
    this order: it synchronises the block cache of the flash
    ([flash.syncBlocks]), then invalidates the file system's cache
    ([fatfs.cacheClear]), then sets the dirty flag [changed], then switches
    the busy LED off; the flag is still untouched after the first two steps
    and the LED is switched off with the flag already set. *)
Theorem msc_flush_cb_sequence (st : State) :
  exists s1 s2 s3 s4,
    steps msc_flush_cb_body st = [s1; s2; s3; s4] /\
    msc_flush_cb st = s4 /\
    (trace s1 = trace st ++ [flash_syncBlocks] /\ changed s1 = changed st) /\
    (trace s2 = trace s1 ++ [fatfs_cacheClear] /\ changed s2 = changed st) /\
    (trace s3 = trace s2 /\ changed s3 = true) /\
    (trace s4 = trace s3 ++ [digitalWrite LED_BUILTIN LOW] /\
     changed s4 = true) /\
    trace (msc_flush_cb st) =
      trace st ++
      [flash_syncBlocks; fatfs_cacheClear; digitalWrite LED_BUILTIN LOW].
Proof.
  unfold msc_flush_cb. rewrite run_body_last. cbn [msc_flush_cb_body steps].
  do 4 eexists. split; [reflexivity|].
  cbn. rewrite <- !app_assoc. repeat split; reflexivity.
Qed.

(** C8. [msc_read_cb] and [msc_write_cb] called with [(lba, buffer, size)],
    whatever the arguments: they forward one transfer of [size / 512] blocks
    (integer division) starting at [lba] to the flash, the write after
    switching the busy LED on, and nothing else; when the flash reports
    failure they return [-1]; when it reports success they return [size] as
    the return type [int32_t] of the callback holds it, which is [size]
    itself for every size of a buffer the return type can report
    ([size <= 2^31 - 1]). *)
Theorem msc_block_callbacks (lba bufsize : Z) (st : State) :
  (trace (msc_read_cb lba bufsize st).2 =
     trace st ++ [flash_readBlocks lba (bufsize / 512)] /\
   (flash_ok (world st) (trace (msc_read_cb lba bufsize st).2) = false ->
    (msc_read_cb lba bufsize st).1 = -1) /\
   (flash_ok (world st) (trace (msc_read_cb lba bufsize st).2) = true ->
    (msc_read_cb lba bufsize st).1 = to_int bufsize /\
    (0 <= bufsize <= 2 ^ 31 - 1 -> (msc_read_cb lba bufsize st).1 = bufsize))) /\
  (trace (msc_write_cb lba bufsize st).2 =
     trace st ++ [digitalWrite LED_BUILTIN HIGH;
                  flash_writeBlocks lba (bufsize / 512)] /\
   (flash_ok (world st) (trace (msc_write_cb lba bufsize st).2) = false ->
    (msc_write_cb lba bufsize st).1 = -1) /\
   (flash_ok (world st) (trace (msc_write_cb lba bufsize st).2) = true ->
    (msc_write_cb lba bufsize st).1 = to_int bufsize /\
    (0 <= bufsize <= 2 ^ 31 - 1 -> (msc_write_cb lba bufsize st).1 = bufsize))).
Proof.
  assert (Hfit : 0 <= bufsize <= 2 ^ 31 - 1 -> to_int bufsize = bufsize).
  { intros H. unfold to_int. rewrite Z.mod_small; lia. }
  unfold msc_read_cb, msc_write_cb. cbn [fst snd trace world emit set_trace].
  rewrite <- !app_assoc. cbn [app].
  split; (split; [reflexivity|]); (split; intros ->; [reflexivity|]);
    (split; [reflexivity|exact Hfit]).
Qed.

(** The boundary cases of the specification: a size of 511 forwards no
    block and is returned on success; a size of 1024 forwards two blocks and
    is returned on success, and the failure of the transfer gives [-1]. *)
Lemma msc_block_callbacks_witness :
  trace (msc_read_cb 7 511 (after_setup flash_world)).2 = [flash_readBlocks 7 0] /\
  (msc_read_cb 7 511 (after_setup flash_world)).1 = 511 /\
  trace (msc_write_cb 7 1024 (after_setup flash_world)).2 =
    [digitalWrite LED_BUILTIN HIGH; flash_writeBlocks 7 2] /\
  (msc_write_cb 7 1024 (after_setup flash_world)).1 = 1024 /\
  trace (msc_write_cb 7 1024 (after_setup silent_world)).2 =
    [digitalWrite LED_BUILTIN HIGH; flash_writeBlocks 7 2] /\
  (msc_write_cb 7 1024 (after_setup silent_world)).1 = -1.
Proof.
  destruct (msc_block_callbacks 7 511 (after_setup flash_world))
    as [(H1 & _ & H2) _].
  destruct (msc_block_callbacks 7 1024 (after_setup flash_world))
    as [_ (H3 & _ & H4)].
  destruct (msc_block_callbacks 7 1024 (after_setup silent_world))
    as [_ (H5 & H6 & _)].
  split; [exact H1|]. split; [apply H2; [reflexivity|lia]|].
  split; [exact H3|]. split; [apply H4; [reflexivity|lia]|].
  split; [exact H5|]. apply H6. reflexivity.
Defined.

(** Why the bound is there: [size] arrives as [uint32_t] and leaves as
    [int32_t], so a [size] of [2^31] would come back as [-2^31].  The size is
    that of a buffer in the memory of the board, far below the bound. *)
Example msc_read_cb_large_size :
  flash_ok (world (after_setup flash_world))
    (trace (msc_read_cb 0 2147483648 (after_setup flash_world)).2) = true /\
  (msc_read_cb 0 2147483648 (after_setup flash_world)).1 = -2147483648.
Proof. split; reflexivity. Qed.

(** ** The I2C engine: reading *)

Lemma i2cRead_for_spec (n : nat) (st : State) :
  (n <= length (Wire_rx st))%nat ->
  i2cRead_for n st =
    set_Wire_rx (drop n (Wire_rx st))
      (set_trace (trace st ++ flat_map read_and_print (take n (Wire_rx st))) st).
Proof.
  revert st. induction n as [|n IH]; intros st Hn.
  - cbn. rewrite app_nil_r. by destruct st.
  - destruct st as [ch cc x buf addr sv rx tr w]. cbn in Hn.
    destruct rx as [|b rx]; [cbn in Hn; lia|]. cbn in Hn.
    cbn [i2cRead_for Wire_read_ Wire_rx].
    rewrite IH; [|unstate; lia]. unstate. cbn [take drop flat_map].
    by rewrite <- !app_assoc.
Qed.

(** The whole of what [i2cRead] does to the trace. *)
Lemma i2cRead_trace (cnt : Z) (st : State) :
  trace (i2cRead cnt st) =
    trace st ++ i2cRead_announcement cnt st ++
    [i2cRead_request cnt st; Wire_available] ++
    (if cnt <=? Z.of_nat (length (i2cRead_available cnt st))
     then flat_map read_and_print
            (take (Z.to_nat cnt) (i2cRead_available cnt st))
     else []) ++
    [Serial_println EmptyString].
Proof.
  unfold i2cRead, i2cRead_available, i2cRead_announcement, i2cRead_request,
    Wire_requestFrom_, Wire_available_.
  unstate. rewrite <- !app_assoc. cbn [app].
  set (rx := map to_char _).
  destruct (Z.leb_spec cnt (Z.of_nat (length rx))) as [Hle|Hlt].
  - rewrite i2cRead_for_spec; [|unstate; lia]. unstate.
    by rewrite <- !app_assoc.
  - unstate. by rewrite <- !app_assoc.
Qed.

Lemma printed_read_and_print (bs : list Z) :
  printed (flat_map read_and_print bs) = map sprintf_0x02X_sp bs.
Proof. induction bs as [|b bs IH]; [done|]. cbn. by rewrite <- IH. Qed.

Lemma byte_cases (P : Z -> bool) :
  forallb P (seqZ 0 256) = true -> forall b, 0 <= b < 256 -> P b = true.
Proof.
  intros H b Hb. rewrite forallb_forall in H. apply H.
  apply list_elem_of_In, elem_of_seqZ. lia.
Qed.

(** For a byte, [sprintf] with ["0x%02X "] writes the text the
    specification calls hex-formatted. *)
Lemma sprintf_hex_text (b : Z) :
  0 <= b < 256 -> sprintf_0x02X_sp b = hex_text b.
Proof.
  intros Hb.
  pose proof (byte_cases
    (fun b => bool_decide (sprintf_0x02X_sp b = hex_text b))) as H.
  specialize (H ltac:(vm_compute; reflexivity) b Hb).
  by apply bool_decide_eq_true in H.
Qed.

Lemma i2cRead_available_bytes (cnt : Z) (st : State) :
  Forall (fun b => 0 <= b < 256) (i2cRead_available cnt st).
Proof.
  unfold i2cRead_available. apply Forall_map, Forall_true. intros v.
  unfold to_char. by apply Z.mod_pos_bound.
Qed.

Lemma read_and_print_bytes (bs : list Z) :
  Forall (fun b => 0 <= b < 256) bs ->
  flat_map read_and_print bs = flat_map read_and_print_hex bs.
Proof.
  induction 1 as [|b bs Hb _ IH]; [done|]. cbn [flat_map]. rewrite IH.
  unfold read_and_print, read_and_print_hex. by rewrite sprintf_hex_text.
Qed.

(** The whole of what [i2cRead] does to the trace, with the text of each
    byte written out. *)
Lemma i2cRead_trace_hex (cnt : Z) (st : State) :
  trace (i2cRead cnt st) =
    trace st ++ i2cRead_announcement cnt st ++
    [i2cRead_request cnt st; Wire_available] ++
    (if cnt <=? Z.of_nat (length (i2cRead_available cnt st))
     then flat_map read_and_print_hex
            (take (Z.to_nat cnt) (i2cRead_available cnt st))
     else []) ++
    [Serial_println EmptyString].
Proof.
  rewrite i2cRead_trace. do 3 f_equal.
  destruct (cnt <=? _); [|done]. f_equal. apply read_and_print_bytes.
  apply Forall_take, i2cRead_available_bytes.
Qed.

Lemma printed_read_and_print_hex (bs : list Z) :
  printed (flat_map read_and_print_hex bs) = map hex_text bs.
Proof. induction bs as [|b bs IH]; [done|]. cbn. by rewrite <- IH. Qed.

(** C5. [i2cRead N] requests [N] bytes from the slave at [i2cSlaveAddress];
    when at least [N] bytes become available it reads and prints exactly the
    first [N] of them, in the order received, each hex-formatted: [0x], two
    upper-case hexadecimal digits and a space; when fewer become available
    it reads and prints no byte at all, and reports no error.  What the
    slave delivers are bytes, [0] to [255]. *)
Theorem i2cRead_all_or_nothing (cnt : Z) (st : State) :
  trace (i2cRead cnt st) =
    trace st ++ i2cRead_announcement cnt st ++
    [Wire_requestFrom (i2cSlaveAddress st) cnt; Wire_available] ++
    (if cnt <=? Z.of_nat (length (i2cRead_available cnt st))
     then flat_map read_and_print_hex
            (take (Z.to_nat cnt) (i2cRead_available cnt st))
     else []) ++
    [Serial_println EmptyString] /\
  Forall (fun b => 0 <= b < 256) (i2cRead_available cnt st) /\
  printed
    (if cnt <=? Z.of_nat (length (i2cRead_available cnt st))
     then flat_map read_and_print_hex
            (take (Z.to_nat cnt) (i2cRead_available cnt st))
     else []) =
    (if cnt <=? Z.of_nat (length (i2cRead_available cnt st))
     then map hex_text (take (Z.to_nat cnt) (i2cRead_available cnt st))
     else []) /\
  length
    (if cnt <=? Z.of_nat (length (i2cRead_available cnt st))
     then map hex_text (take (Z.to_nat cnt) (i2cRead_available cnt st))
     else []) =
    (if cnt <=? Z.of_nat (length (i2cRead_available cnt st))
     then Z.to_nat cnt else O).
Proof.
  split; [apply i2cRead_trace_hex|].
  split; [apply i2cRead_available_bytes|].
  destruct (Z.leb_spec cnt (Z.of_nat (length (i2cRead_available cnt st))))
    as [Hle|Hlt]; [|done].
  rewrite printed_read_and_print_hex, length_map, length_take. split; [done|lia].
Qed.

(** Reads of three and of four bytes from a slave that delivers [0xA0],
    [0xA1] and [0xA2]: the three are printed as text, in order; of the four
    none. *)
Lemma i2cRead_all_or_nothing_witness :
  trace (i2cRead 3 (after_setup slave_world)) =
    [ Serial_print "Reading "; Serial_print "3"; Serial_print " bytes from ";
      Serial_println "65"; Wire_requestFrom 65 3; Wire_available;
      Wire_read; Serial_print "0xA0 "; Wire_read; Serial_print "0xA1 ";
      Wire_read; Serial_print "0xA2 "; Serial_println EmptyString ] /\
  trace (i2cRead 4 (after_setup slave_world)) =
    [ Serial_print "Reading "; Serial_print "4"; Serial_print " bytes from ";
      Serial_println "65"; Wire_requestFrom 65 4; Wire_available;
      Serial_println EmptyString ].
Proof.
  split.
  - exact (proj1 (i2cRead_all_or_nothing 3 (after_setup slave_world))).
  - exact (proj1 (i2cRead_all_or_nothing 4 (after_setup slave_world))).
Defined.

(** C10. Every call of [i2cRead] first prints the announcement line with
    the requested count and the current slave address, only then asks the
    bus and checks what is available, and ends with a newline; so a read for
    which fewer than [cnt] bytes become available still writes to the
    console: the announcement and an empty line, without any byte value. *)
Theorem i2cRead_announces (cnt : Z) (st : State) :
  (exists data,
     trace (i2cRead cnt st) =
       trace st ++
       [ Serial_print "Reading "; Serial_print (dec cnt);
         Serial_print " bytes from ";
         Serial_println (dec (i2cSlaveAddress st)) ] ++
       [Wire_requestFrom (i2cSlaveAddress st) cnt; Wire_available] ++
       data ++ [Serial_println EmptyString]) /\
  (Z.of_nat (length (i2cRead_available cnt st)) < cnt ->
   trace (i2cRead cnt st) =
     trace st ++
     [ Serial_print "Reading "; Serial_print (dec cnt);
       Serial_print " bytes from ";
       Serial_println (dec (i2cSlaveAddress st));
       Wire_requestFrom (i2cSlaveAddress st) cnt; Wire_available;
       Serial_println EmptyString ]).
Proof.
  split.
  - eexists. apply i2cRead_trace.
  - intros Hshort. rewrite i2cRead_trace.
    destruct (Z.leb_spec cnt (Z.of_nat (length (i2cRead_available cnt st))));
      [lia|reflexivity].
Qed.

(** A read of two bytes when no slave answers: the announcement and an empty
    line are all the console shows. *)
Lemma i2cRead_announces_witness :
  Z.of_nat (length (i2cRead_available 2 (after_setup silent_world))) < 2 /\
  trace (i2cRead 2 (after_setup silent_world)) =
    [ Serial_print "Reading "; Serial_print "2";
      Serial_print " bytes from "; Serial_println "65";
      Wire_requestFrom 65 2; Wire_available; Serial_println EmptyString ].
Proof.
  assert (H : Z.of_nat (length (i2cRead_available 2 (after_setup silent_world))) < 2)
    by (cbn; lia).
  split; [exact H|].
  exact (proj2 (i2cRead_announces 2 (after_setup silent_world)) H).
Defined.

(** ** C strings and [strtok] *)

Lemma cstr_no_NUL (l : list ascii) : NUL ∉ cstr l.
Proof.
  induction l as [|x l IH]; cbn; [apply not_elem_of_nil|].
  destruct (decide (x = NUL)); [apply not_elem_of_nil|].
  apply not_elem_of_cons. split; [congruence|done].
Qed.

Lemma cstr_id (s : list ascii) : NUL ∉ s -> cstr s = s.
Proof.
  induction s as [|x s IH]; [done|]. intros [Hx Hs]%not_elem_of_cons. cbn.
  destruct (decide (x = NUL)); [congruence|]. by rewrite IH.
Qed.

Lemma strspn_cstr (l d : list ascii) : strspn (cstr l) d = strspn l d.
Proof.
  induction l as [|x l IH]; [done|]. cbn.
  destruct (decide (x = NUL)) as [|Hx]; [done|]. cbn.
  destruct (decide (x = NUL)); [done|]. by rewrite IH.
Qed.

Lemma strcspn_cstr (l d : list ascii) : strcspn (cstr l) d = strcspn l d.
Proof.
  induction l as [|x l IH]; [done|]. cbn.
  destruct (decide (x = NUL)) as [|Hx]; [done|]. cbn.
  destruct (decide (x = NUL)); [done|]. by rewrite IH.
Qed.

Lemma strspn_le (s d : list ascii) : (strspn s d <= length s)%nat.
Proof.
  induction s as [|x s IH]; cbn; [lia|].
  destruct (decide (x = NUL)); [lia|]. destruct (elem x d); lia.
Qed.

Lemma strcspn_le (s d : list ascii) : (strcspn s d <= length s)%nat.
Proof.
  induction s as [|x s IH]; cbn; [lia|].
  destruct (decide (x = NUL)); [lia|]. destruct (elem x d); lia.
Qed.

Lemma cstr_drop (k : nat) (l : list ascii) :
  (k <= length (cstr l))%nat -> cstr (drop k l) = drop k (cstr l).
Proof.
  revert l. induction k as [|k IH]; intros l Hk; [by rewrite !drop_0|].
  destruct l as [|x l]; [done|]. cbn in *.
  destruct (decide (x = NUL)); cbn in *; [lia|]. apply IH. lia.
Qed.

Lemma cstr_insert_NUL (n : nat) (l : list ascii) :
  (n <= length (cstr l))%nat -> (n < length l)%nat ->
  cstr (<[n:=NUL]> l) = take n (cstr l).
Proof.
  revert l. induction n as [|n IH]; intros l Hn Hl.
  - destruct l as [|x l]; [cbn in Hl; lia|]. cbn.
    destruct (decide (NUL = NUL)); [|done]. by rewrite take_0.
  - destruct l as [|x l]; [cbn in Hl; lia|]. cbn in *.
    destruct (decide (x = NUL)); cbn in *; [lia|].
    f_equal. apply IH; lia.
Qed.

Lemma cstr_nil_iff (l : list ascii) :
  cstr l = [] <-> l = [] \/ exists l', l = NUL :: l'.
Proof.
  destruct l as [|x l]; cbn; [by split; [left|]|].
  destruct (decide (x = NUL)) as [->|Hx].
  - split; [right; by eexists|done].
  - split; [done|]. intros [H|[l' H]]; [done|]. congruence.
Qed.

Lemma cstr_length (l : list ascii) : (length (cstr l) <= length l)%nat.
Proof.
  induction l as [|x l IH]; cbn; [lia|].
  destruct (decide (x = NUL)); cbn; lia.
Qed.

Lemma drop_S_cons {A : Type} (n : nat) (l : list A) (d : A) (r : list A) :
  drop n l = d :: r -> drop (S n) l = r.
Proof.
  intros H. replace (S n) with (n + 1)%nat by lia.
  by rewrite <- drop_drop, H.
Qed.

Lemma drop_S_nil {A : Type} (n : nat) (l : list A) :
  drop n l = [] -> drop (S n) l = [].
Proof.
  intros H. replace (S n) with (n + 1)%nat by lia.
  by rewrite <- drop_drop, H.
Qed.

Lemma fields_strcspn (s : list ascii) :
  NUL ∉ s ->
  fields s =
    take (strcspn s delimiters) s ::
    match drop (strcspn s delimiters) s with
    | [] => []
    | _ :: r => fields r
    end.
Proof.
  induction s as [|x s IH]; [done|].
  intros [Hx Hs]%not_elem_of_cons. cbn.
  destruct (decide (x = NUL)); [congruence|].
  destruct (elem x delimiters); [done|].
  rewrite (IH Hs). done.
Qed.

(** The first token of a string and what follows it, as [strtok] finds
    them: skip the delimiters, take up to the next delimiter, go on behind
    it. *)
Lemma tokens_next (s : list ascii) :
  NUL ∉ s ->
  tokens s =
    (let s1 := drop (strspn s delimiters) s in
     let n := strcspn s1 delimiters in
     if decide (s1 = []) then [] else take n s1 :: tokens (drop (S n) s1)).
Proof.
  cbv zeta. induction s as [|x s IH]; [done|].
  intros [Hx Hs]%not_elem_of_cons. cbn [strspn].
  destruct (decide (x = NUL)); [congruence|].
  destruct (elem x delimiters) eqn:Hd.
  - cbn [drop]. rewrite <- (IH Hs). unfold tokens. cbn [fields]. rewrite Hd.
    by rewrite filter_cons_False by (intros H; by apply H).
  - cbn [drop]. rewrite decide_False by done. cbn [strcspn].
    destruct (decide (x = NUL)); [congruence|]. rewrite Hd.
    unfold tokens. cbn [fields]. rewrite Hd.
    rewrite (fields_strcspn s Hs).
    rewrite filter_cons_True by done. cbn [take]. f_equal.
    destruct (drop (strcspn s delimiters) s) as [|d r] eqn:Hr.
    + by rewrite (drop_S_nil _ _ Hr).
    + by rewrite (drop_S_cons _ _ _ _ Hr).
Qed.

Lemma strtok_frame_refl (st : State) : strtok_frame st st.
Proof. exists (commandBuf st), (strtok_save st). by destruct st. Qed.

Lemma strtok_frame_trans (st1 st2 st3 : State) :
  strtok_frame st1 st2 -> strtok_frame st2 st3 -> strtok_frame st1 st3.
Proof.
  intros (b1 & s1 & H1 & ->) (b2 & s2 & H2 & ->).
  exists b2, s2. split; [|done]. rewrite H2. exact H1.
Qed.

(** [strtok] started at [commandBuf[o]], by a first call or from the saved
    position: it returns the first token of the string there, as a pointer
    to a terminated copy in the buffer, and keeps the tokens that follow for
    the calls to come; when the string has no token it returns the null
    pointer. *)
Lemma strtok_spec (p : ptr) (st : State) (o : nat) :
  match p with Some o' => Some o' | None => strtok_save st end = Some o ->
  strtok_frame st (strtok p delimiters st).2 /\
  match tokens (cstr_at (commandBuf st) o) with
  | [] =>
      (strtok p delimiters st).1 = None /\
      pending_tokens (strtok p delimiters st).2 = []
  | t :: ts =>
      exists tok,
        (strtok p delimiters st).1 = Some tok /\
        cstr_at (commandBuf (strtok p delimiters st).2) tok = t /\
        pending_tokens (strtok p delimiters st).2 = ts
  end.
Proof.
  intros Hp. unfold strtok. rewrite Hp. clear Hp p.
  set (buf := commandBuf st). set (l := drop o buf).
  unfold cstr_at. fold l.
  rewrite (tokens_next (cstr l)) by apply cstr_no_NUL. cbv zeta.
  rewrite strspn_cstr.
  set (k := strspn l delimiters).
  assert (Hk : (k <= length (cstr l))%nat).
  { unfold k. rewrite <- strspn_cstr. apply strspn_le. }
  replace (drop (o + k) buf) with (drop k l) by (unfold l; apply drop_drop).
  rewrite (cstr_drop k l Hk).
  set (s1 := drop k (cstr l)).
  assert (Hs1 : cstr (drop k l) = s1) by (apply cstr_drop, Hk).
  destruct (decide (s1 = [])) as [He|Hne].
  { cbn. split; [|done].
    exists buf, None. split; [done|]. by destruct st. }
  assert (Hn1 : strcspn (drop k l) delimiters = strcspn s1 delimiters).
  { rewrite <- strcspn_cstr. by rewrite Hs1. }
  rewrite !Hn1.
  set (n := strcspn s1 delimiters).
  assert (Hn : (n <= length s1)%nat) by apply strcspn_le.
  replace (drop (o + k + n) buf) with (drop n (drop k l))
    by (unfold l; rewrite !drop_drop; f_equal; lia).
  assert (Hcut : cstr (drop n (drop k l)) = drop n s1).
  { rewrite <- Hs1. apply cstr_drop. by rewrite Hs1. }
  rewrite Hcut.
  destruct (decide (drop n s1 = [])) as [Hend|Hmore].
  - cbn. split.
    { exists buf, None. split; [done|]. by destruct st. }
    exists (o + k)%nat. split; [done|]. split; [|by rewrite (drop_S_nil _ _ Hend)].
    fold buf. replace (drop (o + k) buf) with (drop k l)
      by (unfold l; apply drop_drop).
    rewrite Hs1. rewrite <- (take_drop n s1) at 1. by rewrite Hend, app_nil_r.
  - assert (Hlt : (n < length s1)%nat).
    { destruct (decide (n < length s1)%nat) as [|Hge]; [done|].
      exfalso. apply Hmore. apply drop_ge. lia. }
    assert (Hlen : (length s1 <= length (drop k l))%nat).
    { rewrite <- Hs1. apply cstr_length. }
    cbn. split.
    { eexists _, _. split; [|reflexivity]. apply length_insert. }
    exists (o + k)%nat. split; [done|]. unfold pending_tokens. unstate. split.
    + rewrite drop_insert_ge by lia.
      replace (o + k + n - (o + k))%nat with n by lia.
      replace (drop (o + k) buf) with (drop k l)
        by (unfold l; apply drop_drop).
      rewrite cstr_insert_NUL by (rewrite ?Hs1; lia). by rewrite Hs1.
    + unfold cstr_at. rewrite drop_insert_lt by lia.
      replace (drop (S (o + k + n)) buf) with (drop (S n) (drop k l))
        by (unfold l; rewrite !drop_drop; f_equal; lia).
      rewrite (cstr_drop (S n) (drop k l)) by (rewrite Hs1; lia).
      by rewrite Hs1.
Qed.

(** With no saved position there is nothing to continue. *)
Lemma strtok_exhausted (st : State) :
  strtok_save st = None -> strtok None delimiters st = (None, st).
Proof. intros H. unfold strtok. by rewrite H. Qed.

(** ** The token stream *)

Lemma digits_nonneg (base : Z) (s : list ascii) (acc : Z) (n : nat) :
  0 <= base -> 0 <= acc -> 0 <= (digits base s acc n).1.
Proof.
  intros Hb. revert acc n. induction s as [|x s IH]; intros acc n Hacc; [done|].
  cbn. unfold digit_in, digit_of.
  repeat case_match; simplify_eq; cbn; try done; apply IH; lia.
Qed.

Lemma strtoul_nonneg (t : list ascii) : 0 <= (strtoul t).1.
Proof.
  unfold strtoul.
  set (s0 := drop _ t).
  destruct (match s0 with
            | "-"%char :: _ => (true, 1%nat)
            | "+"%char :: _ => (false, 1%nat)
            | _ => (false, O)
            end) as [neg sg].
  set (s1 := drop sg s0).
  match goal with
  | |- context [let '(base, pre) := ?m in _] =>
      destruct m as [base pre] eqn:Hbase
  end.
  assert (Hb : 0 <= base) by (repeat case_match; simplify_eq; lia).
  pose proof (digits_nonneg base (drop pre s1) 0 O Hb (Z.le_refl 0)) as Hv.
  destruct (digits base (drop pre s1) 0 O) as [v n]. cbn in Hv.
  destruct (decide (n = O)); cbn; [done|].
  destruct (ULONG_MAX <? v); [done|].
  destruct neg; [by apply Z.mod_pos_bound|done].
Qed.

(** When [strtoul] converts nothing ([endptr == nptr]) its value is 0. *)
Lemma strtoul_no_conversion (t : list ascii) :
  (strtoul t).2 = O -> (strtoul t).1 = 0.
Proof.
  unfold strtoul.
  set (s0 := drop _ t).
  destruct (match s0 with
            | "-"%char :: _ => (true, 1%nat)
            | "+"%char :: _ => (false, 1%nat)
            | _ => (false, O)
            end) as [neg sg].
  set (s1 := drop sg s0).
  match goal with
  | |- context [let '(base, pre) := ?m in _] => destruct m as [base pre]
  end.
  destruct (digits base (drop pre s1) 0 O) as [v n].
  destruct (decide (n = O)); cbn; [done|lia].
Qed.

Lemma byte_of_range (t : list ascii) (b : Z) :
  byte_of t = Some b -> 0 <= b < 256.
Proof.
  unfold byte_of. pose proof (strtoul_nonneg t) as H.
  destruct (strtoul t) as [ul len]. cbn in H.
  repeat case_match; intros; simplify_eq. lia.
Qed.

Lemma to_char_byte (b : Z) : 0 <= b < 256 -> to_char b = b.
Proof. intros H. unfold to_char. by apply Z.mod_small. Qed.

(** [nextByte] delivers the next byte of the token stream, or [-1] at its
    end, and moves on by one token. *)
Lemma nextByte_spec (st : State) :
  strtok_frame st (nextByte st).2 /\
  match pending_tokens st with
  | [] => (nextByte st).1 = -1 /\ pending_tokens (nextByte st).2 = []
  | t :: ts =>
      (nextByte st).1 = default (-1) (byte_of t) /\
      pending_tokens (nextByte st).2 = ts
  end.
Proof.
  unfold nextByte, pending_tokens at 1.
  destruct (strtok_save st) as [o|] eqn:Hsave.
  - destruct (strtok_spec None st o Hsave) as [Hframe Htok].
    destruct (strtok None delimiters st) as [nptr st1]. cbn [fst snd] in *.
    destruct (tokens (cstr_at (commandBuf st) o)) as [|t ts].
    + destruct Htok as [-> Hp]. done.
    + destruct Htok as (tok & -> & Ht & Hp). rewrite Ht. unfold byte_of.
      destruct (strtoul t) as [ul len].
      destruct (decide (len = O)); [done|]. by destruct (ul <? 256).
  - rewrite (strtok_exhausted st Hsave). cbn. split; [apply strtok_frame_refl|].
    unfold pending_tokens. by rewrite Hsave.
Qed.

Lemma fields_weight (s : list ascii) :
  (length (filter (fun t => t <> []) (tail (fields s))) +
   length (hd [] (fields s)) <= length s)%nat.
Proof.
  induction s as [|x s IH]; [done|]. cbn [fields].
  destruct (elem x delimiters).
  - cbn [tail hd length]. destruct (fields s) as [|t ts]; [cbn; lia|].
    cbn [tail hd] in IH.
    destruct (decide (t = [])) as [->|Ht].
    + rewrite filter_cons_False by (intros H; by apply H). cbn in *. lia.
    + rewrite filter_cons_True by done. cbn [length].
      destruct t; [done|]. cbn [length] in *. lia.
  - destruct (fields s) as [|t ts]; cbn in *; lia.
Qed.

Lemma tokens_length (s : list ascii) : (length (tokens s) <= length s)%nat.
Proof.
  pose proof (fields_weight s) as H. unfold tokens.
  destruct (fields s) as [|t ts]; [cbn; lia|]. cbn [tail hd] in H.
  destruct (decide (t = [])) as [->|Ht].
  - rewrite filter_cons_False by (intros H'; by apply H'). lia.
  - rewrite filter_cons_True by done. cbn [length].
    destruct t; [done|]. cbn [length] in *. lia.
Qed.

Lemma byte_stream_length (ts : list (list ascii)) :
  (length (byte_stream ts) <= length ts)%nat.
Proof.
  induction ts as [|t ts IH]; [done|]. cbn.
  destruct (byte_of t); cbn; lia.
Qed.

Lemma pending_tokens_length (st : State) :
  (length (pending_tokens st) <= length (commandBuf st))%nat.
Proof.
  unfold pending_tokens. destruct (strtok_save st) as [o|]; [|cbn; lia].
  etrans; [apply tokens_length|]. unfold cstr_at.
  etrans; [apply cstr_length|]. rewrite length_drop. lia.
Qed.

(** The loop of [i2cWrite], entered with a byte in [nextData]: it writes
    that byte and the rest of the token stream, counts them, and never runs
    out of fuel. *)
Lemma i2cWrite_while_total (fuel : nat) (nextData dataCnt : Z) (st : State) :
  0 <= nextData < 256 ->
  (length (byte_stream (pending_tokens st)) + 2 <= fuel)%nat ->
  exists st2,
    strtok_frame st st2 /\
    pending_tokens st2 = after_stream (pending_tokens st) /\
    i2cWrite_while fuel nextData dataCnt st =
      Some (Nat.iter (S (length (byte_stream (pending_tokens st))))
              (fun k => to_int (k + 1)) dataCnt,
            set_trace
              (trace st ++
               map Wire_write (nextData :: byte_stream (pending_tokens st)))
              st2).
Proof.
  revert nextData dataCnt st.
  induction fuel as [|fuel IH]; intros nd cnt st Hnd Hfuel; [lia|].
  cbn [i2cWrite_while]. rewrite (proj2 (Z.leb_le 0 nd)) by lia.
  rewrite to_char_byte by done.
  set (st1 := emit (Wire_write nd) st).
  assert (Hp1 : pending_tokens st1 = pending_tokens st) by done.
  destruct (nextByte_spec st1) as [(buf & sv & Hlen & Hst2) Hnext].
  destruct (nextByte st1) as [nd' st2]. cbn [fst snd] in *.
  rewrite Hp1 in Hnext.
  assert (Hframe : strtok_frame st (set_trace (trace st) st2)).
  { exists buf, sv. split; [done|]. subst st2. by destruct st. }
  destruct (pending_tokens st) as [|t ts] eqn:Hpend.
  - destruct Hnext as [-> Hp2]. cbn [byte_stream after_stream length] in *.
    destruct fuel as [|fuel]; [lia|]. cbn [i2cWrite_while].
    exists (set_trace (trace st) st2). split; [done|]. split; [done|].
    cbn. f_equal. f_equal. subst st2. by destruct st.
  - destruct Hnext as [-> Hp2]. cbn [byte_stream after_stream] in *.
    destruct (byte_of t) as [b|] eqn:Hb; cbn [default from_option id length] in *.
    + pose proof (byte_of_range t b Hb) as Hrange.
      destruct (IH b (to_int (cnt + 1)) st2 Hrange) as (st3 & Hf3 & Hp3 & Hrun).
      { rewrite Hp2. lia. }
      rewrite Hrun, Hp2.
      destruct Hf3 as (b3 & s3 & Hl3 & ->).
      exists (set_trace (trace st) (set_strtok_save s3 (set_commandBuf b3 st2))).
      split.
      { exists b3, s3. split; [|subst st2; by destruct st].
        rewrite Hl3. subst st2. cbn. exact Hlen. }
      split; [rewrite Hp2 in Hp3; exact Hp3|].
      rewrite (Nat.iter_succ_r (S _) _ cnt). f_equal. f_equal.
      subst st2. destruct st. cbn. by rewrite <- app_assoc.
    + destruct fuel as [|fuel]; [lia|]. cbn [i2cWrite_while].
      exists (set_trace (trace st) st2). split; [done|]. split; [done|].
      cbn. f_equal. f_equal. subst st2. by destruct st.
Qed.

(** ** The I2C engine: writing *)

(** [i2cWrite] reads the token stream to its end and touches nothing else
    but the trace. *)
Lemma i2cWrite_effect (sendStop : bool) (st : State) :
  exists st2,
    strtok_frame st st2 /\
    pending_tokens st2 = after_stream (pending_tokens st) /\
    i2cWrite sendStop st =
      set_trace
        (trace st ++
         i2cWrite_events sendStop (i2cSlaveAddress st)
           (byte_stream (pending_tokens st)))
        st2.
Proof.
  unfold i2cWrite.
  destruct (nextByte_spec st) as [(buf & sv & Hlen & Hst1) Hnext].
  destruct (nextByte st) as [nd st1]. cbn [fst snd] in *.
  assert (Hnone :
    nd = -1 -> byte_stream (pending_tokens st) = [] ->
    pending_tokens st1 = after_stream (pending_tokens st) ->
    exists st2,
      strtok_frame st st2 /\
      pending_tokens st2 = after_stream (pending_tokens st) /\
      (if 0 <=? nd
       then
         let st := emit (Wire_beginTransmission (i2cSlaveAddress st1)) st1 in
         match i2cWrite_while (length (commandBuf st) + 2) nd 0 st with
         | Some (dataCnt, st) =>
             let st := emit (Wire_endTransmission sendStop) st in
             let st := Serial_print_ "Wrote " st in
             let st := Serial_print_ (dec dataCnt) st in
             Serial_println_ " bytes" st
         | None => st
         end
       else Serial_println_ "nothing to write" st1) =
      set_trace
        (trace st ++
         i2cWrite_events sendStop (i2cSlaveAddress st)
           (byte_stream (pending_tokens st)))
        st2).
  { intros -> Hbs Hp. rewrite Hbs. cbn.
    exists st1. split; [by exists buf, sv|]. split; [done|].
    subst st1. by destruct st. }
  destruct (pending_tokens st) as [|t ts] eqn:Hpend.
  { destruct Hnext as [Hnd Hp]. by apply Hnone. }
  destruct Hnext as [Hnd Hp]. cbn [byte_stream after_stream] in *.
  destruct (byte_of t) as [b|] eqn:Hb; cbn [default from_option id] in *;
    [|by apply Hnone].
  clear Hnone. pose proof (byte_of_range t b Hb) as Hrange. subst nd.
  rewrite (proj2 (Z.leb_le 0 b)) by lia. cbv zeta.
  set (st1' := emit (Wire_beginTransmission (i2cSlaveAddress st1)) st1).
  assert (Hp' : pending_tokens st1' = ts) by (rewrite <- Hp; done).
  destruct (i2cWrite_while_total (length (commandBuf st1') + 2) b 0 st1' Hrange)
    as (st3 & (b3 & s3 & Hl3 & ->) & Hp3 & Hrun).
  { pose proof (byte_stream_length (pending_tokens st1')).
    pose proof (pending_tokens_length st1'). lia. }
  rewrite Hrun, Hp'.
  exists (set_trace (trace st) (set_strtok_save s3 (set_commandBuf b3 st1'))).
  split.
  { exists b3, s3. split; [|subst st1' st1; by destruct st].
    rewrite Hl3. subst st1' st1. cbn. exact Hlen. }
  split; [rewrite Hp' in Hp3; exact Hp3|].
  subst st1' st1. destruct st. cbn. unfold counted.
  state_cbv. rewrite <- !app_assoc. reflexivity.
Qed.

Lemma counted_small (n : nat) : Z.of_nat n < 2 ^ 31 -> counted n = Z.of_nat n.
Proof.
  unfold counted. induction n as [|n IH]; intros Hn; [done|].
  rewrite Nat.iter_succ, IH by lia. unfold to_int.
  rewrite Z.mod_small by lia. lia.
Qed.

(** C6. [i2cWrite], for [W] ([sendStop] true) and [F] ([sendStop] false):
    when the token stream yields no byte, nothing goes to the bus, no
    transmission is begun or ended, and "nothing to write" is printed; when
    it yields bytes, all of them are written between one
    [beginTransmission] and one [endTransmission], whose argument is
    [sendStop], and their count is printed. *)
Theorem i2cWrite_one_transmission (sendStop : bool) (st : State) :
  trace (i2cWrite sendStop st) =
    trace st ++
    match byte_stream (pending_tokens st) with
    | [] => [Serial_println "nothing to write"]
    | b :: bs =>
        [Wire_beginTransmission (i2cSlaveAddress st)] ++
        map Wire_write (b :: bs) ++
        [ Wire_endTransmission sendStop; Serial_print "Wrote ";
          Serial_print (dec (counted (length (b :: bs))));
          Serial_println " bytes" ]
    end.
Proof.
  destruct (i2cWrite_effect sendStop st) as (st2 & _ & _ & ->).
  unfold i2cWrite_events. by destruct (byte_stream (pending_tokens st)).
Qed.

(** ** The I2C engine: sub-commands *)

Lemma pending_tokens_save (st : State) (t : list ascii) (ts : list (list ascii)) :
  pending_tokens st = t :: ts ->
  exists o, strtok_save st = Some o /\ tokens (cstr_at (commandBuf st) o) = t :: ts.
Proof.
  unfold pending_tokens. destruct (strtok_save st) as [o|]; [|done].
  intros H. by exists o.
Qed.

(** [strtoul(strtok(NULL, delimiters), NULL, 0)] with a token to come: the
    value [strtoul] reads from that token. *)
Lemma strtoul_strtok_token (st : State) (t : list ascii) (ts : list (list ascii)) :
  pending_tokens st = t :: ts ->
  exists st1,
    strtok_frame st st1 /\ pending_tokens st1 = ts /\
    strtoul_strtok st = Ok ((strtoul t).1, st1).
Proof.
  intros (o & Hsave & Htok)%pending_tokens_save. unfold strtoul_strtok.
  destruct (strtok_spec None st o Hsave) as [Hframe Hnext]. rewrite Htok in Hnext.
  destruct (strtok None delimiters st) as [nptr st1]. cbn [fst snd] in *.
  destruct Hnext as (tok & -> & Ht & Hp). exists st1.
  split; [done|]. split; [done|]. cbn. by rewrite Ht.
Qed.

(** The same with no token left: [strtok] returns the null pointer and
    [strtoul] reads through it. *)
Lemma strtoul_strtok_null (st : State) :
  pending_tokens st = [] -> strtoul_strtok st = Undefined "null pointer read".
Proof.
  intros Hp. unfold strtoul_strtok.
  destruct (strtok_save st) as [o|] eqn:Hsave.
  - destruct (strtok_spec None st o Hsave) as [_ Hnext].
    unfold pending_tokens in Hp. rewrite Hsave in Hp. rewrite Hp in Hnext.
    destruct (strtok None delimiters st) as [nptr st1]. cbn [fst snd] in *.
    by destruct Hnext as [-> _].
  - by rewrite (strtok_exhausted st Hsave).
Qed.

Lemma byte_stream_all (ts : list (list ascii)) (bs : list Z) :
  Forall2 (fun t b => byte_of t = Some b) ts bs -> byte_stream ts = bs.
Proof.
  induction 1 as [|t b ts bs Hb _ IH]; [done|]. cbn. by rewrite Hb, IH.
Qed.

(** [i2cGet]: the write without stop, then the read, in one trace. *)
Lemma i2cGet_trace (cnt : Z) (st : State) :
  exists st1,
    i2cGet cnt st = i2cRead cnt st1 /\
    trace st1 =
      trace st ++
      i2cWrite_events false (i2cSlaveAddress st) (byte_stream (pending_tokens st)) /\
    i2cSlaveAddress st1 = i2cSlaveAddress st /\
    world st1 = world st.
Proof.
  unfold i2cGet.
  destruct (i2cWrite_effect false st) as (st2 & (b2 & s2 & _ & ->) & _ & ->).
  eexists. split; [reflexivity|]. by destruct st.
Qed.

(** C4. The Get sub-command ([G] or [g]) with a count token [t] and
    trailing tokens [ts] that are the bytes [bs] ([bs] may be empty): the
    engine first writes [bs] without stop, exactly as the write without stop
    does (one transmission ended with send-stop false, or the remark that
    there is nothing to write), and then reads [cnt] bytes from
    [i2cSlaveAddress], where [cnt] is the count read from [t]: the events of
    the write come first in the trace, those of the read after them, and the
    read is the whole read: the announcement, the request for [cnt] bytes,
    and, when at least [cnt] bytes arrive in answer, [cnt] bytes read from
    the bus and printed hex-formatted, in the order received. *)
Theorem i2cTrans_Get (st : State) (o : nat) (x : ascii) (t : list ascii)
    (ts : list (list ascii)) (bs : list Z) :
  commandBuf st !! o = Some x ->
  x = "G"%char \/ x = "g"%char ->
  pending_tokens st = t :: ts ->
  Forall2 (fun t b => byte_of t = Some b) ts bs ->
  let cnt := to_int (strtoul t).1 in
  let written :=
    trace st ++ i2cWrite_events false (i2cSlaveAddress st) bs in
  let requested :=
    written ++
    [ Serial_print "Reading "; Serial_print (dec cnt);
      Serial_print " bytes from "; Serial_println (dec (i2cSlaveAddress st));
      Wire_requestFrom (i2cSlaveAddress st) cnt ] in
  let received := map to_char (Wire_reply (world st) requested) in
  exists st1,
    i2cTrans (Some o) st = Ok (i2cRead cnt st1) /\
    trace st1 = written /\
    i2cSlaveAddress st1 = i2cSlaveAddress st /\
    world st1 = world st /\
    trace (i2cRead cnt st1) =
      requested ++ [Wire_available] ++
      (if cnt <=? Z.of_nat (length received)
       then flat_map read_and_print_hex (take (Z.to_nat cnt) received)
       else []) ++
      [Serial_println EmptyString].
Proof.
  intros Hx HG Hpend Hbytes cnt written requested received.
  unfold i2cTrans, deref. rewrite Hx.
  destruct (strtoul_strtok_token st t ts Hpend)
    as (st0 & (b0 & s0 & _ & Hst0) & Hp0 & Hrun).
  fold cnt in Hrun.
  destruct (i2cGet_trace cnt st0) as (st1 & Hget & Htr & Haddr & Hw).
  rewrite Hp0, (byte_stream_all ts bs Hbytes) in Htr.
  assert (Haddr0 : i2cSlaveAddress st0 = i2cSlaveAddress st)
    by (subst st0; by destruct st).
  assert (Htr0 : trace st0 = trace st) by (subst st0; by destruct st).
  assert (Hw0 : world st0 = world st) by (subst st0; by destruct st).
  rewrite Haddr0 in Haddr, Htr. rewrite Htr0 in Htr. rewrite Hw0 in Hw.
  fold written in Htr.
  assert (Hav : i2cRead_available cnt st1 = received).
  { unfold i2cRead_available, i2cRead_announcement, i2cRead_request.
    subst received requested. by rewrite Hw, Htr, Haddr. }
  pose proof (i2cRead_trace_hex cnt st1) as Hread.
  unfold i2cRead_announcement, i2cRead_request in Hread.
  rewrite Hav, Htr, Haddr in Hread.
  exists st1. split.
  { destruct HG as [->| ->]; cbv beta iota delta [mbind Result_bind];
      rewrite Hrun; cbv beta iota; fold cnt; by rewrite Hget. }
  split; [exact Htr|]. split; [exact Haddr|]. split; [exact Hw|].
  rewrite Hread. subst requested. by rewrite <- !app_assoc.
Qed.

(** The Get of the specification's example, [g 3 0x10 0x20], with the slave
    at the default address 0x41 delivering [0xA0], [0xA1] and [0xA2]: the
    two bytes go out in one transmission without stop, then three bytes are
    requested, read and printed. *)
Lemma i2cTrans_Get_witness :
  commandBuf (at_i2cTrans "i g 3 0x10 0x20" (after_setup slave_world)) !! 2%nat
    = Some "g"%char /\
  pending_tokens (at_i2cTrans "i g 3 0x10 0x20" (after_setup slave_world))
    = [chars "3"; chars "0x10"; chars "0x20"] /\
  Forall2 (fun t b => byte_of t = Some b) [chars "0x10"; chars "0x20"] [16; 32] /\
  exists st1,
    i2cTrans (Some 2%nat) (at_i2cTrans "i g 3 0x10 0x20" (after_setup slave_world))
      = Ok (i2cRead 3 st1) /\
    trace st1 =
      [ Wire_beginTransmission 65; Wire_write 16; Wire_write 32;
        Wire_endTransmission false; Serial_print "Wrote "; Serial_print "2";
        Serial_println " bytes" ] /\
    i2cSlaveAddress st1 = 65 /\
    world st1 = slave_world /\
    trace (i2cRead 3 st1) =
      [ Wire_beginTransmission 65; Wire_write 16; Wire_write 32;
        Wire_endTransmission false; Serial_print "Wrote "; Serial_print "2";
        Serial_println " bytes";
        Serial_print "Reading "; Serial_print "3"; Serial_print " bytes from ";
        Serial_println "65"; Wire_requestFrom 65 3; Wire_available;
        Wire_read; Serial_print "0xA0 "; Wire_read; Serial_print "0xA1 ";
        Wire_read; Serial_print "0xA2 "; Serial_println EmptyString ].
Proof.
  assert (H1 : commandBuf (at_i2cTrans "i g 3 0x10 0x20" (after_setup slave_world))
                 !! 2%nat = Some "g"%char) by reflexivity.
  assert (H2 : pending_tokens (at_i2cTrans "i g 3 0x10 0x20" (after_setup slave_world))
               = [chars "3"; chars "0x10"; chars "0x20"]) by reflexivity.
  assert (H3 : Forall2 (fun t b => byte_of t = Some b)
                 [chars "0x10"; chars "0x20"] [16; 32])
    by (repeat constructor).
  split; [exact H1|]. split; [exact H2|]. split; [exact H3|].
  exact (i2cTrans_Get _ 2%nat "g"%char (chars "3") _ _ H1 (or_intror eq_refl) H2 H3).
Defined.

(** The same Get from the console, with a slave that answers: after the
    write the three bytes received are printed in order. *)
Example loop_Get_example :
  after trace
    (loop (chars "i g 3 0x10 0x20" ++ [CR])
       (set_changed false (after_setup slave_world))) =
  Some
    [ Wire_beginTransmission 65; Wire_write 16; Wire_write 32;
      Wire_endTransmission false; Serial_print "Wrote "; Serial_print "2";
      Serial_println " bytes";
      Serial_print "Reading "; Serial_print "3"; Serial_print " bytes from ";
      Serial_println "65"; Wire_requestFrom 65 3; Wire_available;
      Wire_read; Serial_print "0xA0 "; Wire_read; Serial_print "0xA1 ";
      Wire_read; Serial_print "0xA2 "; Serial_println EmptyString; delay 100 ].
Proof. vm_compute. reflexivity. Qed.

(** C2, as the code has it. The Address sub-command ([A] or [a]) followed by
    a token sets [i2cSlaveAddress] to the low byte of the value [strtoul]
    reads from the token, and reports it: the value of the token when it is
    an unsigned byte, and 0 when the token has no number to read. *)
Theorem i2cTrans_Addr (st : State) (o : nat) (x : ascii) (t : list ascii)
    (ts : list (list ascii)) :
  commandBuf st !! o = Some x ->
  x = "A"%char \/ x = "a"%char ->
  pending_tokens st = t :: ts ->
  exists st1,
    i2cTrans (Some o) st = Ok st1 /\
    i2cSlaveAddress st1 = to_char (strtoul t).1 /\
    trace st1 =
      trace st ++
      [ Serial_print "I2C Slave Address set to:  ";
        Serial_println (dec (to_char (strtoul t).1)) ] /\
    (forall b, byte_of t = Some b -> i2cSlaveAddress st1 = b) /\
    ((strtoul t).2 = O -> i2cSlaveAddress st1 = 0).
Proof.
  intros Hx HA Hpend. unfold i2cTrans, deref. rewrite Hx.
  destruct (strtoul_strtok_token st t ts Hpend)
    as (st0 & (b0 & s0 & _ & Hst0) & Hp0 & Hrun).
  exists (i2cAddr (to_char (strtoul t).1) st0). split.
  { destruct HA as [->| ->]; cbv beta iota delta [mbind Result_bind];
      by rewrite Hrun. }
  split; [done|].
  split; [subst st0; destruct st; cbn; by rewrite <- app_assoc|]. split.
  - intros b Hb. cbn. pose proof (byte_of_range t b Hb) as Hrange.
    unfold byte_of in Hb. destruct (strtoul t) as [ul len]. cbn.
    destruct (decide (len = O)); [done|].
    destruct (ul <? 256); [|done]. simplify_eq. by apply to_char_byte.
  - intros Hnone. cbn. by rewrite strtoul_no_conversion.
Qed.

(** The Address sub-command with the token [0x50]. *)
Lemma i2cTrans_Addr_witness :
  commandBuf (at_i2cTrans "i a 0x50" (after_setup silent_world)) !! 2%nat
    = Some "a"%char /\
  pending_tokens (at_i2cTrans "i a 0x50" (after_setup silent_world))
    = [chars "0x50"] /\
  exists st1,
    i2cTrans (Some 2%nat) (at_i2cTrans "i a 0x50" (after_setup silent_world))
      = Ok st1 /\
    i2cSlaveAddress st1 = 80 /\
    trace st1 =
      [Serial_print "I2C Slave Address set to:  "; Serial_println "80"] /\
    (forall b, byte_of (chars "0x50") = Some b -> i2cSlaveAddress st1 = b) /\
    ((strtoul (chars "0x50")).2 = O -> i2cSlaveAddress st1 = 0).
Proof.
  assert (H1 : commandBuf (at_i2cTrans "i a 0x50" (after_setup silent_world))
                 !! 2%nat = Some "a"%char) by reflexivity.
  assert (H2 : pending_tokens (at_i2cTrans "i a 0x50" (after_setup silent_world))
               = [chars "0x50"]) by reflexivity.
  split; [exact H1|]. split; [exact H2|].
  exact (i2cTrans_Addr _ 2%nat "a"%char (chars "0x50") [] H1 (or_intror eq_refl) H2).
Defined.

(** C2 as stated fails for a token that is not a number: after [a zz] the
    address, 0x41 before, is 0 and the console says so; it is neither kept
    nor is the failure silent. *)
Lemma i2cTrans_Addr_unparsable :
  commandBuf (at_i2cTrans "i a zz" (after_setup silent_world)) !! 2%nat
    = Some "a"%char /\
  pending_tokens (at_i2cTrans "i a zz" (after_setup silent_world))
    = [chars "zz"] /\
  byte_of (chars "zz") = None /\
  i2cSlaveAddress (at_i2cTrans "i a zz" (after_setup silent_world)) = 65 /\
  after i2cSlaveAddress
    (i2cTrans (Some 2%nat) (at_i2cTrans "i a zz" (after_setup silent_world)))
    = Some 0 /\
  after trace
    (i2cTrans (Some 2%nat) (at_i2cTrans "i a zz" (after_setup silent_world)))
    = Some [Serial_print "I2C Slave Address set to:  "; Serial_println "0"].
Proof. repeat split; vm_compute; reflexivity. Qed.

(** ** The dispatcher and null pointers *)

(** A line without any token, such as a single space: [strtok] returns the
    null pointer and [runCommand] reads [commandName[0]] through it. *)
Lemma runCommand_no_token (st : State) :
  tokens (cstr (commandBuf st)) = [] ->
  runCommand st = Undefined "null pointer read".
Proof.
  intros Hnone. unfold runCommand.
  destruct (strtok_spec (Some O) st O eq_refl) as [_ Hnext].
  unfold cstr_at in Hnext. rewrite drop_0, Hnone in Hnext.
  destruct (strtok (Some O) delimiters st) as [commandName st1].
  cbn [fst snd] in Hnext. by destruct Hnext as [-> _].
Qed.

(** C3 fails on the code. Lines the console can receive make [runCommand]
    read through a null pointer, which is undefined behaviour and not a
    recovered condition: a line of delimiters only (no command token); [i]
    without a sub-command; [i a], [i r] and [i g] without their argument
    ([strtoul] is handed the null pointer); [p] and [l] without their
    argument.  [nextByte] (lines 277-279) tests the result of [strtok]
    against [NULL]; these paths do not. *)
Theorem loop_null_pointer_reads (w : World) :
  loop (chars " " ++ [CR]) (after_setup w) = Undefined "null pointer read" /\
  loop (chars "i" ++ [CR]) (after_setup w) = Undefined "null pointer read" /\
  loop (chars "i a" ++ [CR]) (after_setup w) = Undefined "null pointer read" /\
  loop (chars "i r" ++ [CR]) (after_setup w) = Undefined "null pointer read" /\
  loop (chars "i g" ++ [CR]) (after_setup w) = Undefined "null pointer read" /\
  loop (chars "p" ++ [CR]) (after_setup w) = Undefined "null pointer read" /\
  loop (chars "l" ++ [CR]) (after_setup w) = Undefined "null pointer read".
Proof. repeat split; vm_compute; reflexivity. Qed.

(** ** The line buffer *)

(** The [switch] of [loop] by cases on the character. *)
Lemma loop_switch_cases (run : State -> Result State) (x : ascii) (st : State) :
  loop_switch run x st =
    if decide (terminator x) then
      let st := commandBuf_store (charCnt st) NUL (set_c x st) in
      if 0 <? charCnt st then st' ← run st; Ok (set_charCnt 0 st') else Ok st
    else if decide (x = BS) then
      if 0 <? charCnt st then
        let st := set_charCnt (charCnt st - 1) (set_c x st) in
        let st := commandBuf_store (charCnt st) NUL st in
        Ok (emit (Serial_shl 8) (emit (Serial_shl 32) (emit (Serial_shl 8) st)))
      else Ok (set_c x st)
    else
      let st := set_c x st in
      let st :=
        if charCnt st <? COMMAND_BUFFER_LENGTH then
          set_charCnt (charCnt st + 1) (commandBuf_store (charCnt st) x st)
        else st in
      Ok (commandBuf_store (charCnt st) NUL st).
Proof. by destruct x as [[] [] [] [] [] [] [] []]. Qed.

Lemma loop_while_app (run : State -> Result State) (a b : list ascii) (st : State) :
  loop_while run (a ++ b) st = (st' ← loop_while run a st; loop_while run b st').
Proof.
  revert st. induction a as [|x a IH]; intros st; [done|]. cbn.
  destruct (loop_switch run x st) as [st1|w]; cbn; [apply IH|done].
Qed.

Lemma printed_lines_app (a b : list Event) :
  printed_lines (a ++ b) = printed_lines a ++ printed_lines b.
Proof. apply omap_app. Qed.

Lemma removelast_take {A : Type} (l : list A) :
  removelast l = take (length l - 1) l.
Proof.
  rewrite removelast_firstn_len. f_equal. lia.
Qed.

Lemma take_prefix {A : Type} (n m : nat) (l t : list A) :
  take m l = t -> (n <= m)%nat -> take n t = take n l.
Proof. intros <- Hn. rewrite take_take. f_equal. lia. Qed.

Lemma edit_step_length (text : list ascii) (x : ascii) :
  (length (edit_step text x) <= S (length text))%nat.
Proof.
  unfold edit_step. destruct (decide (x = BS)).
  - rewrite removelast_take, length_take. lia.
  - rewrite length_app. cbn. lia.
Qed.

(** One character that is not a terminator, with room in the buffer: the
    line buffer takes it as [edit_step] says, whatever the dispatcher, and
    prints no line. *)
Lemma loop_switch_typing (run : State -> Result State) (x : ascii)
    (st : State) (text : list ascii) :
  holds st text -> ~ terminator x -> (length text < 127)%nat ->
  exists st',
    loop_switch run x st = Ok st' /\
    holds st' (edit_step text x) /\
    printed_lines (trace st') = printed_lines (trace st).
Proof.
  intros (Hcnt & Htext & Hlen) Hx Hroom. rewrite loop_switch_cases.
  rewrite decide_False by done. unfold edit_step.
  destruct (decide (x = BS)) as [->|Hbs].
  - destruct (Z.ltb_spec 0 (charCnt st)) as [Hpos|Hzero].
    + eexists. split; [reflexivity|]. unstate.
      split; [|rewrite !printed_lines_app; cbn; by rewrite !app_nil_r].
      rewrite removelast_take.
      assert (Hn : length (take (length text - 1) text) = (length text - 1)%nat)
        by (rewrite length_take; lia).
      unfold holds. unstate. rewrite Hn, length_insert.
      split; [lia|]. split; [|done].
      rewrite take_insert_ge by lia.
      symmetry. apply (take_prefix _ (length text)); [done|lia].
    + eexists. split; [reflexivity|]. split; [|done].
      assert (text = []) as -> by (destruct text; [done|cbn in Hcnt; lia]).
      done.
  - unfold COMMAND_BUFFER_LENGTH. unstate.
    rewrite (proj2 (Z.ltb_lt (charCnt st) 127)) by lia.
    eexists. split; [reflexivity|]. split; [|done].
    unfold holds. unstate. rewrite !length_insert, length_app. cbn [length].
    split; [lia|]. split; [|done].
    rewrite take_insert_ge by lia. rewrite Hcnt, Nat2Z.id.
    replace (length text + 1)%nat with (S (length text)) by lia.
    rewrite (take_S_r _ _ x) by (apply list_lookup_insert_eq; lia).
    by rewrite take_insert_ge, Htext by lia.
Qed.

Lemma edit_length (typed text : list ascii) :
  (length (foldl edit_step text typed) <= length text + length typed)%nat.
Proof.
  revert text. induction typed as [|x typed IH]; intros text; cbn; [lia|].
  pose proof (IH (edit_step text x)). pose proof (edit_step_length text x). lia.
Qed.

(** Characters without a terminator, typed into a buffer with room for
    them all. *)
Lemma loop_while_typing (run : State -> Result State) (typed : list ascii)
    (st : State) (text : list ascii) :
  holds st text -> Forall (fun y => ~ terminator y) typed ->
  (length text + length typed <= 126)%nat ->
  exists st',
    loop_while run typed st = Ok st' /\
    holds st' (foldl edit_step text typed) /\
    printed_lines (trace st') = printed_lines (trace st).
Proof.
  revert st text. induction typed as [|x typed IH]; intros st text Hst Hno Hroom.
  { exists st. by cbn. }
  apply Forall_cons in Hno as [Hx Hno]. cbn [length] in Hroom.
  destruct (loop_switch_typing run x st text Hst Hx) as (st1 & Hrun & Hst1 & Hpr1);
    [lia|].
  destruct (IH st1 (edit_step text x) Hst1 Hno) as (st2 & Hrun2 & Hst2 & Hpr2).
  { pose proof (edit_step_length text x). lia. }
  exists st2. cbn. rewrite Hrun. cbn. split; [done|]. split; [done|].
  by rewrite Hpr2.
Qed.

(** The terminator: the buffer is closed with [NUL] behind the text and,
    unless the text is empty, handed to the dispatcher once; then the cursor
    is back at 0. *)
Lemma loop_switch_terminator (run : State -> Result State) (x : ascii)
    (st : State) (text : list ascii) :
  holds st text -> terminator x -> (length text <= 127)%nat ->
  exists st_line,
    holds st_line text /\
    commandBuf st_line !! length text = Some NUL /\
    trace st_line = trace st /\
    loop_switch run x st =
      if decide (text = []) then Ok st_line
      else st' ← run st_line; Ok (set_charCnt 0 st').
Proof.
  intros (Hcnt & Htext & Hlen) Hx Hroom. rewrite loop_switch_cases.
  rewrite decide_True by done. cbv zeta.
  exists (commandBuf_store (charCnt st) NUL (set_c x st)).
  unfold holds. unstate. rewrite length_insert, Hcnt, Nat2Z.id.
  split; [by rewrite take_insert_ge by lia|].
  split; [apply list_lookup_insert_eq; lia|]. split; [done|].
  destruct text as [|y text]; [done|].
  rewrite decide_False by done. cbn [length].
  by rewrite (proj2 (Z.ltb_lt 0 _)) by lia.
Qed.

(** The line buffer and any dispatcher: for characters without a
    terminator followed by a terminator, at most 127 in all, the dispatcher
    is called once, with the edited text in the buffer, unless that text is
    empty; then it is not called. *)
Lemma loop_while_line (run : State -> Result State) (typed : list ascii)
    (x : ascii) (st : State) :
  holds st [] -> Forall (fun y => ~ terminator y) typed -> terminator x ->
  (length (typed ++ [x]) <= 127)%nat ->
  exists st_line,
    holds st_line (edit typed) /\
    commandBuf st_line !! length (edit typed) = Some NUL /\
    printed_lines (trace st_line) = printed_lines (trace st) /\
    loop_while run (typed ++ [x]) st =
      if decide (edit typed = []) then Ok st_line
      else st' ← run st_line; Ok (set_charCnt 0 st').
Proof.
  intros Hst Hno Hx Hlen. rewrite length_app in Hlen. cbn in Hlen.
  destruct (loop_while_typing run typed st [] Hst Hno) as (st1 & Hrun & Hst1 & Hpr);
    [cbn; lia|].
  fold (edit typed) in Hst1.
  pose proof (edit_length typed []) as Hedit. fold (edit typed) in Hedit.
  cbn in Hedit.
  destruct (loop_switch_terminator run x st1 (edit typed) Hst1 Hx)
    as (st_line & Hline & Hnul & Htr & Hsw); [lia|].
  exists st_line. split; [done|]. split; [done|].
  split; [by rewrite Htr|].
  rewrite loop_while_app, Hrun. cbn [mbind Result_bind loop_while].
  rewrite Hsw. by destruct (decide (edit typed = [])), (run st_line).
Qed.

Lemma holds_line (st : State) (text : list ascii) : holds st text -> line st = text.
Proof. intros (Hcnt & Htext & _). unfold line. by rewrite Hcnt, Nat2Z.id. Qed.

Lemma cstr_app_NUL (t r : list ascii) : NUL ∉ t -> cstr (t ++ NUL :: r) = t.
Proof.
  induction t as [|y t IH]; cbn; intros Hno.
  - by rewrite decide_True.
  - apply not_elem_of_cons in Hno as [Hy Hno].
    rewrite decide_False by congruence. by rewrite IH.
Qed.

Lemma holds_cstr (st : State) (text : list ascii) :
  holds st text -> commandBuf st !! length text = Some NUL -> NUL ∉ text ->
  cstr (commandBuf st) = text.
Proof.
  intros (_ & Htext & _) Hnul Hno.
  rewrite <- (take_drop (length text) (commandBuf st)), Htext.
  apply drop_S in Hnul. rewrite Hnul. by apply cstr_app_NUL.
Qed.

(** C7, as the code has it. For characters without a terminator followed by
    one terminator, at most 127 characters in all, fed into an empty line
    buffer: when the text left after applying the backspaces is not empty,
    exactly one completed line is yielded, and it is that text; when it is
    empty, no line is yielded.  The dispatcher, whichever it is, is called
    on a buffer that holds the text before the cursor and [NUL] behind it,
    so that the buffer read as a C string is the text when the text has no
    [NUL] in it. *)
Theorem line_buffer_yields (typed : list ascii) (x : ascii) (st : State) :
  charCnt st = 0 -> length (commandBuf st) = 128%nat ->
  Forall (fun y => ~ terminator y) typed -> terminator x ->
  (length (typed ++ [x]) <= 127)%nat ->
  completed_lines (typed ++ [x]) st =
    Some (if decide (edit typed = []) then []
          else [String.string_of_list_ascii (edit typed)]) /\
  forall run : State -> Result State,
    exists st_line,
      line st_line = edit typed /\
      commandBuf st_line !! length (edit typed) = Some NUL /\
      (NUL ∉ edit typed -> cstr (commandBuf st_line) = edit typed) /\
      loop_while run (typed ++ [x]) st =
        if decide (edit typed = []) then Ok st_line
        else st' ← run st_line; Ok (set_charCnt 0 st').
Proof.
  intros Hcnt Hlen Hno Hx Hroom.
  assert (Hst : forall tr, holds (set_trace tr st) []).
  { intros tr. unfold holds. unstate. by rewrite take_0. }
  split.
  - unfold completed_lines.
    destruct (loop_while_line print_line typed x (set_trace [] st) (Hst [])
                Hno Hx Hroom) as (st_line & Hline & _ & Hpr & ->).
    destruct (decide (edit typed = [])); [cbn; by rewrite Hpr|].
    unfold print_line. cbn. rewrite printed_lines_app, Hpr.
    by rewrite (holds_line _ _ Hline).
  - intros run.
    destruct (loop_while_line run typed x st) as (st_line & Hline & Hnul & _ & ->);
      [|done..|].
    { specialize (Hst (trace st)). by destruct st. }
    exists st_line. split; [by apply holds_line|]. split; [done|].
    split; [by apply holds_cstr|done].
Qed.

(** A line typed with a slip and a backspace: [hx], backspace, [i], return. *)
Lemma line_buffer_yields_witness :
  charCnt (after_setup silent_world) = 0 /\
  length (commandBuf (after_setup silent_world)) = 128%nat /\
  Forall (fun y => ~ terminator y) ["h"; "x"; BS; "i"]%char /\
  terminator CR /\
  (length (["h"; "x"; BS; "i"]%char ++ [CR]) <= 127)%nat /\
  completed_lines (["h"; "x"; BS; "i"]%char ++ [CR]) (after_setup silent_world)
    = Some ["hi"%string] /\
  forall run : State -> Result State,
    exists st_line,
      line st_line = ["h"; "i"]%char /\
      commandBuf st_line !! 2%nat = Some NUL /\
      (NUL ∉ ["h"; "i"]%char -> cstr (commandBuf st_line) = ["h"; "i"]%char) /\
      loop_while run (["h"; "x"; BS; "i"]%char ++ [CR]) (after_setup silent_world) =
        (st' ← run st_line; Ok (set_charCnt 0 st')).
Proof.
  assert (H1 : charCnt (after_setup silent_world) = 0) by reflexivity.
  assert (H2 : length (commandBuf (after_setup silent_world)) = 128%nat)
    by reflexivity.
  assert (H3 : Forall (fun y => ~ terminator y) ["h"; "x"; BS; "i"]%char)
    by (repeat constructor; intros [H|H]; discriminate H).
  assert (H4 : terminator CR) by (left; reflexivity).
  assert (H5 : (length (["h"; "x"; BS; "i"]%char ++ [CR]) <= 127)%nat)
    by (cbn; lia).
  split; [exact H1|]. split; [exact H2|]. split; [exact H3|].
  split; [exact H4|]. split; [exact H5|].
  exact (line_buffer_yields ["h"; "x"; BS; "i"]%char CR
           (after_setup silent_world) H1 H2 H3 H4 H5).
Defined.

(** C7 as stated fails for a terminator that arrives on an empty buffer: the
    input is one character long and contains a terminator, and no line is
    yielded. *)
Lemma line_buffer_empty_line :
  (length [CR] <= 127)%nat /\ terminator CR /\
  completed_lines [CR] (after_setup silent_world) = Some [] /\
  completed_lines [CR] (after_setup silent_world) <> Some [EmptyString].
Proof.
  split; [cbn; lia|]. split; [by left|]. split; [reflexivity|].
  vm_compute. discriminate.
Qed.

(** ** The dirty flag *)

(** Nothing in the console writes [changed]: every function called from
    [runCommand] leaves it as it was. *)

Lemma changed_foldl {A : Type} (f : State -> A -> State) (l : list A) (st : State) :
  (forall st a, changed (f st a) = changed st) ->
  changed (foldl f st l) = changed st.
Proof.
  intros Hf. revert st. induction l as [|a l IH]; intros st; [done|].
  cbn. by rewrite IH, Hf.
Qed.

Lemma changed_frame (st st' : State) : strtok_frame st st' -> changed st' = changed st.
Proof. intros (buf & sv & _ & ->). by destruct st. Qed.

Lemma changed_strtok (p : ptr) (st : State) :
  changed (strtok p delimiters st).2 = changed st.
Proof. unfold strtok. by repeat case_match. Qed.

Lemma changed_nextByte (st : State) : changed (nextByte st).2 = changed st.
Proof. apply changed_frame, nextByte_spec. Qed.

Lemma changed_printBufHEX msg buf cnt st :
  changed (printBufHEX msg buf cnt st) = changed st.
Proof.
  unfold printBufHEX. unstate.
  by rewrite (changed_foldl (fun st b => Serial_print_ (sprintf_02X b) st)).
Qed.

Lemma changed_xoDetails (st : State) : changed (xoDetails st) = changed st.
Proof.
  unfold xoDetails, machXO_read. cbv beta iota zeta.
  by repeat (rewrite changed_printBufHEX; unstate).
Qed.

Lemma changed_xoStatus (st : State) : changed (xoStatus st) = changed st.
Proof.
  unfold xoStatus, machXO_read. cbv beta iota zeta.
  by repeat (rewrite changed_printBufHEX; unstate).
Qed.

Lemma changed_i2cRead_for (n : nat) (st : State) :
  changed (i2cRead_for n st) = changed st.
Proof.
  revert st. induction n as [|n IH]; intros st; [done|].
  cbn [i2cRead_for]. unfold Wire_read_.
  destruct (Wire_rx st); by rewrite IH.
Qed.

Lemma changed_i2cRead (cnt : Z) (st : State) : changed (i2cRead cnt st) = changed st.
Proof.
  unfold i2cRead, Wire_requestFrom_, Wire_available_. cbv zeta.
  destruct (cnt <=? _); cbn; [by rewrite changed_i2cRead_for|done].
Qed.

Lemma changed_i2cWrite (sendStop : bool) (st : State) :
  changed (i2cWrite sendStop st) = changed st.
Proof.
  destruct (i2cWrite_effect sendStop st) as (st2 & Hframe & _ & ->).
  cbn. by apply changed_frame.
Qed.

Lemma changed_i2cGet (cnt : Z) (st : State) : changed (i2cGet cnt st) = changed st.
Proof. unfold i2cGet. by rewrite changed_i2cRead, changed_i2cWrite. Qed.

Lemma changed_rd1124_for (n i : nat) (buf : list Z) (st : State) :
  changed (rd1124_for n i buf st).2 = changed st.
Proof.
  revert i buf st. induction n as [|n IH]; intros i buf st; [done|].
  cbn [rd1124_for]. unfold Wire_read_.
  destruct (Wire_rx st); by rewrite IH.
Qed.

Lemma changed_emit (e : Event) (st : State) : changed (emit e st) = changed st.
Proof. reflexivity. Qed.

Lemma changed_Serial_println_ (t : string) (st : State) :
  changed (Serial_println_ t st) = changed st.
Proof. reflexivity. Qed.

Lemma changed_set_Wire_rx (rx : list Z) (st : State) :
  changed (set_Wire_rx rx st) = changed st.
Proof. reflexivity. Qed.

Lemma changed_Wire_writes (bs : list Z) (st : State) :
  changed (foldl (fun st b => emit (Wire_write b) st) st bs) = changed st.
Proof. by apply changed_foldl. Qed.

Lemma changed_rd1124MemTst (st : State) : changed (rd1124MemTst st) = changed st.
Proof.
  unfold rd1124MemTst, Wire_requestFrom_, Wire_available_. cbv zeta.
  match goal with |- context [nextByte ?s] =>
    pose proof (changed_nextByte s) as Hn; destruct (nextByte s) as [nb st1]
  end.
  cbn [fst snd] in Hn.
  match goal with |- context [rd1124_for 8 0 ?b ?s] =>
    pose proof (changed_rd1124_for 8 0 b s) as Hf;
    destruct (rd1124_for 8 0 b s) as [buf st2]
  end.
  cbn [fst snd] in Hf.
  destruct (8 <=? _); cbv beta iota; rewrite changed_printBufHEX;
    [rewrite Hf|]; destruct (0 <? nb);
    rewrite changed_emit, changed_set_Wire_rx, !changed_emit, Hn,
      !changed_emit, changed_Serial_println_, changed_emit,
      changed_Wire_writes, !changed_emit, changed_Wire_writes;
    apply changed_emit.
Qed.

Lemma printDir_entries (st : State) (entries : list DirEntry) :
  exists evs,
    trace (foldl printDir_entry st entries) = trace st ++ evs /\
    refreshes evs = O /\
    changed (foldl printDir_entry st entries) = changed st.
Proof.
  revert st. induction entries as [|e entries IH]; intros st.
  { exists []. by rewrite app_nil_r. }
  cbn [foldl]. destruct (IH (printDir_entry st e)) as (evs & -> & Hevs & ->).
  unfold printDir_entry. destruct (de_isDir e); cbn; rewrite <- !app_assoc;
    eexists; (split; [reflexivity|]); (split; [|done]);
    unfold refreshes in *; cbn; exact Hevs.
Qed.

(** [printDir] opens the root directory once, first of all. *)
Lemma printDir_once (st : State) :
  exists evs,
    trace (printDir st) = trace st ++ root_open :: evs /\
    refreshes evs = O /\
    changed (printDir st) = changed st.
Proof.
  unfold printDir. cbv zeta.
  destruct (root_dir _ _) as [entries|].
  - destruct (printDir_entries
                (Serial_println_ "Flash contents:" (emit root_open st)) entries)
      as (evs & Htr & Hevs & Hch).
    exists ([Serial_println "Flash contents:"] ++ evs ++
            [file_openNext; root_close; Serial_println EmptyString]).
    unstate. rewrite Htr, Hch. unstate. rewrite <- !app_assoc.
    split; [reflexivity|]. split; [|done].
    unfold refreshes in *. rewrite !omap_app, !length_app, Hevs. done.
  - exists [Serial_println "open root failed"]. unstate.
    rewrite <- !app_assoc. by split.
Qed.

Lemma changed_printDir (st : State) : changed (printDir st) = changed st.
Proof. by destruct (printDir_once st) as (_ & _ & _ & ->). Qed.

Lemma changed_printHelp (st : State) : changed (printHelp st) = changed st.
Proof.
  unfold printHelp.
  by rewrite (changed_foldl (fun st line => Serial_println_ line st)).
Qed.

Lemma changed_i2cHelp (st : State) : changed (i2cHelp st) = changed st.
Proof. reflexivity. Qed.

Lemma changed_i2cAddr (addr : Z) (st : State) : changed (i2cAddr addr st) = changed st.
Proof. reflexivity. Qed.

Lemma changed_xoProgPin (p : ptr) (st st' : State) :
  xoProgPin p st = Ok st' -> changed st' = changed st.
Proof.
  unfold xoProgPin. destruct p as [o|]; [|done]. cbn [deref mbind Result_bind].
  repeat case_match; by intros [= <-].
Qed.

Lemma changed_xoLoadHEX (p : ptr) (st st' : State) :
  xoLoadHEX p st = Ok st' -> changed st' = changed st.
Proof.
  unfold xoLoadHEX. destruct p as [o|]; [|done].
  cbn [string_at mbind Result_bind]. cbv zeta.
  destruct (negb _); by intros [= <-].
Qed.

Lemma changed_strtoul_strtok (st : State) (ul : Z) (st' : State) :
  strtoul_strtok st = Ok (ul, st') -> changed st' = changed st.
Proof.
  unfold strtoul_strtok. pose proof (changed_strtok None st) as H.
  destruct (strtok None delimiters st) as [[o|] st1]; [|done].
  cbn. by intros [= _ <-].
Qed.

Lemma changed_i2cTrans (p : ptr) (st st' : State) :
  i2cTrans p st = Ok st' -> changed st' = changed st.
Proof.
  unfold i2cTrans. destruct p as [o|]; [|done].
  cbn [deref string_at mbind Result_bind].
  destruct (strtoul_strtok st) as [[ul st1]|w] eqn:Harg.
  - apply changed_strtoul_strtok in Harg.
    repeat case_match; intros [= <-];
      rewrite ?changed_i2cAddr, ?changed_i2cGet, ?changed_i2cRead,
        ?changed_i2cWrite; done.
  - repeat case_match; try done; intros [= <-];
      rewrite ?changed_i2cWrite; done.
Qed.

Lemma changed_runCommand (st st' : State) :
  runCommand st = Ok st' -> changed st' = changed st.
Proof.
  unfold runCommand. pose proof (changed_strtok (Some O) st) as H.
  destruct (strtok (Some O) delimiters st) as [[o|] st1]; [|done].
  cbn [fst snd] in H. rewrite <- H. clear H.
  cbn [deref string_at mbind Result_bind].
  repeat case_match;
    first
      [ match goal with
        | Htok : strtok None delimiters ?a = (_, _) |- _ =>
            let Hc := fresh in
            pose proof (changed_strtok None a) as Hc; rewrite Htok in Hc;
            cbn [fst snd] in Hc; rewrite <- Hc;
            first [ apply changed_xoLoadHEX | apply changed_xoProgPin
                  | apply changed_i2cTrans ]
        end
      | intros [= <-];
        rewrite ?changed_printHelp, ?changed_xoDetails, ?changed_xoStatus,
          ?changed_rd1124MemTst, ?changed_printDir; reflexivity ].
Qed.

Lemma changed_loop_switch (x : ascii) (st st' : State) :
  loop_switch runCommand x st = Ok st' -> changed st' = changed st.
Proof.
  rewrite loop_switch_cases. cbv zeta.
  destruct (decide (terminator x)).
  - destruct (0 <? _); [|by intros [= <-]].
    destruct (runCommand _) as [st1|w] eqn:Hrun; [|done].
    apply changed_runCommand in Hrun. cbn. by intros [= <-].
  - destruct (decide (x = BS)).
    + destruct (0 <? _); by intros [= <-].
    + destruct (_ <? _); by intros [= <-].
Qed.

(** The console never touches the dirty flag. *)
Lemma changed_loop_while (input : list ascii) (st st' : State) :
  loop_while runCommand input st = Ok st' -> changed st' = changed st.
Proof.
  revert st. induction input as [|x input IH]; intros st; [by intros [= <-]|].
  cbn. destruct (loop_switch runCommand x st) as [st1|w] eqn:Hsw; [|done].
  cbn. intros Hrun. rewrite (IH _ Hrun). by apply (changed_loop_switch x).
Qed.

Lemma msc_flush_cb_sets (st : State) : changed (msc_flush_cb st) = true.
Proof. reflexivity. Qed.

(** C9. After [k] calls of the flush callback, [k] at least 1, the next
    turn of [loop], once it has read its input, refreshes the directory
    exactly once for the flag (one [printDir], which opens the root
    directory once) and clears the flag; the turn after that, with no
    further flush, does not refresh again. *)
Theorem flushes_collapse (k : nat) (input : list ascii) (st st1 : State) :
  (1 <= k)%nat ->
  loop_while runCommand input (Nat.iter k msc_flush_cb st) = Ok st1 ->
  exists evs,
    loop input (Nat.iter k msc_flush_cb st) =
      Ok (emit (delay 100) (printDir (set_changed false st1))) /\
    trace (emit (delay 100) (printDir (set_changed false st1))) =
      trace st1 ++ root_open :: evs ++ [delay 100] /\
    refreshes (root_open :: evs ++ [delay 100]) = 1%nat /\
    changed (emit (delay 100) (printDir (set_changed false st1))) = false /\
    loop [] (emit (delay 100) (printDir (set_changed false st1))) =
      Ok (emit (delay 100)
            (emit (delay 100) (printDir (set_changed false st1)))).
Proof.
  intros Hk Hrun.
  assert (Hflag : changed st1 = true).
  { rewrite (changed_loop_while _ _ _ Hrun).
    destruct k as [|k]; [lia|]. apply msc_flush_cb_sets. }
  destruct (printDir_once (set_changed false st1)) as (evs & Htr & Hevs & Hch).
  exists evs. unfold loop. rewrite Hrun. cbn [mbind Result_bind].
  unfold loop_refresh. rewrite Hflag. cbv zeta.
  split; [done|].
  rewrite changed_emit, Hch.
  split; [unstate; rewrite Htr; unstate; by rewrite <- app_assoc|].
  split; [unfold refreshes in *; cbn; rewrite omap_app, length_app, Hevs; done|].
  split; [done|].
  cbn [loop_while mbind Result_bind]. by rewrite changed_emit, Hch.
Qed.

(** Three flushes, then a turn of [loop] without input, in a world without
    a file system: one attempt to list the directory. *)
Lemma flushes_collapse_witness :
  (1 <= 3)%nat /\
  loop_while runCommand [] (Nat.iter 3 msc_flush_cb (after_setup silent_world))
    = Ok (Nat.iter 3 msc_flush_cb (after_setup silent_world)) /\
  exists evs,
    loop [] (Nat.iter 3 msc_flush_cb (after_setup silent_world)) =
      Ok (emit (delay 100)
            (printDir
               (set_changed false
                  (Nat.iter 3 msc_flush_cb (after_setup silent_world))))) /\
    trace (emit (delay 100)
             (printDir
                (set_changed false
                   (Nat.iter 3 msc_flush_cb (after_setup silent_world))))) =
      trace (Nat.iter 3 msc_flush_cb (after_setup silent_world)) ++
      root_open :: evs ++ [delay 100] /\
    refreshes (root_open :: evs ++ [delay 100]) = 1%nat /\
    changed (emit (delay 100)
               (printDir
                  (set_changed false
                     (Nat.iter 3 msc_flush_cb (after_setup silent_world)))))
      = false /\
    loop [] (emit (delay 100)
               (printDir
                  (set_changed false
                     (Nat.iter 3 msc_flush_cb (after_setup silent_world))))) =
      Ok (emit (delay 100)
            (emit (delay 100)
               (printDir
                  (set_changed false
                     (Nat.iter 3 msc_flush_cb (after_setup silent_world)))))).
Proof.
  assert (H1 : (1 <= 3)%nat) by lia.
  assert (H2 : loop_while runCommand []
                 (Nat.iter 3 msc_flush_cb (after_setup silent_world))
               = Ok (Nat.iter 3 msc_flush_cb (after_setup silent_world)))
    by reflexivity.
  split; [exact H1|]. split; [exact H2|].
  exact (flushes_collapse 3 [] (after_setup silent_world) _ H1 H2).
Defined.

(** * Further properties of the sketch *)

(** ** What the commands leave alone *)

Lemma kept_refl (a : bool) (st : State) : kept a st st.
Proof. by repeat split. Qed.

Lemma kept_trans (a : bool) (st1 st2 st3 : State) :
  kept a st1 st2 -> kept a st2 st3 -> kept a st1 st3.
Proof.
  intros (H1 & H2 & H3 & H4 & H5) (K1 & K2 & K3 & K4 & K5).
  repeat split; [congruence..|]. intros Ha. rewrite (K5 Ha). by apply H5.
Qed.

Lemma kept_weaken (a : bool) (st st' : State) : kept true st st' -> kept a st st'.
Proof. intros (H1 & H2 & H3 & H4 & H5). repeat split; try done. intros _. by apply H5. Qed.

Lemma kept_emit (a : bool) (e : Event) (st : State) : kept a st (emit e st).
Proof. by repeat split. Qed.

Lemma kept_Serial_print_ (a : bool) (t : string) (st : State) :
  kept a st (Serial_print_ t st).
Proof. by repeat split. Qed.

Lemma kept_Serial_println_ (a : bool) (t : string) (st : State) :
  kept a st (Serial_println_ t st).
Proof. by repeat split. Qed.

Lemma kept_set_Wire_rx (a : bool) (rx : list Z) (st : State) :
  kept a st (set_Wire_rx rx st).
Proof. by repeat split. Qed.

Lemma kept_set_trace (a : bool) (tr : list Event) (st : State) :
  kept a st (set_trace tr st).
Proof. by repeat split. Qed.

Lemma kept_frame (a : bool) (st st' : State) : strtok_frame st st' -> kept a st st'.
Proof. intros (buf & sv & Hlen & ->). by repeat split. Qed.

Lemma kept_foldl {A : Type} (a : bool) (f : State -> A -> State) (l : list A)
    (st : State) :
  (forall s x, kept a s (f s x)) -> kept a st (foldl f st l).
Proof.
  intros Hf. revert st. induction l as [|x l IH]; intros st; [apply kept_refl|].
  cbn. eapply kept_trans; [apply Hf|apply IH].
Qed.

Lemma strtok_is_frame (p : ptr) (st : State) :
  strtok_frame st (strtok p delimiters st).2.
Proof.
  unfold strtok.
  destruct (match p with Some o' => Some o' | None => strtok_save st end) as [o|].
  - repeat case_match; cbn [snd].
    + exists (commandBuf st), None. split; [done|]. by destruct st.
    + exists (commandBuf st), None. split; [done|]. by destruct st.
    + eexists _, _. split; [|reflexivity]. apply length_insert.
  - apply strtok_frame_refl.
Qed.

Lemma kept_strtok (a : bool) (p : ptr) (st : State) :
  kept a st (strtok p delimiters st).2.
Proof. apply kept_frame, strtok_is_frame. Qed.

Lemma kept_nextByte (a : bool) (st : State) : kept a st (nextByte st).2.
Proof. apply kept_frame, nextByte_spec. Qed.

(** Peels the calls off a state, outermost first. *)
Ltac kept_step :=
  lazymatch goal with
  | |- kept _ ?s ?s => apply kept_refl
  | |- kept _ _ (emit ?e ?s) =>
      apply (kept_trans _ _ s); [|apply kept_emit]
  | |- kept _ _ (Serial_print_ ?t ?s) =>
      apply (kept_trans _ _ s); [|apply kept_Serial_print_]
  | |- kept _ _ (Serial_println_ ?t ?s) =>
      apply (kept_trans _ _ s); [|apply kept_Serial_println_]
  | |- kept _ _ (set_Wire_rx ?r ?s) =>
      apply (kept_trans _ _ s); [|apply kept_set_Wire_rx]
  | |- kept _ _ (set_trace ?r ?s) =>
      apply (kept_trans _ _ s); [|apply kept_set_trace]
  end.

Lemma kept_printBufHEX (a : bool) msg buf cnt st :
  kept a st (printBufHEX msg buf cnt st).
Proof.
  unfold printBufHEX. cbv zeta. kept_step.
  eapply kept_trans;
    [|apply (kept_foldl a (fun st b => Serial_print_ (sprintf_02X b) st));
      intros; apply kept_Serial_print_].
  repeat kept_step.
Qed.

Lemma kept_xoDetails (a : bool) (st : State) : kept a st (xoDetails st).
Proof.
  unfold xoDetails, machXO_read. cbv beta iota zeta.
  repeat (eapply kept_trans; [|apply kept_printBufHEX]; kept_step).
  apply kept_refl.
Qed.

Lemma kept_xoStatus (a : bool) (st : State) : kept a st (xoStatus st).
Proof.
  unfold xoStatus, machXO_read. cbv beta iota zeta.
  eapply kept_trans; [|apply kept_printBufHEX]. repeat kept_step.
Qed.

Lemma kept_xoConfig (a : bool) (st : State) : kept a st (xoConfig st).
Proof. by repeat split. Qed.

Lemma kept_xoRefresh (a : bool) (st : State) : kept a st (xoRefresh st).
Proof. by repeat split. Qed.

Lemma kept_xoErase (a : bool) (st : State) : kept a st (xoErase st).
Proof. by repeat split. Qed.

Lemma kept_i2cHelp (a : bool) (st : State) : kept a st (i2cHelp st).
Proof. by repeat split. Qed.

Lemma kept_i2cAddr (addr : Z) (st : State) : kept false st (i2cAddr addr st).
Proof. by repeat split. Qed.

Lemma kept_i2cRead_for (a : bool) (n : nat) (st : State) :
  kept a st (i2cRead_for n st).
Proof.
  revert st. induction n as [|n IH]; intros st; [apply kept_refl|].
  cbn [i2cRead_for]. unfold Wire_read_.
  destruct (Wire_rx st); (eapply kept_trans; [|apply IH]); repeat kept_step.
Qed.

Lemma kept_i2cRead (a : bool) (cnt : Z) (st : State) : kept a st (i2cRead cnt st).
Proof.
  unfold i2cRead, Wire_requestFrom_, Wire_available_. cbv beta iota zeta.
  kept_step. destruct (cnt <=? _).
  - eapply kept_trans; [|apply kept_i2cRead_for]. repeat kept_step.
  - repeat kept_step.
Qed.

Lemma kept_i2cWrite (a : bool) (sendStop : bool) (st : State) :
  kept a st (i2cWrite sendStop st).
Proof.
  destruct (i2cWrite_effect sendStop st) as (st2 & Hframe & _ & ->).
  eapply kept_trans; [by apply kept_frame|apply kept_set_trace].
Qed.

Lemma kept_i2cGet (a : bool) (cnt : Z) (st : State) : kept a st (i2cGet cnt st).
Proof.
  unfold i2cGet. cbv zeta.
  eapply kept_trans; [apply kept_i2cWrite|apply kept_i2cRead].
Qed.

Lemma kept_rd1124_for (a : bool) (n i : nat) (buf : list Z) (st : State) :
  kept a st (rd1124_for n i buf st).2.
Proof.
  revert i buf st. induction n as [|n IH]; intros i buf st; [apply kept_refl|].
  cbn [rd1124_for]. unfold Wire_read_.
  destruct (Wire_rx st); (eapply kept_trans; [|apply IH]); repeat kept_step.
Qed.

Lemma kept_Wire_writes (a : bool) (bs : list Z) (st : State) :
  kept a st (foldl (fun st b => emit (Wire_write b) st) st bs).
Proof. apply kept_foldl. intros. apply kept_emit. Qed.

Lemma kept_rd1124MemTst (a : bool) (st : State) : kept a st (rd1124MemTst st).
Proof.
  unfold rd1124MemTst, Wire_requestFrom_, Wire_available_. cbv zeta.
  match goal with |- context [nextByte ?s] =>
    pose proof (kept_nextByte a s) as Hn; destruct (nextByte s) as [nb st1]
  end.
  cbn [fst snd] in Hn.
  match goal with |- context [rd1124_for 8 0 ?b ?s] =>
    pose proof (kept_rd1124_for a 8 0 b s) as Hf;
    destruct (rd1124_for 8 0 b s) as [buf st2]
  end.
  cbn [fst snd] in Hf.
  assert (Hst1 : kept a st st1).
  { eapply kept_trans; [|exact Hn]. repeat kept_step.
    eapply kept_trans; [|apply kept_Wire_writes]. repeat kept_step.
    eapply kept_trans; [|apply kept_Wire_writes]. repeat kept_step. }
  destruct (8 <=? _); cbv beta iota;
    (eapply kept_trans; [|apply kept_printBufHEX]);
    [eapply kept_trans; [|exact Hf]|];
    destruct (0 <? nb); repeat kept_step; exact Hst1.
Qed.

Lemma kept_printDir_entry (a : bool) (st : State) (e : DirEntry) :
  kept a st (printDir_entry st e).
Proof. unfold printDir_entry. destruct (de_isDir e); by repeat split. Qed.

Lemma kept_printDir (a : bool) (st : State) : kept a st (printDir st).
Proof.
  unfold printDir. cbv zeta. destruct (root_dir _ _) as [entries|].
  - do 3 kept_step.
    eapply kept_trans; [|apply kept_foldl, kept_printDir_entry].
    repeat kept_step.
  - repeat kept_step.
Qed.

Lemma kept_printHelp (a : bool) (st : State) : kept a st (printHelp st).
Proof. unfold printHelp. apply kept_foldl. intros. apply kept_Serial_println_. Qed.

Lemma kept_xoProgPin (a : bool) (p : ptr) (st st' : State) :
  xoProgPin p st = Ok st' -> kept a st st'.
Proof.
  unfold xoProgPin. destruct p as [o|]; [|done]. cbn [deref mbind Result_bind].
  repeat case_match; intros [= <-]; by repeat split.
Qed.

Lemma kept_xoLoadHEX (a : bool) (p : ptr) (st st' : State) :
  xoLoadHEX p st = Ok st' -> kept a st st'.
Proof.
  unfold xoLoadHEX. destruct p as [o|]; [|done].
  cbn [string_at mbind Result_bind]. cbv zeta.
  destruct (negb _); intros [= <-]; by repeat split.
Qed.

Lemma kept_strtoul_strtok (a : bool) (st : State) (ul : Z) (st' : State) :
  strtoul_strtok st = Ok (ul, st') -> kept a st st'.
Proof.
  unfold strtoul_strtok. pose proof (kept_strtok a None st) as H.
  destruct (strtok None delimiters st) as [[o|] st1]; [|done].
  cbn. by intros [= _ <-].
Qed.

(** ** Tokens and the pointers [strtok] returns *)

Lemma tokens_head_nonempty (s t : list ascii) (ts : list (list ascii)) :
  tokens s = t :: ts -> t <> [].
Proof.
  unfold tokens. intros H.
  assert (Hin : t ∈ filter (fun t => t <> []) (fields s))
    by (rewrite H; apply list_elem_of_here).
  by apply list_elem_of_filter in Hin as [Hne _].
Qed.

Lemma cstr_at_head (buf : list ascii) (o : nat) (x : ascii) (t : list ascii) :
  cstr_at buf o = x :: t -> buf !! o = Some x.
Proof.
  unfold cstr_at.
  assert (H0 : drop o buf !! O = buf !! o)
    by (rewrite lookup_drop; f_equal; lia).
  rewrite <- H0. destruct (drop o buf) as [|y l]; [done|]. cbn.
  destruct (decide (y = NUL)); [done|]. by intros [= -> _].
Qed.

(** [strtok] with a token to deliver: the pointer it returns is at the
    first character of the token. *)
Lemma strtok_token (p : ptr) (st : State) (o : nat) (t : list ascii)
    (ts : list (list ascii)) :
  match p with Some o' => Some o' | None => strtok_save st end = Some o ->
  tokens (cstr_at (commandBuf st) o) = t :: ts ->
  exists tok st1 x t',
    strtok p delimiters st = (Some tok, st1) /\
    strtok_frame st st1 /\
    t = x :: t' /\
    cstr_at (commandBuf st1) tok = t /\
    commandBuf st1 !! tok = Some x /\
    pending_tokens st1 = ts.
Proof.
  intros Hp Htok. destruct (strtok_spec p st o Hp) as [Hframe Hnext].
  rewrite Htok in Hnext.
  destruct (strtok p delimiters st) as [r st1]. cbn [fst snd] in *.
  destruct Hnext as (tok & -> & Ht & Hpend).
  pose proof (tokens_head_nonempty _ _ _ Htok) as Hne.
  destruct t as [|x t']; [done|].
  exists tok, st1, x, t'. repeat split; try done.
  by apply (cstr_at_head _ _ _ t').
Qed.

Lemma strtok_next_token (st : State) (t : list ascii) (ts : list (list ascii)) :
  pending_tokens st = t :: ts ->
  exists tok st1 x t',
    strtok None delimiters st = (Some tok, st1) /\
    strtok_frame st st1 /\
    t = x :: t' /\
    cstr_at (commandBuf st1) tok = t /\
    commandBuf st1 !! tok = Some x /\
    pending_tokens st1 = ts.
Proof.
  intros (o & Hsave & Htok)%pending_tokens_save.
  by apply (strtok_token None st o).
Qed.

Lemma strtok_no_token (st : State) :
  pending_tokens st = [] ->
  exists st1,
    strtok None delimiters st = (None, st1) /\ strtok_frame st st1 /\
    pending_tokens st1 = [].
Proof.
  intros Hp. destruct (strtok_save st) as [o|] eqn:Hsave.
  - destruct (strtok_spec None st o Hsave) as [Hframe Hnext].
    unfold pending_tokens in Hp. rewrite Hsave in Hp. rewrite Hp in Hnext.
    destruct (strtok None delimiters st) as [r st1]. cbn [fst snd] in *.
    destruct Hnext as [-> Hp1]. by exists st1.
  - rewrite (strtok_exhausted st Hsave). exists st.
    split; [done|]. split; [apply strtok_frame_refl|].
    unfold pending_tokens. by rewrite Hsave.
Qed.

(** The first call of [strtok] in [runCommand]. *)
Lemma strtok_command (st : State) (t : list ascii) (ts : list (list ascii)) :
  tokens (cstr (commandBuf st)) = t :: ts ->
  exists tok st1 x t',
    strtok (Some O) delimiters st = (Some tok, st1) /\
    strtok_frame st st1 /\
    t = x :: t' /\
    cstr_at (commandBuf st1) tok = t /\
    commandBuf st1 !! tok = Some x /\
    pending_tokens st1 = ts.
Proof.
  intros Htok. apply (strtok_token (Some O) st O); [done|].
  unfold cstr_at. by rewrite drop_0.
Qed.

(** ** What the dispatcher leaves alone *)

Lemma kept_i2cTrans (a : bool) (o : nat) (st st' : State) :
  (a = true -> elem (default NUL (commandBuf st !! o)) (chars "Aa") = false) ->
  i2cTrans (Some o) st = Ok st' -> kept a st st'.
Proof.
  unfold i2cTrans, deref, string_at.
  set (x := default NUL (commandBuf st !! o)). clearbody x. intros Ha.
  assert (Hs : forall ul st1, strtoul_strtok st = Ok (ul, st1) -> kept a st st1)
    by (intros; by eapply kept_strtoul_strtok).
  destruct (strtoul_strtok st) as [[ul st1]|w];
    [specialize (Hs ul st1 eq_refl)|clear Hs];
    destruct x as [[] [] [] [] [] [] [] []];
    cbv beta iota delta [mbind Result_bind]; intros H;
    try discriminate H; injection H as <-;
    lazymatch goal with
    | |- kept _ _ (i2cWrite _ _) => apply kept_i2cWrite
    | |- kept _ _ (i2cGet _ _) =>
        eapply kept_trans; [exact Hs|apply kept_i2cGet]
    | |- kept _ _ (i2cRead _ _) =>
        eapply kept_trans; [exact Hs|apply kept_i2cRead]
    | |- kept _ _ (i2cAddr _ _) =>
        eapply kept_trans; [exact Hs|];
        destruct a;
        [ specialize (Ha eq_refl); vm_compute in Ha; discriminate Ha
        | apply kept_i2cAddr ]
    | |- kept _ _ (i2cHelp _) =>
        eapply kept_trans; [|apply kept_i2cHelp]; repeat kept_step
    end.
Qed.

(** Whatever the command, its handler leaves the dirty flag, the cursor, the
    size of the line buffer and the world as they were. *)
Lemma kept_runCommand (st st' : State) : runCommand st = Ok st' -> kept false st st'.
Proof.
  unfold runCommand. pose proof (kept_strtok false (Some O) st) as H.
  destruct (strtok (Some O) delimiters st) as [[o|] st1]; [|done].
  cbn [fst snd] in H. cbn [deref string_at mbind Result_bind].
  set (x := default NUL (commandBuf st1 !! o)). clearbody x.
  intros Hrun. eapply kept_trans; [exact H|]. revert Hrun. clear H.
  pose proof (kept_strtok false None st1) as Hk.
  destruct (strtok None delimiters st1) as [p s]. cbn [fst snd] in Hk.
  destruct x as [[] [] [] [] [] [] [] []]; cbv beta iota; intros Hrun;
    lazymatch type of Hrun with
    | xoLoadHEX _ _ = _ =>
        eapply kept_trans; [exact Hk|]; by eapply kept_xoLoadHEX
    | xoProgPin _ _ = _ =>
        eapply kept_trans; [exact Hk|]; by eapply kept_xoProgPin
    | i2cTrans _ _ = _ =>
        eapply kept_trans; [exact Hk|];
        destruct p as [o'|]; [|discriminate Hrun];
        by eapply (kept_i2cTrans false o')
    | _ =>
        injection Hrun as <-;
        lazymatch goal with
        | |- kept _ _ (printHelp _) =>
            eapply kept_trans; [|apply kept_printHelp]; repeat kept_step
        | |- kept _ _ (xoDetails _) => apply kept_xoDetails
        | |- kept _ _ (xoStatus _) => apply kept_xoStatus
        | |- kept _ _ (xoConfig _) => apply kept_xoConfig
        | |- kept _ _ (xoErase _) => apply kept_xoErase
        | |- kept _ _ (xoRefresh _) => apply kept_xoRefresh
        | |- kept _ _ (rd1124MemTst _) => apply kept_rd1124MemTst
        | |- kept _ _ (printDir _) => apply kept_printDir
        end
    end.
Qed.

(** ** The dispatchers by cases *)

(** The [switch] of [runCommand] by cases on the first character of the
    command. *)
Lemma runCommand_cases (st : State) :
  runCommand st =
    let '(commandName, st1) := strtok (Some O) delimiters st in
    c0 ← deref commandName st1;
    if negb (elem c0 command_letters) then
      str ← string_at commandName (Serial_print_ "Unknown command:  " st1);
      Ok (printHelp
            (Serial_println_ (String.string_of_list_ascii str)
               (Serial_print_ "Unknown command:  " st1)))
    else if elem c0 (chars "Hh?") then Ok (printHelp st1)
    else if elem c0 (chars "Xx") then Ok (xoDetails st1)
    else if elem c0 (chars "Ss") then Ok (xoStatus st1)
    else if elem c0 (chars "Cc") then Ok (xoConfig st1)
    else if elem c0 (chars "Ee") then Ok (xoErase st1)
    else if elem c0 (chars "Rr") then Ok (xoRefresh st1)
    else if elem c0 (chars "Ll") then
      let '(filename, st2) := strtok None delimiters st1 in
      xoLoadHEX filename st2
    else if elem c0 (chars "Pp") then
      let '(prog, st2) := strtok None delimiters st1 in
      xoProgPin prog st2
    else if elem c0 (chars "Mm") then Ok (rd1124MemTst st1)
    else if elem c0 (chars "Ii") then
      let '(i2cCmd, st2) := strtok None delimiters st1 in
      i2cTrans i2cCmd st2
    else Ok (printDir st1).
Proof.
  unfold runCommand.
  destruct (strtok (Some O) delimiters st) as [[o|] st1]; [|done].
  cbn [deref mbind Result_bind].
  generalize (default NUL (commandBuf st1 !! o)). intros x.
  by destruct x as [[] [] [] [] [] [] [] []].
Qed.

(** The [switch] of [i2cTrans] by cases on the first character of the
    sub-command. *)
Lemma i2cTrans_cases (i2cCmd : ptr) (st : State) :
  i2cTrans i2cCmd st =
    c0 ← deref i2cCmd st;
    if negb (elem c0 i2c_letters) then
      str ← string_at i2cCmd (Serial_print_ "Unknown command:  " st);
      Ok (i2cHelp
            (Serial_println_ (String.string_of_list_ascii str)
               (Serial_print_ "Unknown command:  " st)))
    else if elem c0 (chars "Aa") then
      '(ul, st1) ← strtoul_strtok st; Ok (i2cAddr (to_char ul) st1)
    else if elem c0 (chars "Gg") then
      '(ul, st1) ← strtoul_strtok st; Ok (i2cGet (to_int ul) st1)
    else if elem c0 (chars "Rr") then
      '(ul, st1) ← strtoul_strtok st; Ok (i2cRead (to_int ul) st1)
    else if elem c0 (chars "Ww") then Ok (i2cWrite true st)
    else Ok (i2cWrite false st).
Proof.
  unfold i2cTrans. destruct i2cCmd as [o|]; [|done].
  cbn [deref mbind Result_bind].
  generalize (default NUL (commandBuf st !! o)). intros x.
  by destruct x as [[] [] [] [] [] [] [] []].
Qed.

(** ** Commands the dispatchers do not know *)

Lemma trace_frame (st st' : State) : strtok_frame st st' -> trace st' = trace st.
Proof. intros (buf & sv & _ & ->). by destruct st. Qed.

Lemma trace_printlns (lines : list string) (st : State) :
  trace (foldl (fun st line => Serial_println_ line st) st lines) =
    trace st ++ map Serial_println lines.
Proof.
  revert st. induction lines as [|l lines IH]; intros st.
  - cbn. by rewrite app_nil_r.
  - cbn [foldl map]. rewrite IH. cbn. by rewrite <- app_assoc.
Qed.

Lemma printHelp_trace (st : State) :
  trace (printHelp st) = trace st ++ map Serial_println help_lines.
Proof. apply trace_printlns. Qed.

Lemma i2cHelp_trace (st : State) :
  trace (i2cHelp st) = trace st ++ map Serial_println i2c_help_lines.
Proof. unfold i2cHelp. cbn. by rewrite <- !app_assoc. Qed.

Lemma elem_two (x a b : ascii) : elem x [a; b] = true -> x = a \/ x = b.
Proof.
  unfold elem. intros H%bool_decide_eq_true.
  apply elem_of_cons in H as [->|H]; [by left|].
  apply elem_of_cons in H as [->|H]; [by right|].
  by apply elem_of_nil in H.
Qed.

(** X1. A line whose first token does not begin with a command letter:
    [runCommand] prints "Unknown command:" with that token, then the help
    text, and nothing else happens; no device is touched and the dirty flag,
    the cursor and the slave address stay as they were. *)
Theorem runCommand_unknown (st : State) (t : list ascii) (ts : list (list ascii)) :
  tokens (cstr (commandBuf st)) = t :: ts ->
  elem (hd NUL t) command_letters = false ->
  exists st',
    runCommand st = Ok st' /\
    trace st' =
      trace st ++
      [ Serial_print "Unknown command:  ";
        Serial_println (String.string_of_list_ascii t) ] ++
      map Serial_println help_lines /\
    kept true st st'.
Proof.
  intros Htok Hunk.
  destruct (strtok_command st t ts Htok)
    as (tok & st1 & x & t' & Hstrtok & Hframe & -> & Hcstr & Hx & _).
  cbn [hd] in Hunk.
  rewrite runCommand_cases, Hstrtok. cbn [deref string_at mbind Result_bind].
  rewrite Hx. cbn [default from_option id]. rewrite Hunk. cbn [negb].
  eexists. split; [reflexivity|]. split.
  - rewrite printHelp_trace. cbn [commandBuf trace Serial_print_ Serial_println_
      emit set_trace]. rewrite Hcstr, (trace_frame _ _ Hframe).
    by rewrite <- !app_assoc.
  - eapply kept_trans; [by apply kept_frame|].
    eapply kept_trans; [|apply kept_printHelp]. repeat kept_step.
Qed.

(** The line [zork 1 2]. *)
Lemma runCommand_unknown_witness :
  tokens (cstr (commandBuf (with_line "zork 1 2" (after_setup silent_world))))
    = [chars "zork"; chars "1"; chars "2"] /\
  elem (hd NUL (chars "zork")) command_letters = false /\
  exists st',
    runCommand (with_line "zork 1 2" (after_setup silent_world)) = Ok st' /\
    trace st' =
      [ Serial_print "Unknown command:  "; Serial_println "zork" ] ++
      map Serial_println help_lines /\
    kept true (with_line "zork 1 2" (after_setup silent_world)) st'.
Proof.
  assert (H1 : tokens (cstr (commandBuf
                 (with_line "zork 1 2" (after_setup silent_world))))
               = [chars "zork"; chars "1"; chars "2"]) by reflexivity.
  assert (H2 : elem (hd NUL (chars "zork")) command_letters = false)
    by reflexivity.
  split; [exact H1|]. split; [exact H2|].
  exact (runCommand_unknown _ _ _ H1 H2).
Defined.

(** ** The commands with an argument *)

(** A line with a command letter and a first argument: the two calls of
    [strtok] deliver them. *)
Lemma strtok_command_arg (st : State) (t1 t2 : list ascii) (ts : list (list ascii)) :
  tokens (cstr (commandBuf st)) = t1 :: t2 :: ts ->
  exists o1 st1 x1 o2 st2 x2 t2',
    strtok (Some O) delimiters st = (Some o1, st1) /\
    commandBuf st1 !! o1 = Some x1 /\ hd NUL t1 = x1 /\
    strtok None delimiters st1 = (Some o2, st2) /\
    strtok_frame st st2 /\
    t2 = x2 :: t2' /\
    cstr_at (commandBuf st2) o2 = t2 /\
    commandBuf st2 !! o2 = Some x2 /\
    pending_tokens st2 = ts.
Proof.
  intros Htok.
  destruct (strtok_command st t1 (t2 :: ts) Htok)
    as (o1 & st1 & x1 & t1' & Hs1 & Hf1 & -> & _ & Hx1 & Hp1).
  destruct (strtok_next_token st1 t2 ts Hp1)
    as (o2 & st2 & x2 & t2' & Hs2 & Hf2 & -> & Hc2 & Hx2 & Hp2).
  exists o1, st1, x1, o2, st2, x2, t2'.
  repeat split; try done. by eapply strtok_frame_trans.
Qed.

(** With a command letter [x] other than the default, [runCommand] is the
    handler of that letter. *)
Lemma runCommand_with_arg (st : State) (o1 : nat) (st1 : State) (x1 : ascii) :
  strtok (Some O) delimiters st = (Some o1, st1) ->
  commandBuf st1 !! o1 = Some x1 ->
  (elem x1 (chars "Ll") = true ->
   runCommand st =
     let '(filename, st2) := strtok None delimiters st1 in xoLoadHEX filename st2) /\
  (elem x1 (chars "Pp") = true ->
   runCommand st =
     let '(prog, st2) := strtok None delimiters st1 in xoProgPin prog st2) /\
  (elem x1 (chars "Ii") = true ->
   runCommand st =
     let '(i2cCmd, st2) := strtok None delimiters st1 in i2cTrans i2cCmd st2) /\
  (elem x1 (chars "Mm") = true -> runCommand st = Ok (rd1124MemTst st1)) /\
  (elem x1 (chars "Dd") = true -> runCommand st = Ok (printDir st1)).
Proof.
  intros Hs Hx. rewrite runCommand_cases, Hs.
  cbn [deref mbind Result_bind]. rewrite Hx. cbn [default from_option id].
  repeat split; intros [-> | ->]%elem_two; reflexivity.
Qed.
(** X2. [l name]: [runCommand] opens the file named by the first argument.
    When the file does not open it prints "Failed to open" with the name and
    leaves the device alone; when it opens, the image is loaded, the file
    closed and only then [programDone] is sent. *)
Theorem runCommand_load (st : State) (t name : list ascii) (ts : list (list ascii)) :
  tokens (cstr (commandBuf st)) = t :: name :: ts ->
  elem (hd NUL t) (chars "Ll") = true ->
  exists st',
    runCommand st = Ok st' /\
    trace st' =
      trace st ++
      file_open name ::
      (if file_ok (world st) (trace st ++ [file_open name]) then
         [ Serial_print "Opened ";
           Serial_println (String.string_of_list_ascii name);
           machXO loadHex; file_close; Serial_print "Loaded ";
           Serial_println (String.string_of_list_ascii name);
           machXO programDone ]
       else
         [ Serial_print "Failed to open ";
           Serial_println (String.string_of_list_ascii name) ]).
Proof.
  intros Htok HL.
  destruct (strtok_command_arg st t name ts Htok)
    as (o1 & st1 & x1 & o2 & st2 & x2 & n' & Hs1 & Hx1 & Hhd & Hs2 & Hf &
        _ & Hc2 & _ & _).
  rewrite Hhd in HL.
  destruct (runCommand_with_arg st o1 st1 x1 Hs1 Hx1) as (Hrun & _).
  rewrite (Hrun HL), Hs2. unfold xoLoadHEX. cbn [string_at mbind Result_bind]. rewrite Hc2.
  cbv zeta.
  destruct (kept_frame true _ _ Hf) as (_ & _ & _ & Hw & _).
  pose proof (trace_frame _ _ Hf) as Htr.
  cbn [world trace emit set_trace]. rewrite Hw, Htr.
  destruct (file_ok (world st) (trace st ++ [file_open name]));
    cbn [negb]; eexists; (split; [reflexivity|]);
    cbn [trace Serial_print_ Serial_println_ emit set_trace]; rewrite Htr;
    by rewrite <- !app_assoc.
Qed.


(** [l top.hex] where the file opens. *)
Lemma runCommand_load_witness :
  tokens (cstr (commandBuf (with_line "l top.hex" (after_setup file_world))))
    = [chars "l"; chars "top.hex"] /\
  elem (hd NUL (chars "l")) (chars "Ll") = true /\
  exists st',
    runCommand (with_line "l top.hex" (after_setup file_world)) = Ok st' /\
    trace st' =
      [ file_open (chars "top.hex"); Serial_print "Opened ";
        Serial_println "top.hex"; machXO loadHex; file_close;
        Serial_print "Loaded "; Serial_println "top.hex";
        machXO programDone ].
Proof.
  assert (H1 : tokens (cstr (commandBuf
                 (with_line "l top.hex" (after_setup file_world))))
               = [chars "l"; chars "top.hex"]) by reflexivity.
  assert (H2 : elem (hd NUL (chars "l")) (chars "Ll") = true) by reflexivity.
  split; [exact H1|]. split; [exact H2|].
  exact (runCommand_load _ _ _ _ H1 H2).
Defined.

(** The same line where the file does not open. *)
Example runCommand_load_failure :
  after trace (runCommand (with_line "l top.hex" (after_setup silent_world))) =
  Some [ file_open (chars "top.hex"); Serial_print "Failed to open ";
         Serial_println "top.hex" ].
Proof. vm_compute. reflexivity. Qed.
(** The [switch] of [xoProgPin] by cases on the first character of the
    argument. *)
Lemma xoProgPin_cases (prog : ptr) (st : State) :
  xoProgPin prog st =
    p0 ← deref prog st;
    if elem p0 (chars "0Ll") then
      Ok (Serial_println_ "Program_N pin low"
            (emit (pinMode XO_PRGMN OUTPUT) (emit (digitalWrite XO_PRGMN LOW) st)))
    else
      Ok (Serial_println_ "Program_N pin high"
            (emit (pinMode XO_PRGMN INPUT_PULLUP) st)).
Proof.
  unfold xoProgPin. destruct prog as [o|]; [|done].
  cbn [deref mbind Result_bind].
  generalize (default NUL (commandBuf st !! o)). intros x.
  by destruct x as [[] [] [] [] [] [] [] []].
Qed.

(** X3. [p arg]: the PROGRAMN pin is driven low exactly when the argument
    begins with [0], [L] or [l]; any other argument, [1] and [high] as well
    as a mistyped one, releases the pin to its pull-up. *)
Theorem runCommand_progpin (st : State) (t arg : list ascii)
    (ts : list (list ascii)) :
  tokens (cstr (commandBuf st)) = t :: arg :: ts ->
  elem (hd NUL t) (chars "Pp") = true ->
  exists st',
    runCommand st = Ok st' /\
    trace st' =
      trace st ++
      (if elem (hd NUL arg) (chars "0Ll") then
         [ digitalWrite XO_PRGMN LOW; pinMode XO_PRGMN OUTPUT;
           Serial_println "Program_N pin low" ]
       else
         [ pinMode XO_PRGMN INPUT_PULLUP; Serial_println "Program_N pin high" ]).
Proof.
  intros Htok HP.
  destruct (strtok_command_arg st t arg ts Htok)
    as (o1 & st1 & x1 & o2 & st2 & x2 & a' & Hs1 & Hx1 & Hhd & Hs2 & Hf &
        -> & _ & Hx2 & _).
  rewrite Hhd in HP.
  destruct (runCommand_with_arg st o1 st1 x1 Hs1 Hx1) as (_ & Hrun & _).
  rewrite (Hrun HP), Hs2, xoProgPin_cases.
  cbn [deref mbind Result_bind hd]. rewrite Hx2. cbn [default from_option id].
  pose proof (trace_frame _ _ Hf) as Htr.
  destruct (elem x2 (chars "0Ll")); eexists; (split; [reflexivity|]);
    cbn [trace Serial_println_ emit set_trace]; rewrite Htr;
    by rewrite <- !app_assoc.
Qed.

(** [p low] and [p off]: the second is not read as low. *)
Lemma runCommand_progpin_witness :
  tokens (cstr (commandBuf (with_line "p off" (after_setup silent_world))))
    = [chars "p"; chars "off"] /\
  elem (hd NUL (chars "p")) (chars "Pp") = true /\
  exists st',
    runCommand (with_line "p off" (after_setup silent_world)) = Ok st' /\
    trace st' =
      [ pinMode XO_PRGMN INPUT_PULLUP; Serial_println "Program_N pin high" ].
Proof.
  assert (H1 : tokens (cstr (commandBuf
                 (with_line "p off" (after_setup silent_world))))
               = [chars "p"; chars "off"]) by reflexivity.
  assert (H2 : elem (hd NUL (chars "p")) (chars "Pp") = true) by reflexivity.
  split; [exact H1|]. split; [exact H2|].
  exact (runCommand_progpin _ _ _ _ H1 H2).
Defined.

(** ** The I2C sub-commands from the console *)

(** X4. [i sub ...] where [sub] does not begin with a sub-command letter:
    "Unknown command:" with [sub] and the I2C help are printed; the bus is
    not touched and the tokens behind [sub] are not read. *)
Theorem runCommand_i2c_unknown (st : State) (t sub : list ascii)
    (ts : list (list ascii)) :
  tokens (cstr (commandBuf st)) = t :: sub :: ts ->
  elem (hd NUL t) (chars "Ii") = true ->
  elem (hd NUL sub) i2c_letters = false ->
  exists st',
    runCommand st = Ok st' /\
    trace st' =
      trace st ++
      [ Serial_print "Unknown command:  ";
        Serial_println (String.string_of_list_ascii sub) ] ++
      map Serial_println i2c_help_lines /\
    pending_tokens st' = ts /\
    kept true st st'.
Proof.
  intros Htok HI Hunk.
  destruct (strtok_command_arg st t sub ts Htok)
    as (o1 & st1 & x1 & o2 & st2 & x2 & s' & Hs1 & Hx1 & Hhd & Hs2 & Hf &
        -> & Hc2 & Hx2 & Hp2).
  rewrite Hhd in HI. cbn [hd] in Hunk.
  destruct (runCommand_with_arg st o1 st1 x1 Hs1 Hx1) as (_ & _ & Hrun & _).
  rewrite (Hrun HI), Hs2, i2cTrans_cases.
  cbn [deref string_at mbind Result_bind]. rewrite Hx2.
  cbn [default from_option id]. rewrite Hunk. cbn [negb].
  eexists. split; [reflexivity|]. split; [|split].
  - rewrite i2cHelp_trace.
    cbn [commandBuf trace Serial_print_ Serial_println_ emit set_trace].
    rewrite Hc2, (trace_frame _ _ Hf). by rewrite <- !app_assoc.
  - exact Hp2.
  - eapply kept_trans; [by apply kept_frame|].
    eapply kept_trans; [|apply kept_i2cHelp]. repeat kept_step.
Qed.

Lemma runCommand_i2c_unknown_witness :
  tokens (cstr (commandBuf (with_line "i x 1 2" (after_setup silent_world))))
    = [chars "i"; chars "x"; chars "1"; chars "2"] /\
  elem (hd NUL (chars "i")) (chars "Ii") = true /\
  elem (hd NUL (chars "x")) i2c_letters = false /\
  exists st',
    runCommand (with_line "i x 1 2" (after_setup silent_world)) = Ok st' /\
    trace st' =
      [ Serial_print "Unknown command:  "; Serial_println "x" ] ++
      map Serial_println i2c_help_lines /\
    pending_tokens st' = [chars "1"; chars "2"] /\
    kept true (with_line "i x 1 2" (after_setup silent_world)) st'.
Proof.
  assert (H1 : tokens (cstr (commandBuf
                 (with_line "i x 1 2" (after_setup silent_world))))
               = [chars "i"; chars "x"; chars "1"; chars "2"]) by reflexivity.
  assert (H2 : elem (hd NUL (chars "i")) (chars "Ii") = true) by reflexivity.
  assert (H3 : elem (hd NUL (chars "x")) i2c_letters = false) by reflexivity.
  split; [exact H1|]. split; [exact H2|]. split; [exact H3|].
  exact (runCommand_i2c_unknown _ _ _ _ H1 H2 H3).
Defined.

(** ** The slave address *)

(** X5. Whatever the line, a command that returns leaves the dirty flag, the
    cursor, the size of the line buffer and the world as they were, and the
    slave address too unless the line is [i a ...]: no other command, known or
    not, changes the address. *)
Theorem runCommand_keeps (st st' : State) :
  runCommand st = Ok st' ->
  kept (negb (sets_address (tokens (cstr (commandBuf st))))) st st'.
Proof.
  intros Hrun.
  destruct (tokens (cstr (commandBuf st))) as [|t ts] eqn:Htok.
  { by rewrite (runCommand_no_token st Htok) in Hrun. }
  destruct (strtok_command st t ts Htok)
    as (o1 & st1 & x1 & t' & Hs1 & Hf1 & -> & _ & Hx1 & Hp1).
  set (a := negb (sets_address ((x1 :: t') :: ts))).
  assert (Ha : a = true -> elem x1 (chars "Ii") = true ->
               exists sub ts', ts = sub :: ts' /\
                 elem (hd NUL sub) (chars "Aa") = false \/ ts = []).
  { subst a. unfold sets_address. cbn [hd]. destruct ts as [|sub ts'].
    - intros _ _. exists [], []. by right.
    - intros Hn HI. exists sub, ts'. left. split; [done|].
      rewrite HI in Hn. cbn in Hn. by apply negb_true_iff in Hn. }
  clearbody a.
  eapply kept_trans; [by apply kept_frame|].
  rewrite runCommand_cases, Hs1 in Hrun.
  cbn [deref string_at mbind Result_bind] in Hrun. rewrite Hx1 in Hrun.
  cbn [default from_option id] in Hrun.
  pose proof (kept_strtok a None st1) as Hk.
  destruct (strtok None delimiters st1) as [p st2] eqn:Hs2. cbn [fst snd] in Hk.
  destruct (negb (elem x1 command_letters)).
  { injection Hrun as <-. eapply kept_trans; [|apply kept_printHelp].
    repeat kept_step. }
  destruct (elem x1 (chars "Hh?")).
  { injection Hrun as <-. eapply kept_trans; [|apply kept_printHelp].
    repeat kept_step. }
  destruct (elem x1 (chars "Xx")); [injection Hrun as <-; apply kept_xoDetails|].
  destruct (elem x1 (chars "Ss")); [injection Hrun as <-; apply kept_xoStatus|].
  destruct (elem x1 (chars "Cc")); [injection Hrun as <-; apply kept_xoConfig|].
  destruct (elem x1 (chars "Ee")); [injection Hrun as <-; apply kept_xoErase|].
  destruct (elem x1 (chars "Rr")); [injection Hrun as <-; apply kept_xoRefresh|].
  destruct (elem x1 (chars "Ll")).
  { eapply kept_trans; [exact Hk|]. by eapply kept_xoLoadHEX. }
  destruct (elem x1 (chars "Pp")).
  { eapply kept_trans; [exact Hk|]. by eapply kept_xoProgPin. }
  destruct (elem x1 (chars "Mm"));
    [injection Hrun as <-; apply kept_rd1124MemTst|].
  destruct (elem x1 (chars "Ii")); [|injection Hrun as <-; apply kept_printDir].
  eapply kept_trans; [exact Hk|].
  destruct p as [o2|]; [|discriminate Hrun].
  apply (kept_i2cTrans a o2); [|exact Hrun].
  intros ->. destruct (Ha eq_refl eq_refl) as (sub & ts' & [[-> Hsub]| ->]).
  - destruct (strtok_next_token st1 sub ts' Hp1)
      as (o2' & st2' & x2 & s' & Hs2' & _ & -> & _ & Hx2 & _).
    rewrite Hs2 in Hs2'. injection Hs2' as -> ->. by rewrite Hx2.
  - destruct (strtok_no_token st1 Hp1) as (st2' & Hs2' & _).
    rewrite Hs2 in Hs2'. discriminate Hs2'.
Qed.

(** The line [i w 1 2] leaves the address alone. *)
Lemma runCommand_keeps_witness :
  exists st',
    runCommand (with_line "i w 1 2" (after_setup silent_world)) = Ok st' /\
    kept true (with_line "i w 1 2" (after_setup silent_world)) st'.
Proof.
  eexists. split; [vm_compute; reflexivity|].
  apply (runCommand_keeps (with_line "i w 1 2" (after_setup silent_world))).
  vm_compute. reflexivity.
Defined.

(** ** Writing from the console *)

Lemma elem_true (x : ascii) (l : list ascii) : elem x l = true -> x ∈ l.
Proof. unfold elem. by intros H%bool_decide_eq_true. Qed.

(** With a sub-command letter [x] other than the default, [i2cTrans] is the
    handler of that letter. *)
Lemma i2cTrans_with (o : nat) (st : State) (x : ascii) :
  commandBuf st !! o = Some x ->
  (elem x (chars "Rr") = true ->
   i2cTrans (Some o) st =
     '(ul, st1) ← strtoul_strtok st; Ok (i2cRead (to_int ul) st1)) /\
  (elem x (chars "Ww") = true -> i2cTrans (Some o) st = Ok (i2cWrite true st)) /\
  (elem x (chars "Ff") = true -> i2cTrans (Some o) st = Ok (i2cWrite false st)).
Proof.
  intros Hx. rewrite i2cTrans_cases.
  cbn [deref mbind Result_bind]. rewrite Hx. cbn [default from_option id].
  repeat split; intros [-> | ->]%elem_two; reflexivity.
Qed.

(** X6. [i w b1 b2 ...] and [i f b1 b2 ...] from the console: the bytes typed
    after the sub-command, up to the first token that is not a byte, go to
    the slave in one transmission, with stop for [w] and without for [f], and
    the count printed is their number; with no byte there, nothing goes to
    the bus.  What follows the first token that is not a byte is dropped. *)
Theorem runCommand_i2c_write (st : State) (t sub : list ascii)
    (ts : list (list ascii)) :
  length (commandBuf st) = 128%nat ->
  tokens (cstr (commandBuf st)) = t :: sub :: ts ->
  elem (hd NUL t) (chars "Ii") = true ->
  elem (hd NUL sub) (chars "WwFf") = true ->
  exists st',
    runCommand st = Ok st' /\
    trace st' =
      trace st ++
      match byte_stream ts with
      | [] => [Serial_println "nothing to write"]
      | bs =>
          [Wire_beginTransmission (i2cSlaveAddress st)] ++ map Wire_write bs ++
          [ Wire_endTransmission (elem (hd NUL sub) (chars "Ww"));
            Serial_print "Wrote "; Serial_print (dec (Z.of_nat (length bs)));
            Serial_println " bytes" ]
      end /\
    pending_tokens st' = after_stream ts.
Proof.
  intros Hlen Htok HI HW.
  destruct (strtok_command_arg st t sub ts Htok)
    as (o1 & st1 & x1 & o2 & st2 & x2 & s' & Hs1 & Hx1 & Hhd & Hs2 & Hf &
        -> & _ & Hx2 & Hp2).
  rewrite Hhd in HI. cbn [hd] in HW |- *.
  destruct (runCommand_with_arg st o1 st1 x1 Hs1 Hx1) as (_ & _ & Hrun & _).
  rewrite (Hrun HI), Hs2.
  destruct (i2cTrans_with o2 st2 x2 Hx2) as (_ & Hw & Hf').
  assert (Hn : Z.of_nat (length (byte_stream ts)) < 2 ^ 31).
  { pose proof (byte_stream_length ts). pose proof (pending_tokens_length st2).
    destruct Hf as (b & s & Hb & ->). rewrite Hp2 in *.
    cbn [commandBuf set_strtok_save set_commandBuf] in *. lia. }
  assert (Hgo : i2cTrans (Some o2) st2 =
                Ok (i2cWrite (elem x2 (chars "Ww")) st2)).
  { apply elem_true in HW.
    repeat (apply elem_of_cons in HW as [->|HW]);
      [by rewrite (Hw eq_refl)|by rewrite (Hw eq_refl)|
       by rewrite (Hf' eq_refl)|by rewrite (Hf' eq_refl)|
       by apply elem_of_nil in HW]. }
  rewrite Hgo.
  destruct (i2cWrite_effect (elem x2 (chars "Ww")) st2)
    as (st3 & (b3 & s3 & _ & ->) & Hp3 & ->).
  eexists. split; [reflexivity|]. rewrite Hp2 in *. split.
  - cbn [trace set_trace]. rewrite (trace_frame _ _ Hf).
    f_equal. unfold i2cWrite_events.
    assert (Ha : i2cSlaveAddress st2 = i2cSlaveAddress st).
    { destruct Hf as (b & s & _ & ->). by destruct st. }
    rewrite Ha.
    destruct (byte_stream ts) as [|b bs] eqn:Hbs; [done|].
    by rewrite counted_small.
  - rewrite <- Hp3. by destruct st2.
Qed.

Lemma runCommand_i2c_write_witness :
  length (commandBuf (with_line "i f 0x10 7 zz 9" (after_setup silent_world)))
    = 128%nat /\
  tokens (cstr (commandBuf
            (with_line "i f 0x10 7 zz 9" (after_setup silent_world))))
    = [chars "i"; chars "f"; chars "0x10"; chars "7"; chars "zz"; chars "9"] /\
  elem (hd NUL (chars "i")) (chars "Ii") = true /\
  elem (hd NUL (chars "f")) (chars "WwFf") = true /\
  exists st',
    runCommand (with_line "i f 0x10 7 zz 9" (after_setup silent_world)) = Ok st' /\
    trace st' =
      [ Wire_beginTransmission 65; Wire_write 16; Wire_write 7;
        Wire_endTransmission false;
        Serial_print "Wrote "; Serial_print "2"; Serial_println " bytes" ] /\
    pending_tokens st' = [chars "9"].
Proof.
  assert (H0 : length (commandBuf
                 (with_line "i f 0x10 7 zz 9" (after_setup silent_world)))
               = 128%nat) by reflexivity.
  assert (H1 : tokens (cstr (commandBuf
                 (with_line "i f 0x10 7 zz 9" (after_setup silent_world))))
               = [chars "i"; chars "f"; chars "0x10"; chars "7"; chars "zz";
                  chars "9"]) by reflexivity.
  assert (H2 : elem (hd NUL (chars "i")) (chars "Ii") = true) by reflexivity.
  assert (H3 : elem (hd NUL (chars "f")) (chars "WwFf") = true) by reflexivity.
  split; [exact H0|]. split; [exact H1|]. split; [exact H2|]. split; [exact H3|].
  exact (runCommand_i2c_write _ _ _ _ H0 H1 H2 H3).
Defined.

(** X7. [i r t] where [t] holds no number: [strtoul] converts nothing and the
    count is 0; the read is announced and requested for 0 bytes, nothing is
    read from the bus and no diagnostic is printed. *)
Theorem runCommand_i2c_read_unparsable (st : State) (t sub cnt : list ascii)
    (ts : list (list ascii)) :
  tokens (cstr (commandBuf st)) = t :: sub :: cnt :: ts ->
  elem (hd NUL t) (chars "Ii") = true ->
  elem (hd NUL sub) (chars "Rr") = true ->
  (strtoul cnt).2 = O ->
  exists st',
    runCommand st = Ok st' /\
    trace st' =
      trace st ++
      [ Serial_print "Reading "; Serial_print "0"; Serial_print " bytes from ";
        Serial_println (dec (i2cSlaveAddress st));
        Wire_requestFrom (i2cSlaveAddress st) 0; Wire_available;
        Serial_println EmptyString ].
Proof.
  intros Htok HI HR Hno.
  destruct (strtok_command_arg st t sub (cnt :: ts) Htok)
    as (o1 & st1 & x1 & o2 & st2 & x2 & s' & Hs1 & Hx1 & Hhd & Hs2 & Hf &
        -> & _ & Hx2 & Hp2).
  rewrite Hhd in HI. cbn [hd] in HR.
  destruct (runCommand_with_arg st o1 st1 x1 Hs1 Hx1) as (_ & _ & Hrun & _).
  rewrite (Hrun HI), Hs2.
  destruct (i2cTrans_with o2 st2 x2 Hx2) as (Hr & _).
  rewrite (Hr HR).
  destruct (strtoul_strtok_token st2 cnt ts Hp2) as (st3 & Hf3 & _ & ->).
  cbn [mbind Result_bind]. rewrite (strtoul_no_conversion cnt Hno).
  eexists. split; [reflexivity|].
  rewrite i2cRead_trace.
  pose proof (strtok_frame_trans _ _ _ Hf Hf3) as (b & s & _ & ->).
  change (to_int 0) with 0.
  unfold i2cRead_announcement, i2cRead_request.
  assert (H0 : (0 <=? Z.of_nat (length (i2cRead_available 0
                  (set_strtok_save s (set_commandBuf b st))))) = true)
    by (apply Z.leb_le; lia).
  rewrite H0. change (Z.to_nat 0) with O. rewrite take_0.
  by destruct st.
Qed.

Lemma runCommand_i2c_read_unparsable_witness :
  tokens (cstr (commandBuf (with_line "i r many" (after_setup slave_world))))
    = [chars "i"; chars "r"; chars "many"] /\
  elem (hd NUL (chars "i")) (chars "Ii") = true /\
  elem (hd NUL (chars "r")) (chars "Rr") = true /\
  (strtoul (chars "many")).2 = O /\
  exists st',
    runCommand (with_line "i r many" (after_setup slave_world)) = Ok st' /\
    trace st' =
      [ Serial_print "Reading "; Serial_print "0"; Serial_print " bytes from ";
        Serial_println "65"; Wire_requestFrom 65 0; Wire_available;
        Serial_println EmptyString ].
Proof.
  assert (H1 : tokens (cstr (commandBuf
                 (with_line "i r many" (after_setup slave_world))))
               = [chars "i"; chars "r"; chars "many"]) by reflexivity.
  assert (H2 : elem (hd NUL (chars "i")) (chars "Ii") = true) by reflexivity.
  assert (H3 : elem (hd NUL (chars "r")) (chars "Rr") = true) by reflexivity.
  assert (H4 : (strtoul (chars "many")).2 = O) by reflexivity.
  split; [exact H1|]. split; [exact H2|]. split; [exact H3|]. split; [exact H4|].
  exact (runCommand_i2c_read_unparsable _ _ _ _ _ H1 H2 H3 H4).
Defined.

(** ** The line buffer: bounds, overlong lines, several lines *)

Lemma loop_switch_in_bounds (run : State -> Result State) (x : ascii)
    (st st' : State) :
  (forall s s', run s = Ok s' -> length (commandBuf s') = length (commandBuf s)) ->
  in_bounds st -> loop_switch run x st = Ok st' -> in_bounds st'.
Proof.
  unfold in_bounds, COMMAND_BUFFER_LENGTH. intros Hrun [Hc Hl].
  rewrite loop_switch_cases.
  destruct (decide (terminator x)); [|destruct (decide (x = BS))]; cbv zeta.
  - unstate. destruct (0 <? charCnt st).
    + destruct (run _) as [s'|] eqn:Hr; [|done]. cbn. intros [= <-].
      apply Hrun in Hr. revert Hr. unstate. rewrite length_insert.
      intros ->. split; [lia|done].
    + intros [= <-]. unstate. by rewrite length_insert.
  - destruct (Z.ltb_spec 0 (charCnt st)); intros [= <-]; unstate;
      rewrite ?length_insert; (split; [lia|done]).
  - unfold COMMAND_BUFFER_LENGTH. unstate.
    destruct (Z.ltb_spec (charCnt st) 127); intros [= <-]; unstate;
      rewrite ?length_insert; (split; [lia|done]).
Qed.

(** X8. The cursor never leaves the line buffer.  Whatever [Serial] delivers
    in a turn of [loop] (lines of any length, backspaces on an empty line,
    any command that returns), [0 <= charCnt <= 127] and the 128 characters
    of [commandBuf] hold before and after, so every [commandBuf[charCnt]]
    the loop writes is inside the array. *)
Theorem loop_in_bounds (input : list ascii) (st st' : State) :
  in_bounds st -> loop input st = Ok st' -> in_bounds st'.
Proof.
  unfold loop. intros Hst Hrun.
  destruct (loop_while runCommand input st) as [st1|] eqn:Hw; [|done].
  cbn in Hrun. injection Hrun as <-.
  assert (H1 : in_bounds st1).
  { clear -Hst Hw. revert st Hst Hw.
    induction input as [|x input IH]; intros st Hst; cbn.
    - by intros [= <-].
    - destruct (loop_switch runCommand x st) as [s|] eqn:Hs; [|done]. cbn.
      apply IH. eapply loop_switch_in_bounds; [|exact Hst|exact Hs].
      intros s0 s0' H0. by apply kept_runCommand in H0 as (_ & _ & ? & _). }
  destruct H1 as [Hc Hl]. unfold in_bounds, loop_refresh.
  destruct (changed st1); [|by destruct st1].
  destruct (kept_printDir false (set_changed false st1)) as (_ & Hc' & Hl' & _).
  assert (Hk : kept false (printDir (set_changed false st1))
                 (emit (delay 100) (printDir (set_changed false st1))))
    by apply kept_emit.
  destruct Hk as (_ & -> & -> & _). rewrite Hc', Hl'. by destruct st1.
Qed.

(** 200 characters and a terminator, then a second line. *)
Lemma loop_in_bounds_witness :
  exists st',
    loop (replicate 200 "h"%char ++ [CR] ++ chars "i w 1" ++ [CR])
      (after_setup silent_world) = Ok st' /\
    in_bounds st'.
Proof.
  eexists. split; [vm_compute; reflexivity|].
  apply (loop_in_bounds (replicate 200 "h"%char ++ [CR] ++ chars "i w 1" ++ [CR])
           (after_setup silent_world)).
  - split; [split; vm_compute; discriminate|reflexivity].
  - vm_compute. reflexivity.
Defined.

(** Plain characters typed into a line buffer that holds [text]: the buffer
    takes them until it holds 127 and drops the rest. *)
Lemma loop_while_plain (run : State -> Result State) (typed : list ascii)
    (st : State) (text : list ascii) :
  holds st text -> (length text <= 127)%nat -> Forall plain typed ->
  exists st',
    loop_while run typed st = Ok st' /\
    holds st' (take 127 (text ++ typed)) /\
    trace st' = trace st.
Proof.
  revert st text. induction typed as [|x typed IH]; intros st text Hst Hlen Hp.
  { exists st. rewrite app_nil_r, take_ge by lia. by cbn. }
  apply Forall_cons in Hp as [[Hx Hbs] Hp]. cbn [loop_while].
  destruct (decide (length text < 127)%nat) as [Hroom|Hfull].
  - assert (Hsw : exists st1, loop_switch run x st = Ok st1 /\
                    holds st1 (text ++ [x]) /\ trace st1 = trace st).
    { destruct Hst as (Hcnt & Htext & Hl). rewrite loop_switch_cases.
      rewrite decide_False by done. rewrite decide_False by done.
      unfold COMMAND_BUFFER_LENGTH. unstate.
      rewrite (proj2 (Z.ltb_lt (charCnt st) 127)) by lia.
      eexists. split; [reflexivity|]. split; [|done].
      unfold holds. unstate. rewrite !length_insert, length_app. cbn [length].
      split; [lia|]. split; [|done].
      rewrite take_insert_ge by lia. rewrite Hcnt, Nat2Z.id.
      replace (length text + 1)%nat with (S (length text)) by lia.
      rewrite (take_S_r _ _ x) by (apply list_lookup_insert_eq; lia).
      by rewrite take_insert_ge, Htext by lia. }
    destruct Hsw as (st1 & -> & Hst1 & Htr1). cbn [mbind Result_bind].
    destruct (IH st1 (text ++ [x]) Hst1) as (st2 & Hrun & Hst2 & Htr2);
      [rewrite length_app; cbn; lia|done|].
    exists st2. split; [done|]. rewrite <- app_assoc in Hst2. cbn in Hst2.
    split; [done|]. by rewrite Htr2.
  - assert (Hsw : exists st1, loop_switch run x st = Ok st1 /\
                    holds st1 text /\ trace st1 = trace st).
    { destruct Hst as (Hcnt & Htext & Hl). rewrite loop_switch_cases.
      rewrite decide_False by done. rewrite decide_False by done.
      unfold COMMAND_BUFFER_LENGTH. unstate.
      rewrite (proj2 (Z.ltb_ge (charCnt st) 127)) by lia.
      eexists. split; [reflexivity|]. split; [|done].
      unfold holds. unstate. rewrite !length_insert.
      split; [done|]. split; [|done]. by rewrite take_insert_ge by lia. }
    destruct Hsw as (st1 & -> & Hst1 & Htr1). cbn [mbind Result_bind].
    destruct (IH st1 text Hst1) as (st2 & Hrun & Hst2 & Htr2); [lia|done|].
    exists st2. split; [done|]. split; [|by rewrite Htr2].
    rewrite take_app_le in Hst2 by lia. by rewrite take_app_le by lia.
Qed.

(** X9. An overlong line is cut, not wrapped and not refused.  For plain
    characters (no terminator, no backspace), however many, typed on an
    empty line and followed by a terminator, the dispatcher is called once
    with the first 127 of them in the buffer and [NUL] behind; what was
    typed beyond is dropped without a message. *)
Theorem line_buffer_truncates (run : State -> Result State)
    (typed : list ascii) (x : ascii) (st : State) :
  charCnt st = 0 -> length (commandBuf st) = 128%nat ->
  Forall plain typed -> typed <> [] -> terminator x ->
  exists st_line,
    line st_line = take 127 typed /\
    commandBuf st_line !! length (take 127 typed) = Some NUL /\
    trace st_line = trace st /\
    loop_while run (typed ++ [x]) st =
      (st' ← run st_line; Ok (set_charCnt 0 st')).
Proof.
  intros Hcnt Hlen Hp Hne Hx.
  assert (Hst : holds st []).
  { unfold holds. by rewrite take_0. }
  destruct (loop_while_plain run typed st [] Hst) as (st1 & Hrun & Hst1 & Htr1);
    [cbn; lia|done|].
  cbn [app] in Hst1.
  destruct (loop_switch_terminator run x st1 (take 127 typed) Hst1 Hx)
    as (st_line & Hline & Hnul & Htr & Hsw); [rewrite length_take; lia|].
  exists st_line. split; [by apply holds_line|]. split; [done|].
  split; [by rewrite Htr|].
  rewrite loop_while_app, Hrun. cbn [mbind Result_bind loop_while].
  rewrite Hsw. rewrite decide_False by (by destruct typed).
  by destruct (run st_line).
Qed.

(** 130 letters and a return: the line handed on is 127 letters long. *)
Lemma line_buffer_truncates_witness :
  charCnt (after_setup silent_world) = 0 /\
  length (commandBuf (after_setup silent_world)) = 128%nat /\
  Forall plain (replicate 130 "z"%char) /\
  replicate 130 "z"%char <> [] /\
  terminator CR /\
  exists st_line,
    line st_line = replicate 127 "z"%char /\
    commandBuf st_line !! 127%nat = Some NUL /\
    trace st_line = [] /\
    loop_while print_line (replicate 130 "z"%char ++ [CR])
      (after_setup silent_world) =
      (st' ← print_line st_line; Ok (set_charCnt 0 st')).
Proof.
  assert (H1 : charCnt (after_setup silent_world) = 0) by reflexivity.
  assert (H2 : length (commandBuf (after_setup silent_world)) = 128%nat)
    by reflexivity.
  assert (H3 : Forall plain (replicate 130 "z"%char)).
  { apply Forall_replicate. split; [intros [H|H]; discriminate H|discriminate]. }
  assert (H4 : replicate 130 "z"%char <> []) by discriminate.
  assert (H5 : terminator CR) by (left; reflexivity).
  split; [exact H1|]. split; [exact H2|]. split; [exact H3|].
  split; [exact H4|]. split; [exact H5|].
  exact (line_buffer_truncates print_line (replicate 130 "z"%char) CR
           (after_setup silent_world) H1 H2 H3 H4 H5).
Defined.

(** ** Typing and the rest of the state *)

Lemma typing_refl (st : State) : typing st st.
Proof.
  repeat split; try done. exists []. by rewrite app_nil_r.
Qed.

Lemma typing_trans (st1 st2 st3 : State) :
  typing st1 st2 -> typing st2 st3 -> typing st1 st3.
Proof.
  intros (A1 & A2 & A3 & A4 & A5 & A6 & e1 & A7 & A8)
         (B1 & B2 & B3 & B4 & B5 & B6 & e2 & B7 & B8).
  repeat split; try congruence.
  exists (e1 ++ e2). split; [by rewrite B7, A7, app_assoc|by apply Forall_app].
Qed.

(** A character that is no terminator never reaches the dispatcher. *)
Lemma loop_switch_frame (run : State -> Result State) (x : ascii)
    (st st' : State) :
  ~ terminator x -> loop_switch run x st = Ok st' -> typing st st'.
Proof.
  intros Hx. rewrite loop_switch_cases. rewrite decide_False by done.
  destruct (decide (x = BS)).
  - destruct (0 <? charCnt st); intros [= <-].
    + unfold typing. unstate. rewrite length_insert.
      repeat split; try done.
      exists [Serial_shl 8; Serial_shl 32; Serial_shl 8].
      split; [by rewrite <- !app_assoc|]. repeat constructor; by eexists.
    + unfold typing. unstate. repeat split; try done.
      exists []. by rewrite app_nil_r.
  - cbv zeta. unstate. destruct (charCnt st <? COMMAND_BUFFER_LENGTH);
      intros [= <-]; unfold typing; unstate; rewrite ?length_insert;
      (repeat split; try done); exists []; by rewrite app_nil_r.
Qed.

Lemma loop_while_frame (run : State -> Result State) (typed : list ascii)
    (st st' : State) :
  Forall (fun y => ~ terminator y) typed ->
  loop_while run typed st = Ok st' -> typing st st'.
Proof.
  intros Hno. revert st. induction Hno as [|x typed Hx _ IH]; intros st.
  - intros [= <-]. apply typing_refl.
  - cbn [loop_while]. destruct (loop_switch run x st) as [st1|] eqn:Hs; [|done].
    cbn [mbind Result_bind]. intros Hrun.
    eapply typing_trans; [by eapply loop_switch_frame|by apply IH].
Qed.

(** The terminator, with what it leaves alone. *)
Lemma loop_switch_terminator_frame (run : State -> Result State) (x : ascii)
    (st : State) (text : list ascii) :
  holds st text -> terminator x -> (length text <= 127)%nat ->
  exists st_line,
    holds st_line text /\
    commandBuf st_line !! length text = Some NUL /\
    typing st st_line /\
    trace st_line = trace st /\
    loop_switch run x st =
      if decide (text = []) then Ok st_line
      else st' ← run st_line; Ok (set_charCnt 0 st').
Proof.
  intros (Hcnt & Htext & Hlen) Hx Hroom. rewrite loop_switch_cases.
  rewrite decide_True by done. cbv zeta.
  exists (commandBuf_store (charCnt st) NUL (set_c x st)).
  unfold holds, typing. unstate. rewrite length_insert, Hcnt, Nat2Z.id.
  split; [by rewrite take_insert_ge by lia|].
  split; [apply list_lookup_insert_eq; lia|].
  split. { repeat split; try done. exists []. by rewrite app_nil_r. }
  split; [done|].
  destruct text as [|y text]; [done|].
  rewrite decide_False by done. cbn [length].
  by rewrite (proj2 (Z.ltb_lt 0 _)) by lia.
Qed.

(** A line and its terminator, with what they leave alone. *)
Lemma loop_while_line_frame (run : State -> Result State) (typed : list ascii)
    (x : ascii) (st : State) :
  holds st [] -> Forall (fun y => ~ terminator y) typed -> terminator x ->
  (length (typed ++ [x]) <= 127)%nat ->
  exists st_line,
    holds st_line (edit typed) /\
    commandBuf st_line !! length (edit typed) = Some NUL /\
    typing st st_line /\
    loop_while run (typed ++ [x]) st =
      if decide (edit typed = []) then Ok st_line
      else st' ← run st_line; Ok (set_charCnt 0 st').
Proof.
  intros Hst Hno Hx Hlen. rewrite length_app in Hlen. cbn in Hlen.
  destruct (loop_while_typing run typed st [] Hst Hno) as (st1 & Hrun & Hst1 & _);
    [cbn; lia|].
  fold (edit typed) in Hst1.
  pose proof (edit_length typed []) as Hedit. fold (edit typed) in Hedit.
  cbn in Hedit.
  destruct (loop_switch_terminator_frame run x st1 (edit typed) Hst1 Hx)
    as (st_line & Hline & Hnul & Hty & _ & Hsw); [lia|].
  exists st_line. split; [done|]. split; [done|].
  split; [eapply typing_trans; [by eapply loop_while_frame|done]|].
  rewrite loop_while_app, Hrun. cbn [mbind Result_bind loop_while].
  rewrite Hsw. by destruct (decide (edit typed = [])), (run st_line).
Qed.

Lemma served_typing (run : State -> Result State) (texts : list (list ascii))
    (st st1 : State) (r : Result State) :
  typing st st1 -> served run texts st1 r -> served run texts st r.
Proof.
  intros Hty. destruct texts as [|text texts]; cbn [served].
  - intros (st_end & -> & Hty' & Hc). exists st_end.
    split; [done|]. split; [by eapply typing_trans|done].
  - intros (st_line & Hty' & H). exists st_line.
    split; [by eapply typing_trans|done].
Qed.

(** Lines typed one after the other and any dispatcher that leaves the size
    of the buffer. *)
Lemma loop_while_served (run : State -> Result State)
    (ls : list (list ascii * ascii)) (st : State) :
  (forall s s', run s = Ok s' -> length (commandBuf s') = length (commandBuf s)) ->
  holds st [] ->
  Forall (fun l => Forall (fun y => ~ terminator y) l.1 /\ terminator l.2 /\
                   (length l.1 <= 126)%nat) ls ->
  served run (edited_texts ls) st (loop_while run (typed_lines ls) st).
Proof.
  intros Hrun Hst Hls. revert st Hst.
  induction Hls as [|[l x] ls (Hno & Hx & Hl) _ IH]; intros st Hst.
  - cbn. exists st. split; [done|]. split; [apply typing_refl|].
    by destruct Hst as (-> & _).
  - cbn [fst snd] in *. unfold typed_lines. cbn [flat_map fst snd].
    fold (typed_lines ls). rewrite loop_while_app.
    destruct (loop_while_line_frame run l x st Hst Hno Hx)
      as (st_line & Hline & Hnul & Hty & ->); [rewrite length_app; cbn; lia|].
    unfold edited_texts. cbn [map fst]. fold (edit l).
    destruct (decide (edit l = [])) as [He|He].
    + rewrite filter_cons_False by (intros H; by apply H).
      rewrite He in Hline. cbn [mbind Result_bind].
      apply (served_typing run _ st st_line); [done|]. by apply IH.
    + rewrite filter_cons_True by done. cbn [served].
      exists st_line. split; [done|]. split; [by apply holds_line|].
      split; [done|]. split; [by apply holds_cstr|].
      destruct (run st_line) as [st'|what] eqn:Hr; cbn [mbind Result_bind];
        [|done].
      apply IH. destruct Hline as (_ & _ & Hl128).
      unfold holds. unstate. rewrite take_0.
      by rewrite (Hrun _ _ Hr).
Qed.

(** X10. Lines typed one after the other are yielded one by one.  For lines
    of fewer than 127 characters, each ended by its terminator, fed into an
    empty line buffer: the completed lines are the edited texts of the lines,
    in order, without the empty ones; the buffer is empty again after each, so
    nothing of a line leaks into the next.  A terminal that ends lines with
    carriage return and newline sends an empty line each time, which yields
    nothing.  This is so for [runCommand] and for every dispatcher that
    leaves the size of the buffer: it is called once for each of these
    texts, in order, with the text before the cursor and [NUL] behind it and
    with only typing since the call before; a call that is undefined ends the
    run there. *)
Theorem line_buffer_lines (ls : list (list ascii * ascii)) (st : State) :
  charCnt st = 0 -> length (commandBuf st) = 128%nat ->
  Forall (fun l => Forall (fun y => ~ terminator y) l.1 /\ terminator l.2 /\
                   (length l.1 <= 126)%nat) ls ->
  completed_lines (typed_lines ls) st = Some (edited_lines ls) /\
  served runCommand (edited_texts ls) st
    (loop_while runCommand (typed_lines ls) st) /\
  forall run : State -> Result State,
    (forall s s', run s = Ok s' ->
                  length (commandBuf s') = length (commandBuf s)) ->
    served run (edited_texts ls) st (loop_while run (typed_lines ls) st).
Proof.
  intros Hcnt Hlen Hls.
  assert (Hst0 : holds st []).
  { unfold holds. by rewrite take_0. }
  split; [|split].
  2: { apply loop_while_served; [|done..].
       intros s s' H. by apply kept_runCommand in H as (_ & _ & ? & _). }
  2: { intros run Hrun. by apply loop_while_served. }
  clear Hst0. unfold completed_lines.
  assert (Hst : holds (set_trace [] st) []).
  { unfold holds. unstate. by rewrite take_0. }
  assert (Hgen : forall s, holds s [] ->
            exists s', loop_while print_line (typed_lines ls) s = Ok s' /\
              printed_lines (trace s') =
                printed_lines (trace s) ++ edited_lines ls).
  { clear Hst Hcnt Hlen st.
    induction ls as [|[l x] ls IH]; intros s Hs.
    - exists s. split; [done|]. by rewrite app_nil_r.
    - apply Forall_cons in Hls as [(Hno & Hx & Hl) Hls]. cbn [fst snd] in *.
      unfold typed_lines. cbn [flat_map fst snd]. fold (typed_lines ls).
      rewrite loop_while_app.
      destruct (loop_while_line print_line l x s Hs Hno Hx)
        as (s_line & Hline & _ & Hpr & ->); [rewrite length_app; cbn; lia|].
      unfold edited_lines. cbn [map fst]. fold (edit l).
      destruct (decide (edit l = [])) as [He|He].
      + rewrite filter_cons_False by (intros H; by apply H).
        rewrite He in Hline. cbn [mbind Result_bind].
        destruct (IH Hls s_line Hline) as (s' & Hrun & Hpr').
        exists s'. split; [done|]. by rewrite Hpr', Hpr.
      + rewrite filter_cons_True by done. cbn [map].
        change (print_line s_line) with
          (Ok (Serial_println_ (String.string_of_list_ascii (line s_line)) s_line)).
        cbn [mbind Result_bind]. rewrite (holds_line _ _ Hline).
        set (s1 := set_charCnt 0 _).
        assert (Hs1 : holds s1 []).
        { destruct Hline as (_ & _ & Hl128). unfold holds. subst s1.
          unstate. by rewrite take_0. }
        destruct (IH Hls s1 Hs1) as (s' & Hrun & Hpr').
        exists s'. split; [done|]. rewrite Hpr'. subst s1. unstate.
        rewrite printed_lines_app, Hpr. cbn. by rewrite <- app_assoc. }
  destruct (Hgen _ Hst) as (s' & -> & Hpr). cbn. by rewrite Hpr.
Qed.

(** Two commands from a terminal that ends lines with carriage return and
    newline: [runCommand] is called for [h] and for [i w 1]. *)
Lemma line_buffer_lines_witness :
  charCnt (after_setup silent_world) = 0 /\
  length (commandBuf (after_setup silent_world)) = 128%nat /\
  completed_lines (chars "hx" ++ [BS; CR; LF] ++ chars "i w 1" ++ [CR; LF])
    (after_setup silent_world) = Some ["h"; "i w 1"]%string /\
  served runCommand [chars "h"; chars "i w 1"] (after_setup silent_world)
    (loop_while runCommand
       (chars "hx" ++ [BS; CR; LF] ++ chars "i w 1" ++ [CR; LF])
       (after_setup silent_world)).
Proof.
  assert (H1 : charCnt (after_setup silent_world) = 0) by reflexivity.
  assert (H2 : length (commandBuf (after_setup silent_world)) = 128%nat)
    by reflexivity.
  split; [exact H1|]. split; [exact H2|].
  destruct (line_buffer_lines
           [(chars "hx" ++ [BS], CR); ([], LF); (chars "i w 1", CR); ([], LF)]
           (after_setup silent_world) H1 H2) as (H3 & H4 & _).
  { repeat constructor; cbn; try lia; try (by left); try (by right);
      intros [H|H]; discriminate H. }
  split; [exact H3|exact H4].
Defined.

(** The lines [p] and [h]: the line buffer yields both, and [runCommand]
    is undefined at the first, so the second is never dispatched. *)
Example line_buffer_lines_undefined :
  completed_lines (chars "p" ++ [CR] ++ chars "h" ++ [CR])
    (after_setup silent_world) = Some ["p"; "h"]%string /\
  loop_while runCommand (chars "p" ++ [CR] ++ chars "h" ++ [CR])
    (after_setup silent_world) = Undefined "null pointer read".
Proof. split; vm_compute; reflexivity. Qed.

(** ** What a command reaches *)

Lemma within_refl (ps : list Part) (st : State) : within ps st st.
Proof. exists []. by rewrite app_nil_r. Qed.

Lemma within_trans (ps : list Part) (st1 st2 st3 : State) :
  within ps st1 st2 -> within ps st2 st3 -> within ps st1 st3.
Proof.
  intros (e1 & H1 & F1) (e2 & H2 & F2). exists (e1 ++ e2).
  split; [by rewrite H2, H1, app_assoc|by apply Forall_app].
Qed.

Lemma within_emit (ps : list Part) (e : Event) (st : State) :
  part e ∈ ps -> within ps st (emit e st).
Proof. intros H. exists [e]. split; [done|by constructor]. Qed.

Lemma within_Serial_print_ (ps : list Part) (t : string) (st : State) :
  console ∈ ps -> within ps st (Serial_print_ t st).
Proof. intros H. by apply within_emit. Qed.

Lemma within_Serial_println_ (ps : list Part) (t : string) (st : State) :
  console ∈ ps -> within ps st (Serial_println_ t st).
Proof. intros H. by apply within_emit. Qed.

Lemma within_set_Wire_rx (ps : list Part) (rx : list Z) (st : State) :
  within ps st (set_Wire_rx rx st).
Proof. exists []. by rewrite app_nil_r. Qed.

Lemma within_frame (ps : list Part) (st st' : State) :
  strtok_frame st st' -> within ps st st'.
Proof. intros H. exists []. by rewrite app_nil_r, (trace_frame _ _ H). Qed.

Lemma within_foldl {A : Type} (ps : list Part) (f : State -> A -> State)
    (l : list A) (st : State) :
  (forall s x, within ps s (f s x)) -> within ps st (foldl f st l).
Proof.
  intros Hf. revert st. induction l as [|x l IH]; intros st; [apply within_refl|].
  cbn. eapply within_trans; [apply Hf|apply IH].
Qed.

(** Peels the calls off a state, outermost first; a call is discharged by
    an assumption that names its part. *)
Ltac within_step :=
  lazymatch goal with
  | |- within _ ?s ?s => apply within_refl
  | |- within _ _ (emit ?e ?s) =>
      apply (within_trans _ _ s); [|apply within_emit; assumption]
  | |- within _ _ (Serial_print_ ?t ?s) =>
      apply (within_trans _ _ s); [|apply within_Serial_print_; assumption]
  | |- within _ _ (Serial_println_ ?t ?s) =>
      apply (within_trans _ _ s); [|apply within_Serial_println_; assumption]
  | |- within _ _ (set_Wire_rx ?r ?s) =>
      apply (within_trans _ _ s); [|apply within_set_Wire_rx]
  end.

Section within_parts.
Variable ps : list Part.
Hypothesis Hconsole : console ∈ ps.

Lemma within_printBufHEX msg buf cnt st :
  within ps st (printBufHEX msg buf cnt st).
Proof.
  unfold printBufHEX. cbv zeta. within_step.
  eapply within_trans;
    [|apply (within_foldl ps (fun st b => Serial_print_ (sprintf_02X b) st));
      intros; by apply within_Serial_print_].
  repeat within_step.
Qed.

Lemma within_printHelp (st : State) : within ps st (printHelp st).
Proof.
  unfold printHelp. apply within_foldl. intros.
  by apply within_Serial_println_.
Qed.

Lemma within_i2cHelp (st : State) : within ps st (i2cHelp st).
Proof. unfold i2cHelp. cbv zeta. repeat within_step. Qed.

Lemma within_i2cAddr (addr : Z) (st : State) : within ps st (i2cAddr addr st).
Proof.
  unfold i2cAddr. cbv zeta. do 2 within_step.
  exists []. by rewrite app_nil_r.
Qed.

Section fpga.
Hypothesis Hfpga : fpga ∈ ps.

Lemma within_xoDetails (st : State) : within ps st (xoDetails st).
Proof.
  assert (Hm : forall op, part (machXO op) ∈ ps) by done.
  unfold xoDetails, machXO_read. cbv beta iota zeta.
  repeat (eapply within_trans; [|apply within_printBufHEX];
          lazymatch goal with
          | |- within _ _ (emit ?e ?s) =>
              apply (within_trans _ _ s); [|apply within_emit, Hm]
          end).
  apply within_refl.
Qed.

Lemma within_xoStatus (st : State) : within ps st (xoStatus st).
Proof.
  assert (Hm : part (machXO readStatus) ∈ ps) by done.
  unfold xoStatus, machXO_read. cbv beta iota zeta.
  eapply within_trans; [|apply within_printBufHEX]. repeat within_step.
Qed.

Lemma within_xoConfig (st : State) : within ps st (xoConfig st).
Proof.
  assert (Hm : part (machXO enableConfigOffline) ∈ ps) by done.
  unfold xoConfig. cbv zeta. repeat within_step.
Qed.

Lemma within_xoRefresh (st : State) : within ps st (xoRefresh st).
Proof.
  assert (Hm : part (machXO refresh) ∈ ps) by done.
  unfold xoRefresh. cbv zeta. repeat within_step.
Qed.

Lemma within_xoErase (st : State) : within ps st (xoErase st).
Proof.
  assert (Hm : part (machXO (erase true true)) ∈ ps) by done.
  assert (Hw : part (machXO waitBusy) ∈ ps) by done.
  unfold xoErase. cbv zeta. repeat within_step.
Qed.

Lemma within_xoLoadHEX (p : ptr) (st st' : State) :
  files ∈ ps -> xoLoadHEX p st = Ok st' -> within ps st st'.
Proof.
  intros Hfiles.
  assert (Ho : forall n, part (file_open n) ∈ ps) by done.
  assert (Hc : part file_close ∈ ps) by done.
  assert (Hl : part (machXO loadHex) ∈ ps) by done.
  assert (Hd : part (machXO programDone) ∈ ps) by done.
  unfold xoLoadHEX. destruct p as [o|]; [|done].
  cbn [string_at mbind Result_bind]. cbv zeta.
  pose proof (Ho (cstr_at (commandBuf st) o)) as Ho'.
  destruct (negb _); intros [= <-]; repeat within_step.
Qed.
End fpga.

Lemma within_xoProgPin (p : ptr) (st st' : State) :
  prog_pin ∈ ps -> xoProgPin p st = Ok st' -> within ps st st'.
Proof.
  intros Hpin.
  assert (H1 : part (digitalWrite XO_PRGMN LOW) ∈ ps) by done.
  assert (H2 : part (pinMode XO_PRGMN OUTPUT) ∈ ps) by done.
  assert (H3 : part (pinMode XO_PRGMN INPUT_PULLUP) ∈ ps) by done.
  rewrite xoProgPin_cases. destruct p as [o|]; [|done].
  cbn [deref mbind Result_bind].
  destruct (elem _ _); intros [= <-]; repeat within_step.
Qed.

Section files.
Hypothesis Hfiles : files ∈ ps.

Lemma within_printDir_entry (st : State) (e : DirEntry) :
  within ps st (printDir_entry st e).
Proof.
  assert (H1 : part file_openNext ∈ ps) by done.
  assert (H2 : part (file_printFileSize (de_size e)) ∈ ps) by done.
  assert (H3 : part (Serial_write " ") ∈ ps) by done.
  assert (H4 : part (file_printName (de_name e)) ∈ ps) by done.
  assert (H5 : part file_isDir ∈ ps) by done.
  assert (H6 : part (Serial_write "/") ∈ ps) by done.
  assert (H7 : part file_close ∈ ps) by done.
  unfold printDir_entry. cbv zeta. destruct (de_isDir e); repeat within_step.
Qed.

Lemma within_printDir (st : State) : within ps st (printDir st).
Proof.
  assert (H1 : part file_openNext ∈ ps) by done.
  assert (H2 : part root_open ∈ ps) by done.
  assert (H3 : part root_close ∈ ps) by done.
  unfold printDir. cbv zeta. destruct (root_dir _ _) as [entries|].
  - do 3 within_step.
    eapply within_trans; [|apply within_foldl, within_printDir_entry].
    repeat within_step.
  - repeat within_step.
Qed.
End files.

Section i2c.
Hypothesis Hbus : i2c_bus ∈ ps.

Lemma within_i2cRead_for (n : nat) (st : State) :
  within ps st (i2cRead_for n st).
Proof.
  assert (H1 : part Wire_read ∈ ps) by done.
  revert st. induction n as [|n IH]; intros st; [apply within_refl|].
  cbn [i2cRead_for]. unfold Wire_read_.
  destruct (Wire_rx st); (eapply within_trans; [|apply IH]);
    repeat within_step.
Qed.

Lemma within_i2cRead (cnt : Z) (st : State) : within ps st (i2cRead cnt st).
Proof.
  assert (H1 : forall a c, part (Wire_requestFrom a c) ∈ ps) by done.
  assert (H2 : part Wire_available ∈ ps) by done.
  unfold i2cRead, Wire_requestFrom_, Wire_available_. cbv beta iota zeta.
  within_step.
  match goal with |- context [Wire_requestFrom ?a ?c] =>
    pose proof (H1 a c) end.
  destruct (cnt <=? _).
  - eapply within_trans; [|apply within_i2cRead_for]. repeat within_step.
  - repeat within_step.
Qed.

Lemma within_i2cWrite (sendStop : bool) (st : State) :
  within ps st (i2cWrite sendStop st).
Proof.
  destruct (i2cWrite_effect sendStop st) as (st2 & Hframe & _ & ->).
  eexists. split.
  - cbn [trace set_trace]. reflexivity.
  - unfold i2cWrite_events.
    destruct (byte_stream (pending_tokens st)) as [|b bs].
    + by repeat constructor.
    + apply Forall_app. split; [by repeat constructor|].
      apply Forall_app. split; [|by repeat constructor].
      apply Forall_map, Forall_true. by intros.
Qed.

Lemma within_i2cGet (cnt : Z) (st : State) : within ps st (i2cGet cnt st).
Proof.
  unfold i2cGet. cbv zeta.
  eapply within_trans; [apply within_i2cWrite|apply within_i2cRead].
Qed.

Lemma within_rd1124_for (n i : nat) (buf : list Z) (st : State) :
  within ps st (rd1124_for n i buf st).2.
Proof.
  assert (H1 : part Wire_read ∈ ps) by done.
  revert i buf st. induction n as [|n IH]; intros i buf st;
    [apply within_refl|].
  cbn [rd1124_for]. unfold Wire_read_.
  destruct (Wire_rx st); (eapply within_trans; [|apply IH]);
    repeat within_step.
Qed.

Lemma within_Wire_writes (bs : list Z) (st : State) :
  within ps st (foldl (fun st b => emit (Wire_write b) st) st bs).
Proof. apply within_foldl. intros. by apply within_emit. Qed.

Lemma within_rd1124MemTst (st : State) : within ps st (rd1124MemTst st).
Proof.
  assert (H1 : forall a, part (Wire_beginTransmission a) ∈ ps) by done.
  assert (H2 : forall b, part (Wire_endTransmission b) ∈ ps) by done.
  assert (H3 : forall b, part (Wire_write b) ∈ ps) by done.
  assert (H4 : forall a c, part (Wire_requestFrom a c) ∈ ps) by done.
  assert (H5 : part Wire_available ∈ ps) by done.
  pose proof (H1 RD1124_I2C_ADDR). pose proof (H2 true). pose proof (H2 false).
  pose proof (H3 11). pose proof (H3 4). pose proof (H4 RD1124_I2C_ADDR 8).
  unfold rd1124MemTst, Wire_requestFrom_, Wire_available_. cbv zeta.
  match goal with |- context [nextByte ?s] =>
    pose proof (within_frame ps s _ (proj1 (nextByte_spec s))) as Hn;
    destruct (nextByte s) as [nb st1]
  end.
  cbn [fst snd] in Hn.
  match goal with |- context [rd1124_for 8 0 ?b ?s] =>
    pose proof (within_rd1124_for 8 0 b s) as Hf;
    destruct (rd1124_for 8 0 b s) as [buf st2]
  end.
  cbn [fst snd] in Hf.
  assert (Hst1 : within ps st st1).
  { eapply within_trans; [|exact Hn]. repeat within_step.
    eapply within_trans; [|apply within_Wire_writes]. repeat within_step.
    eapply within_trans; [|apply within_Wire_writes]. repeat within_step. }
  destruct (8 <=? _); cbv beta iota;
    (eapply within_trans; [|apply within_printBufHEX]);
    [eapply within_trans; [|exact Hf]|];
    destruct (0 <? nb); repeat within_step; exact Hst1.
Qed.

Lemma within_i2cTrans (p : ptr) (st st' : State) :
  i2cTrans p st = Ok st' -> within ps st st'.
Proof.
  rewrite i2cTrans_cases. destruct p as [o|]; [|done].
  cbn [deref string_at mbind Result_bind].
  assert (Hs : forall ul st1, strtoul_strtok st = Ok (ul, st1) ->
                 within ps st st1).
  { intros ul st1. unfold strtoul_strtok.
    pose proof (strtok_is_frame None st) as Hfr.
    destruct (strtok None delimiters st) as [[o'|] s1]; [|done].
    cbn. intros [= _ <-]. by apply within_frame. }
  destruct (negb _).
  { intros [= <-]. eapply within_trans; [|apply within_i2cHelp].
    repeat within_step. }
  destruct (strtoul_strtok st) as [[ul st1]|w];
    [specialize (Hs ul st1 eq_refl)|clear Hs];
    cbn [mbind Result_bind];
    repeat (destruct (elem _ _)); intros H; try discriminate H;
    injection H as <-;
    lazymatch goal with
    | |- within _ _ (i2cWrite _ _) => apply within_i2cWrite
    | |- within _ _ (i2cGet _ _) =>
        eapply within_trans; [exact Hs|apply within_i2cGet]
    | |- within _ _ (i2cRead _ _) =>
        eapply within_trans; [exact Hs|apply within_i2cRead]
    | |- within _ _ (i2cAddr _ _) =>
        eapply within_trans; [exact Hs|apply within_i2cAddr]
    end.
Qed.
End i2c.
End within_parts.
Lemma reach_console (x : ascii) : console ∈ reach x.
Proof. apply list_elem_of_here. Qed.

(** X11. Each command keeps to its device.  Whatever the line, the calls
    [runCommand] makes go to the console and to the part of the board its
    first letter names: the FPGA programmer for [x s c e r], the file system
    and the programmer for [l], the PROGRAMN pin for [p], the I2C bus for [i]
    and [m], the file system for [d], and the console alone for help and for
    a letter that is no command.  No command switches the LED, reads or
    writes flash blocks, or waits. *)
Theorem runCommand_reach (st st' : State) (t : list ascii)
    (ts : list (list ascii)) :
  tokens (cstr (commandBuf st)) = t :: ts ->
  runCommand st = Ok st' ->
  within (reach (hd NUL t)) st st'.
Proof.
  intros Htok Hrun.
  destruct (strtok_command st t ts Htok)
    as (o1 & st1 & x & t' & Hs1 & Hf1 & -> & _ & Hx & _).
  cbn [hd]. pose proof (reach_console x) as Hcon.
  eapply within_trans; [by apply within_frame|].
  rewrite runCommand_cases, Hs1 in Hrun.
  cbn [deref string_at mbind Result_bind] in Hrun. rewrite Hx in Hrun.
  cbn [default from_option id] in Hrun.
  pose proof (strtok_is_frame None st1) as Hk.
  destruct (strtok None delimiters st1) as [p st2]. cbn [fst snd] in Hk.
  destruct (negb (elem x command_letters)) eqn:Hcmd.
  { injection Hrun as <-. eapply within_trans; [|by apply within_printHelp].
    repeat within_step. }
  destruct (elem x (chars "Hh?")) eqn:HH.
  { injection Hrun as <-. by apply within_printHelp. }
  revert Hrun Hcon.
  destruct (elem x (chars "Xx")) eqn:HX.
  { apply elem_two in HX as [-> | ->]; intros [= <-] Hcon;
      apply within_xoDetails; vm_compute; by repeat constructor. }
  destruct (elem x (chars "Ss")) eqn:HS.
  { apply elem_two in HS as [-> | ->]; intros [= <-] Hcon;
      apply within_xoStatus; vm_compute; by repeat constructor. }
  destruct (elem x (chars "Cc")) eqn:HC.
  { apply elem_two in HC as [-> | ->]; intros [= <-] Hcon;
      apply within_xoConfig; vm_compute; by repeat constructor. }
  destruct (elem x (chars "Ee")) eqn:HE.
  { apply elem_two in HE as [-> | ->]; intros [= <-] Hcon;
      apply within_xoErase; vm_compute; by repeat constructor. }
  destruct (elem x (chars "Rr")) eqn:HR.
  { apply elem_two in HR as [-> | ->]; intros [= <-] Hcon;
      apply within_xoRefresh; vm_compute; by repeat constructor. }
  destruct (elem x (chars "Ll")) eqn:HL.
  { apply elem_two in HL as [-> | ->]; intros Hrun Hcon;
      (eapply within_trans; [by apply within_frame|]);
      (eapply within_xoLoadHEX; [..|exact Hrun]);
      vm_compute; by repeat constructor. }
  destruct (elem x (chars "Pp")) eqn:HP.
  { apply elem_two in HP as [-> | ->]; intros Hrun Hcon;
      (eapply within_trans; [by apply within_frame|]);
      (eapply within_xoProgPin; [..|exact Hrun]);
      vm_compute; by repeat constructor. }
  destruct (elem x (chars "Mm")) eqn:HM.
  { apply elem_two in HM as [-> | ->]; intros [= <-] Hcon;
      apply within_rd1124MemTst; vm_compute; by repeat constructor. }
  destruct (elem x (chars "Ii")) eqn:HI.
  { apply elem_two in HI as [-> | ->]; intros Hrun Hcon;
      (eapply within_trans; [by apply within_frame|]);
      (eapply within_i2cTrans; [..|exact Hrun]);
      vm_compute; by repeat constructor. }
  intros [= <-] Hcon. apply within_printDir; [done|].
  (* the letter left is [D] or [d] *)
  apply negb_false_iff, elem_true in Hcmd.
  clear -Hcmd HH HX HS HC HE HR HL HP HM HI.
  revert HH HX HS HC HE HR HL HP HM HI.
  repeat (apply elem_of_cons in Hcmd as [->|Hcmd]);
    [..|by apply elem_of_nil in Hcmd];
    vm_compute; intros; try congruence; by repeat constructor.
Qed.

(** The line [p 0] reaches the console and the PROGRAMN pin. *)
Lemma runCommand_reach_witness :
  tokens (cstr (commandBuf (with_line "p 0" (after_setup silent_world))))
    = [chars "p"; chars "0"] /\
  exists st',
    runCommand (with_line "p 0" (after_setup silent_world)) = Ok st' /\
    within [console; prog_pin] (with_line "p 0" (after_setup silent_world)) st'.
Proof.
  assert (H1 : tokens (cstr (commandBuf
                 (with_line "p 0" (after_setup silent_world))))
               = [chars "p"; chars "0"]) by reflexivity.
  split; [exact H1|].
  eexists. split; [vm_compute; reflexivity|].
  apply (runCommand_reach (with_line "p 0" (after_setup silent_world)) _
           (chars "p") [chars "0"] H1).
  vm_compute. reflexivity.
Defined.
(** ** The memory test *)

Lemma trace_Wire_writes (bs : list Z) (st : State) :
  trace (foldl (fun st b => emit (Wire_write b) st) st bs) =
    trace st ++ map Wire_write bs.
Proof.
  revert st. induction bs as [|b bs IH]; intros st.
  - cbn. by rewrite app_nil_r.
  - cbn [foldl map]. rewrite IH. cbn. by rewrite <- app_assoc.
Qed.

Lemma printBufHEX_trace (msg : string) (buf : list Z) (cnt : nat) (st : State) :
  trace (printBufHEX msg buf cnt st) =
    trace st ++ [Serial_print msg; Serial_print "0x"] ++
    map (fun b => Serial_print (sprintf_02X b)) (take cnt buf) ++
    [Serial_println EmptyString].
Proof.
  unfold printBufHEX. cbv zeta. generalize (take cnt buf). intros l.
  cbn [trace Serial_println_ emit set_trace].
  assert (H : forall s, trace (foldl (fun st b => Serial_print_ (sprintf_02X b) st) s l)
                = trace s ++ map (fun b => Serial_print (sprintf_02X b)) l).
  { induction l as [|b l IH]; intros s.
    - cbn. by rewrite app_nil_r.
    - cbn [foldl map]. rewrite IH. cbn. by rewrite <- app_assoc. }
  rewrite H. cbn. by rewrite <- !app_assoc.
Qed.

Lemma rd1124_for_spec (n i : nat) (buf : list Z) (st : State) :
  (n <= length (Wire_rx st))%nat -> (i + n <= length buf)%nat ->
  Forall (fun b => 0 <= b < 256) (Wire_rx st) ->
  (rd1124_for n i buf st).1 =
    take i buf ++ take n (Wire_rx st) ++ drop (i + n) buf /\
  trace (rd1124_for n i buf st).2 = trace st ++ replicate n Wire_read.
Proof.
  revert i buf st. induction n as [|n IH]; intros i buf st Hn Hi Hb.
  - cbn [rd1124_for fst snd replicate]. rewrite Nat.add_0_r, take_0, app_nil_r.
    cbn [app]. by rewrite take_drop.
  - destruct st as [ch cc x cb addr sv rx tr w]. cbn in Hn, Hb.
    destruct rx as [|b rx]; [cbn in Hn; lia|]. cbn in Hn.
    apply Forall_cons in Hb as [Hb0 Hb].
    cbn [rd1124_for Wire_read_ Wire_rx].
    destruct (IH (S i) (<[i:=to_char b]> buf)
                (set_Wire_rx rx (emit Wire_read
                   {| changed := ch; charCnt := cc; c := x; commandBuf := cb;
                      i2cSlaveAddress := addr; strtok_save := sv;
                      Wire_rx := b :: rx; trace := tr; world := w |})))
      as [IH1 IH2]; [unstate; lia|rewrite length_insert; lia|by unstate|].
    rewrite IH1, IH2. unstate. split.
    + rewrite (to_char_byte b Hb0).
      rewrite (take_S_r _ _ b) by (apply list_lookup_insert_eq; lia).
      rewrite take_insert_ge by lia. rewrite drop_insert_lt by lia.
      cbn [take]. rewrite <- !app_assoc. cbn.
      by replace (i + S n)%nat with (S (i + n)) by lia.
    + cbn [replicate]. by rewrite <- app_assoc.
Qed.
Lemma pending_tokens_emit (e : Event) (st : State) :
  pending_tokens (emit e st) = pending_tokens st.
Proof. done. Qed.

Lemma pending_tokens_Wire_writes (bs : list Z) (st : State) :
  pending_tokens (foldl (fun st b => emit (Wire_write b) st) st bs) =
    pending_tokens st.
Proof.
  revert st. induction bs as [|b bs IH]; intros st; [done|].
  cbn [foldl]. by rewrite IH.
Qed.

Lemma world_Wire_writes (bs : list Z) (st : State) :
  world (foldl (fun st b => emit (Wire_write b) st) st bs) = world st.
Proof.
  revert st. induction bs as [|b bs IH]; intros st; [done|].
  cbn [foldl]. by rewrite IH.
Qed.

Lemma trace_emit (e : Event) (st : State) : trace (emit e st) = trace st ++ [e].
Proof. done. Qed.

Lemma world_emit (e : Event) (st : State) : world (emit e st) = world st.
Proof. done. Qed.

Lemma world_frame (st st' : State) : strtok_frame st st' -> world st' = world st.
Proof. intros (buf & sv & _ & ->). by destruct st. Qed.

Lemma Wire_rx_set_Wire_rx (rx : list Z) (st : State) :
  Wire_rx (set_Wire_rx rx st) = rx.
Proof. done. Qed.

Lemma trace_set_Wire_rx (rx : list Z) (st : State) :
  trace (set_Wire_rx rx st) = trace st.
Proof. done. Qed.

Lemma to_char_range (v : Z) : 0 <= to_char v < 256.
Proof. unfold to_char. by apply Z.mod_pos_bound. Qed.

Lemma local_array_length (n : nat) (st : State) : length (local_array n st) = n.
Proof.
  unfold local_array. rewrite length_take, length_app, length_replicate. lia.
Qed.

(** The state [rd1124MemTst] is in when it asks [nextByte] for the
    argument. *)
Lemma rd1124MemTst_trace (st : State) :
  let ts := pending_tokens st in
  let rx := memtest_reply st ts in
  trace (rd1124MemTst st) =
    memtest_request st ts ++ [Wire_available] ++
    (if 8 <=? Z.of_nat (length rx) then replicate 8 Wire_read else []) ++
    [Serial_print "Read back from 0x04:  "; Serial_print "0x"] ++
    map (fun b => Serial_print (sprintf_02X b))
      (if 8 <=? Z.of_nat (length rx) then take 8 rx else local_array 8 st) ++
    [Serial_println EmptyString].
Proof.
  intros ts rx. unfold rd1124MemTst. cbv zeta.
  set (s0 := emit (Wire_write 4) _).
  assert (Hs0 : trace s0 = trace st ++ rd1124_fill ++
                  [Wire_beginTransmission RD1124_I2C_ADDR; Wire_write 11;
                   Wire_write 4] /\
                pending_tokens s0 = ts /\ world s0 = world st).
  { subst s0. unfold Serial_println_. rewrite !pending_tokens_emit, pending_tokens_Wire_writes,
      !pending_tokens_emit, pending_tokens_Wire_writes, pending_tokens_emit.
    split; [|split; [done|]].
    - rewrite !trace_emit, trace_Wire_writes, !trace_emit, trace_Wire_writes,
        trace_emit.
      unfold rd1124_fill. rewrite <- !app_assoc. reflexivity.
    - rewrite !world_emit, world_Wire_writes, !world_emit, world_Wire_writes.
      apply world_emit. }
  clearbody s0. destruct Hs0 as (Htr0 & Hp0 & Hw0).
  destruct (nextByte_spec s0) as [Hfr Hnb].
  destruct (nextByte s0) as [nb s1]. cbn [fst snd] in Hfr, Hnb.
  pose proof (trace_frame _ _ Hfr) as Htr1.
  pose proof (world_frame _ _ Hfr) as Hw1. clear Hfr.
  assert (Hstop : (0 <? nb) = memtest_stop ts).
  { rewrite Hp0 in Hnb. unfold memtest_stop. destruct ts as [|t ts'].
    - by destruct Hnb as [-> _].
    - destruct Hnb as [-> _]. by destruct (byte_of t). }
  set (s2 := if 0 <? nb then _ else _).
  assert (Hs2 : s2 = emit (Wire_endTransmission (memtest_stop ts)) s1).
  { subst s2. rewrite <- Hstop. by destruct (0 <? nb). }
  clearbody s2. subst s2.
  unfold Wire_requestFrom_, Wire_available_.
  set (s3 := set_Wire_rx _ _).
  assert (Hs3 : Wire_rx s3 = rx /\ trace s3 = memtest_request st ts).
  { subst s3 rx. unfold memtest_reply, memtest_request.
    rewrite Wire_rx_set_Wire_rx, trace_set_Wire_rx.
    rewrite !world_emit, Hw1, Hw0, !trace_emit, Htr1, Htr0.
    rewrite <- !app_assoc. done. }
  clearbody s3. destruct Hs3 as [Hrx Htr3].
  pose proof (local_array_length 8 st) as Hla.
  cbv beta iota. rewrite Hrx.
  destruct (Z.leb_spec 8 (Z.of_nat (length rx))) as [Hle|Hlt].
  - destruct (rd1124_for_spec 8 0 (local_array 8 st) (emit Wire_available s3))
      as [Hbuf Htr4].
    { cbn [Wire_rx emit set_trace]. rewrite Hrx. lia. }
    { rewrite Hla. lia. }
    { cbn [Wire_rx emit set_trace]. rewrite Hrx. subst rx.
      unfold memtest_reply. apply Forall_map, Forall_true. intros.
      apply to_char_range. }
    destruct (rd1124_for 8 0 (local_array 8 st) (emit Wire_available s3))
      as [buf s4].
    cbn [fst snd] in Hbuf, Htr4. rewrite printBufHEX_trace, Htr4, Hbuf.
    cbn [trace emit set_trace Wire_rx]. rewrite Htr3, Hrx.
    rewrite take_0. cbn [app]. rewrite (take_app_le _ _ 8)
      by (rewrite length_take; lia).
    rewrite take_take.
    rewrite <- (app_assoc _ _ (_ :: _)). rewrite <- (app_assoc (memtest_request st ts)).
    reflexivity.
  - rewrite printBufHEX_trace. cbn [trace emit set_trace]. rewrite Htr3.
    rewrite (take_ge (local_array 8 st)) by lia.
    rewrite <- (app_assoc (memtest_request st ts)). reflexivity.
Qed.
Lemma local_array_frame (n : nat) (st st' : State) :
  strtok_frame st st' -> local_array n st' = local_array n st.
Proof.
  intros H. unfold local_array.
  by rewrite (trace_frame _ _ H), (world_frame _ _ H).
Qed.

(** X12. [m] and [m arg]: the memory test.  It talks to the RD1124 address
    0x41 only, whatever address [i a] has set: two transmissions fill the
    memory, a third sets the read pointer and ends with a stop exactly when
    [arg] is a byte above 0 (none for [m], [m 0] and an [arg] that is no
    byte), and 8 bytes are requested.  When at least 8 arrive, the 8 read are
    printed; when fewer arrive none is read and what is printed is the local
    buffer as it was found, never written. *)
Theorem runCommand_memtest (st : State) (t : list ascii) (ts : list (list ascii)) :
  tokens (cstr (commandBuf st)) = t :: ts ->
  elem (hd NUL t) (chars "Mm") = true ->
  exists st',
    runCommand st = Ok st' /\
    let rx := memtest_reply st ts in
    trace st' =
      memtest_request st ts ++ [Wire_available] ++
      (if 8 <=? Z.of_nat (length rx) then replicate 8 Wire_read else []) ++
      [Serial_print "Read back from 0x04:  "; Serial_print "0x"] ++
      map (fun b => Serial_print (sprintf_02X b))
        (if 8 <=? Z.of_nat (length rx) then take 8 rx else local_array 8 st) ++
      [Serial_println EmptyString].
Proof.
  intros Htok HM.
  destruct (strtok_command st t ts Htok)
    as (o1 & st1 & x1 & t' & Hs1 & Hf & -> & _ & Hx1 & Hp1).
  cbn [hd] in HM.
  destruct (runCommand_with_arg st o1 st1 x1 Hs1 Hx1) as (_ & _ & _ & Hrun & _).
  rewrite (Hrun HM). eexists. split; [reflexivity|].
  pose proof (rd1124MemTst_trace st1) as H. cbv zeta in H. rewrite Hp1 in H.
  cbv zeta. rewrite H. unfold memtest_reply, memtest_request.
  by rewrite (trace_frame _ _ Hf), (world_frame _ _ Hf),
    (local_array_frame _ _ _ Hf).
Qed.

(** [m 1] with a slave that delivers three bytes: stop, and nothing read. *)
Lemma runCommand_memtest_witness :
  tokens (cstr (commandBuf (with_line "m 1" (after_setup slave_world))))
    = [chars "m"; chars "1"] /\
  elem (hd NUL (chars "m")) (chars "Mm") = true /\
  exists st',
    runCommand (with_line "m 1" (after_setup slave_world)) = Ok st' /\
    trace st' =
      rd1124_fill ++
      [ Wire_beginTransmission 65; Wire_write 11; Wire_write 4;
        Wire_endTransmission true; Wire_requestFrom 65 8; Wire_available;
        Serial_print "Read back from 0x04:  "; Serial_print "0x" ] ++
      replicate 8 (Serial_print "00") ++ [Serial_println EmptyString].
Proof.
  assert (H1 : tokens (cstr (commandBuf
                 (with_line "m 1" (after_setup slave_world))))
               = [chars "m"; chars "1"]) by reflexivity.
  assert (H2 : elem (hd NUL (chars "m")) (chars "Mm") = true) by reflexivity.
  split; [exact H1|]. split; [exact H2|].
  exact (runCommand_memtest _ _ _ H1 H2).
Defined.

(** ** Bytes on the console *)

(** X13. The two formats fit their buffers.  For a byte, [sprintf] with
    ["0x%02X "] writes 5 characters and with ["%02X"] writes 2, so with the
    terminating [NUL] the texts fill [tmpStr[6]] of [i2cRead] and
    [tmpStr[3]] of [printBufHEX] exactly and never run over them; [i2cRead]
    formats only bytes it has received and [printBufHEX] only elements of a
    [uint8_t] array. *)
Theorem tmpStr_fits (b : Z) :
  0 <= b < 256 ->
  String.length (sprintf_0x02X_sp b) = 5%nat /\
  String.length (sprintf_02X b) = 2%nat.
Proof.
  intros Hb.
  pose proof (byte_cases
    (fun b => bool_decide (String.length (sprintf_0x02X_sp b) = 5%nat) &&
              bool_decide (String.length (sprintf_02X b) = 2%nat))) as H.
  specialize (H ltac:(vm_compute; reflexivity) b Hb). cbv beta in H.
  apply andb_true_iff in H as [H1 H2].
  by apply bool_decide_eq_true in H1, H2.
Qed.

Lemma tmpStr_fits_witness :
  0 <= 255 < 256 /\
  String.length (sprintf_0x02X_sp 255) = 5%nat /\
  String.length (sprintf_02X 255) = 2%nat.
Proof. split; [lia|]. apply (tmpStr_fits 255). lia. Defined.

Lemma fields_token (t r : list ascii) (d : ascii) :
  Forall (fun x => elem x delimiters = false) t -> elem d delimiters = true ->
  fields (t ++ d :: r) = t :: fields r.
Proof.
  intros Ht Hd. induction Ht as [|x t Hx _ IH]; cbn [app fields].
  - by rewrite Hd.
  - by rewrite Hx, IH.
Qed.

Lemma tokens_token (t r : list ascii) (d : ascii) :
  t <> [] -> Forall (fun x => elem x delimiters = false) t ->
  elem d delimiters = true ->
  tokens (t ++ d :: r) = t :: tokens r.
Proof.
  intros Hne Ht Hd. unfold tokens. rewrite (fields_token t r d Ht Hd).
  by rewrite filter_cons_True.
Qed.

(** What [sprintf] with ["0x%02X "] writes for a byte: a token that
    [nextByte] reads as that byte, and a space. *)
Lemma sprintf_0x02X_sp_token (b : Z) :
  0 <= b < 256 ->
  exists t,
    chars (sprintf_0x02X_sp b) = t ++ [" "%char] /\ t <> [] /\
    Forall (fun x => elem x delimiters = false) t /\
    byte_of t = Some b.
Proof.
  intros Hb. exists (["0"; "x"]%char ++ fmt_02X b).
  pose proof (byte_cases
    (fun b => bool_decide (byte_of (["0"; "x"]%char ++ fmt_02X b) = Some b) &&
              forallb (fun x => negb (elem x delimiters))
                (["0"; "x"]%char ++ fmt_02X b))) as H.
  specialize (H ltac:(vm_compute; reflexivity) b Hb). cbv beta in H.
  apply andb_true_iff in H as [H1 H2]. apply bool_decide_eq_true in H1.
  split; [|split; [done|split; [|done]]].
  - unfold chars, sprintf_0x02X_sp.
    rewrite String.list_ascii_of_string_of_list_ascii.
    by rewrite <- !app_assoc.
  - rewrite forallb_forall in H2. apply Forall_forall. intros x Hx.
    apply list_elem_of_In, H2 in Hx. by apply negb_true_iff.
Qed.

(** ** The bytes read, typed back *)

(** The write sub-commands from the console, for the bytes behind them. *)
Lemma runCommand_i2c_write_trace (st : State) (t sub : list ascii)
    (ts : list (list ascii)) :
  length (commandBuf st) = 128%nat ->
  tokens (cstr (commandBuf st)) = t :: sub :: ts ->
  elem (hd NUL t) (chars "Ii") = true ->
  elem (hd NUL sub) (chars "WwFf") = true ->
  exists st',
    runCommand st = Ok st' /\
    trace st' =
      trace st ++
      match byte_stream ts with
      | [] => [Serial_println "nothing to write"]
      | bs =>
          [Wire_beginTransmission (i2cSlaveAddress st)] ++ map Wire_write bs ++
          [ Wire_endTransmission (elem (hd NUL sub) (chars "Ww"));
            Serial_print "Wrote "; Serial_print (dec (Z.of_nat (length bs)));
            Serial_println " bytes" ]
      end /\
    pending_tokens st' = after_stream ts.
Proof.
  intros Hlen Htok HI HW.
  destruct (strtok_command_arg st t sub ts Htok)
    as (o1 & st1 & x1 & o2 & st2 & x2 & s' & Hs1 & Hx1 & Hhd & Hs2 & Hf &
        -> & _ & Hx2 & Hp2).
  rewrite Hhd in HI. cbn [hd] in HW |- *.
  destruct (runCommand_with_arg st o1 st1 x1 Hs1 Hx1) as (_ & _ & Hrun & _).
  rewrite (Hrun HI), Hs2.
  destruct (i2cTrans_with o2 st2 x2 Hx2) as (_ & Hw & Hf').
  assert (Hn : Z.of_nat (length (byte_stream ts)) < 2 ^ 31).
  { pose proof (byte_stream_length ts). pose proof (pending_tokens_length st2).
    destruct Hf as (b & s & Hb & ->). rewrite Hp2 in *.
    cbn [commandBuf set_strtok_save set_commandBuf] in *. lia. }
  assert (Hgo : i2cTrans (Some o2) st2 =
                Ok (i2cWrite (elem x2 (chars "Ww")) st2)).
  { apply elem_true in HW.
    repeat (apply elem_of_cons in HW as [->|HW]);
      [by rewrite (Hw eq_refl)|by rewrite (Hw eq_refl)|
       by rewrite (Hf' eq_refl)|by rewrite (Hf' eq_refl)|
       by apply elem_of_nil in HW]. }
  rewrite Hgo.
  destruct (i2cWrite_effect (elem x2 (chars "Ww")) st2)
    as (st3 & (b3 & s3 & _ & ->) & Hp3 & ->).
  eexists. split; [reflexivity|]. rewrite Hp2 in *. split.
  - cbn [trace set_trace]. rewrite (trace_frame _ _ Hf).
    f_equal. unfold i2cWrite_events.
    assert (Ha : i2cSlaveAddress st2 = i2cSlaveAddress st).
    { destruct Hf as (b & s & _ & ->). by destruct st. }
    rewrite Ha.
    destruct (byte_stream ts) as [|b bs] eqn:Hbs; [done|].
    by rewrite counted_small.
  - rewrite <- Hp3. by destruct st2.
Qed.

Lemma byte_stream_hex_line (bs : list Z) :
  Forall (fun b => 0 <= b < 256) bs ->
  byte_stream (tokens (hex_line bs)) = bs.
Proof.
  induction 1 as [|b bs Hb _ IH]; [done|].
  unfold hex_line. cbn [flat_map]. fold (hex_line bs).
  destruct (sprintf_0x02X_sp_token b Hb) as (t & -> & Hne & Hd & Hbyte).
  rewrite <- app_assoc. cbn [app].
  rewrite tokens_token by done. cbn [byte_stream]. by rewrite Hbyte, IH.
Qed.

(** The text of a byte is five plain characters, none of them [NUL]. *)
Lemma sprintf_0x02X_sp_plain (b : Z) :
  0 <= b < 256 ->
  length (chars (sprintf_0x02X_sp b)) = 5%nat /\
  Forall (fun x => plain x /\ x <> NUL) (chars (sprintf_0x02X_sp b)).
Proof.
  intros Hb.
  pose proof (byte_cases
    (fun b => bool_decide (length (chars (sprintf_0x02X_sp b)) = 5%nat) &&
              forallb (fun x => bool_decide (x <> CR /\ x <> LF /\ x <> BS /\
                                              x <> NUL))
                (chars (sprintf_0x02X_sp b)))) as H.
  specialize (H ltac:(vm_compute; reflexivity) b Hb). cbv beta in H.
  apply andb_true_iff in H as [H1 H2]. apply bool_decide_eq_true in H1.
  split; [done|]. rewrite forallb_forall in H2. apply Forall_forall.
  intros x Hx. apply list_elem_of_In, H2, bool_decide_eq_true in Hx.
  destruct Hx as (H3 & H4 & H5 & H6). split; [|done].
  split; [|done]. by intros [?|?].
Qed.

Lemma hex_line_plain (bs : list Z) :
  Forall (fun b => 0 <= b < 256) bs ->
  length (hex_line bs) = (5 * length bs)%nat /\
  Forall (fun x => plain x /\ x <> NUL) (hex_line bs).
Proof.
  induction 1 as [|b bs Hb _ [IH1 IH2]]; [done|].
  unfold hex_line. cbn [flat_map]. fold (hex_line bs).
  destruct (sprintf_0x02X_sp_plain b Hb) as [H1 H2].
  rewrite length_app, H1, IH1. split; [cbn [length]; lia|].
  by apply Forall_app.
Qed.

(** X14. What the console prints for bytes read, it reads back as the same
    bytes.  The text [i2cRead] prints for the bytes [bs] (each as [0x], two
    hexadecimal digits and a space), typed on an empty line behind [i w] and
    ended by a terminator, with nothing to refresh: [loop] hands the line to
    [runCommand], [strtok] and [nextByte] read the bytes [bs] back from
    [commandBuf] in order, and they are written to the slave in one
    transmission.  This holds for up to 24 bytes, which is what fits the 127
    characters of the line buffer behind [i w]; the typed text is not
    echoed. *)
Theorem hex_round_trip (bs : list Z) (x : ascii) (st : State) :
  charCnt st = 0 -> length (commandBuf st) = 128%nat -> changed st = false ->
  Forall (fun b => 0 <= b < 256) bs -> (length bs <= 24)%nat ->
  terminator x ->
  exists st',
    loop (chars "i w " ++ hex_line bs ++ [x]) st = Ok st' /\
    charCnt st' = 0 /\
    trace st' =
      trace st ++
      match bs with
      | [] => [Serial_println "nothing to write"]
      | _ :: _ =>
          [Wire_beginTransmission (i2cSlaveAddress st)] ++ map Wire_write bs ++
          [ Wire_endTransmission true; Serial_print "Wrote ";
            Serial_print (dec (Z.of_nat (length bs))); Serial_println " bytes" ]
      end ++ [delay 100].
Proof.
  intros Hcnt Hlen Hch Hbs Hn Hx.
  destruct (hex_line_plain bs Hbs) as [Hl Hpl].
  set (typed := chars "i w " ++ hex_line bs).
  assert (Hp : Forall plain typed).
  { apply Forall_app. split.
    - repeat constructor; try discriminate; intros [H|H]; discriminate H.
    - eapply Forall_impl; [exact Hpl|]. by intros y [? _]. }
  assert (Hnul : NUL ∉ typed).
  { intros [H|H]%elem_of_app.
    - repeat (apply elem_of_cons in H as [H|H]; [discriminate H|]).
      by apply elem_of_nil in H.
    - rewrite Forall_forall in Hpl. by destruct (Hpl _ H) as [_ ?]. }
  assert (Hroom : (length typed <= 126)%nat).
  { subst typed. rewrite length_app, Hl. cbn [chars length
      String.list_ascii_of_string]. lia. }
  assert (Htok : tokens typed =
                 chars "i" :: chars "w" :: tokens (hex_line bs)).
  { subst typed.
    change (chars "i w " ++ hex_line bs)
      with (chars "i" ++ " "%char :: (chars "w" ++ " "%char :: hex_line bs)).
    rewrite tokens_token; [|done|by repeat constructor|done].
    rewrite tokens_token; [done|done|by repeat constructor|done]. }
  assert (Hst : holds st []).
  { unfold holds. by rewrite take_0. }
  destruct (loop_while_plain runCommand typed st [] Hst)
    as (st1 & Hrun1 & Hst1 & Htr1); [cbn; lia|done|].
  cbn [app] in Hst1. rewrite take_ge in Hst1 by lia.
  pose proof (loop_while_frame runCommand typed st st1
                (Forall_impl _ _ _ Hp (fun y H => proj1 H)) Hrun1) as Hty1.
  destruct (loop_switch_terminator_frame runCommand x st1 typed Hst1 Hx)
    as (st_line & Hline & Hnul' & Hty & Htr & Hsw); [lia|].
  assert (Hne : typed <> []) by done.
  rewrite decide_False in Hsw by done.
  pose proof (holds_cstr st_line typed Hline Hnul' Hnul) as Hcstr.
  destruct (typing_trans _ _ _ Hty1 Hty) as (_ & Haddr & _).
  destruct (runCommand_i2c_write_trace st_line (chars "i") (chars "w")
              (tokens (hex_line bs)))
    as (st2 & Hrun2 & Htr2 & _);
    [by destruct Hline as (_ & _ & ?)|by rewrite Hcstr, Htok|done|done|].
  rewrite (byte_stream_hex_line bs Hbs), Haddr, Htr, Htr1 in Htr2.
  rewrite Hrun2 in Hsw. cbn [mbind Result_bind] in Hsw.
  assert (Hw : loop_while runCommand (typed ++ [x]) st = Ok (set_charCnt 0 st2)).
  { rewrite loop_while_app, Hrun1. cbn [mbind Result_bind loop_while].
    by rewrite Hsw. }
  pose proof (changed_loop_while _ _ _ Hw) as Hch3. rewrite Hch in Hch3.
  unfold loop. subst typed. rewrite <- app_assoc in Hw. rewrite Hw.
  cbn [mbind Result_bind].
  eexists. split; [reflexivity|]. unfold loop_refresh. rewrite Hch3.
  split; [done|].
  rewrite trace_emit.
  change (trace (set_charCnt 0 st2)) with (trace st2).
  rewrite Htr2. cbn [hd chars String.list_ascii_of_string].
  change (elem "w"%char ["W"; "w"]%char) with true.
  rewrite <- app_assoc. by destruct bs.
Qed.

(** Four bytes as [i2cRead] prints them, typed back behind [i w]. *)
Lemma hex_round_trip_witness :
  charCnt (set_changed false (after_setup silent_world)) = 0 /\
  length (commandBuf (set_changed false (after_setup silent_world))) = 128%nat /\
  changed (set_changed false (after_setup silent_world)) = false /\
  Forall (fun b => 0 <= b < 256) [0; 10; 160; 255] /\
  (length [0; 10; 160; 255] <= 24)%nat /\ terminator CR /\
  hex_line [0; 10; 160; 255] = chars "0x00 0x0A 0xA0 0xFF " /\
  exists st',
    loop (chars "i w " ++ chars "0x00 0x0A 0xA0 0xFF " ++ [CR])
      (set_changed false (after_setup silent_world)) = Ok st' /\
    charCnt st' = 0 /\
    trace st' =
      [ Wire_beginTransmission 65; Wire_write 0; Wire_write 10;
        Wire_write 160; Wire_write 255; Wire_endTransmission true;
        Serial_print "Wrote "; Serial_print "4"; Serial_println " bytes";
        delay 100 ].
Proof.
  assert (H1 : charCnt (set_changed false (after_setup silent_world)) = 0)
    by reflexivity.
  assert (H2 : length (commandBuf (set_changed false (after_setup silent_world)))
               = 128%nat) by reflexivity.
  assert (H3 : changed (set_changed false (after_setup silent_world)) = false)
    by reflexivity.
  assert (H4 : Forall (fun b => 0 <= b < 256) [0; 10; 160; 255])
    by (repeat constructor; lia).
  assert (H5 : (length [0; 10; 160; 255] <= 24)%nat) by (cbn; lia).
  assert (H6 : terminator CR) by (left; reflexivity).
  split; [exact H1|]. split; [exact H2|]. split; [exact H3|].
  split; [exact H4|]. split; [exact H5|]. split; [exact H6|].
  split; [reflexivity|].
  exact (hex_round_trip [0; 10; 160; 255] CR _ H1 H2 H3 H4 H5 H6).
Defined.

(** The bound is the line buffer: of 25 bytes typed back the last does not
    fit, its text is cut after [0xF], and [0x0F] is written in its place. *)
Example hex_round_trip_limit :
  after (fun st => omap (fun e => match e with Wire_write b => Some b | _ => None end)
                     (trace st))
    (loop (chars "i w " ++ hex_line (replicate 25 255) ++ [CR])
       (set_changed false (after_setup silent_world))) =
  Some (replicate 24 255 ++ [15]).
Proof. vm_compute. reflexivity. Qed.

(** X15. [nextByte] returns [-1] or a byte.  Whatever the tokens, the value
    is between [-1] and [255], so the conversion to [char] in [i2cWrite]
    changes no value that is written, and the value is [-1] exactly when the
    next token is missing or is no byte. *)
Theorem nextByte_range (st : State) :
  -1 <= (nextByte st).1 < 256 /\
  (0 <= (nextByte st).1 -> to_char (nextByte st).1 = (nextByte st).1) /\
  ((nextByte st).1 = -1 <->
   match pending_tokens st with
   | [] => True
   | t :: _ => byte_of t = None
   end).
Proof.
  destruct (nextByte_spec st) as [_ H].
  assert (Hr : -1 <= (nextByte st).1 < 256 /\
               ((nextByte st).1 = -1 <->
                match pending_tokens st with
                | [] => True
                | t :: _ => byte_of t = None
                end)).
  { destruct (pending_tokens st) as [|t ts].
    - destruct H as [-> _]. split; [lia|done].
    - destruct H as [-> _]. destruct (byte_of t) as [b|] eqn:Hb; cbn.
      + apply byte_of_range in Hb. split; [lia|]. split; [lia|done].
      + split; [lia|done]. }
  destruct Hr as [Hr Hiff]. split; [done|]. split; [|done].
  intros Hpos. apply to_char_byte. lia.
Qed.

(** ** The storage callbacks in sequence *)

Lemma led_after_app (a b : list Event) (l : Level) :
  led_after (a ++ b) l = led_after b (led_after a l).
Proof. apply foldl_app. Qed.

(** X16. The storage callbacks and the rest of the sketch.  After any
    sequence of invocations: the dirty flag is set if it was set or a flush
    is among them; reads and writes alone never set it; the built-in LED is
    on from a write to the next flush; and the line buffer, its cursor, the
    position of [strtok] and the slave address are as they were, so a line
    being typed is not disturbed by the host using the drive. *)
Theorem msc_calls_summary (calls : list MscCall) (st : State) (l : Level) :
  let st' := foldl msc_call st calls in
  changed st' = changed st || existsb is_flush calls /\
  led_after (trace st') l = foldl led_step (led_after (trace st) l) calls /\
  charCnt st' = charCnt st /\ commandBuf st' = commandBuf st /\
  strtok_save st' = strtok_save st /\
  i2cSlaveAddress st' = i2cSlaveAddress st.
Proof.
  cbv zeta. revert st. induction calls as [|call calls IH]; intros st.
  - cbn. by rewrite orb_false_r.
  - cbn [foldl existsb].
    destruct (IH (msc_call st call)) as (H1 & H2 & H3 & H4 & H5 & H6).
    rewrite H1, H2, H3, H4, H5, H6. clear.
    destruct call as [lba n|lba n|]; destruct st as [ch cc x cb addr sv rx tr w].
    + cbn -[led_after]. by rewrite led_after_app.
    + cbn -[led_after]. by rewrite !led_after_app.
    + cbn -[led_after]. rewrite !led_after_app. by rewrite orb_true_r.
Qed.

(** ** From the keyboard to the dispatcher *)

(** What [runCommand] prints for a letter that is no command. *)
Lemma runCommand_unknown_line (st : State) (t : list ascii)
    (ts : list (list ascii)) :
  tokens (cstr (commandBuf st)) = t :: ts ->
  elem (hd NUL t) command_letters = false ->
  exists st',
    runCommand st = Ok st' /\
    trace st' =
      trace st ++
      [ Serial_print "Unknown command:  ";
        Serial_println (String.string_of_list_ascii t) ] ++
      map Serial_println help_lines.
Proof.
  intros Htok Hunk.
  destruct (strtok_command st t ts Htok)
    as (tok & st1 & x & t' & Hstrtok & Hframe & -> & Hcstr & Hx & _).
  cbn [hd] in Hunk.
  rewrite runCommand_cases, Hstrtok. cbn [deref string_at mbind Result_bind].
  rewrite Hx. cbn [default from_option id]. rewrite Hunk. cbn [negb].
  eexists. split; [reflexivity|].
  rewrite printHelp_trace. cbn [commandBuf trace Serial_print_ Serial_println_
    emit set_trace]. rewrite Hcstr, (trace_frame _ _ Hframe).
  by rewrite <- !app_assoc.
Qed.

(** X17. A turn of [loop], from the keys to the answer.  A line of plain
    characters without [NUL], at most 126 of them, typed on an empty line and
    ended by a terminator, whose first token does not begin with a command
    letter, with nothing to refresh: [loop] returns, what it has printed is
    "Unknown command:" with the token and the help, then it has waited
    100 ms; the cursor is back at 0 and the typed characters were not
    echoed. *)
Theorem loop_unknown_command (typed : list ascii) (x : ascii) (st : State)
    (t : list ascii) (ts : list (list ascii)) :
  charCnt st = 0 -> length (commandBuf st) = 128%nat -> changed st = false ->
  Forall plain typed -> NUL ∉ typed -> (length typed <= 126)%nat ->
  terminator x ->
  tokens typed = t :: ts ->
  elem (hd NUL t) command_letters = false ->
  exists st',
    loop (typed ++ [x]) st = Ok st' /\
    charCnt st' = 0 /\
    trace st' =
      trace st ++
      [ Serial_print "Unknown command:  ";
        Serial_println (String.string_of_list_ascii t) ] ++
      map Serial_println help_lines ++ [delay 100].
Proof.
  intros Hcnt Hlen Hch Hp Hnul Hroom Hx Htok Hunk.
  assert (Hst : holds st []).
  { unfold holds. by rewrite take_0. }
  destruct (loop_while_plain runCommand typed st [] Hst)
    as (st1 & Hrun1 & Hst1 & Htr1); [cbn; lia|done|].
  cbn [app] in Hst1. rewrite take_ge in Hst1 by lia.
  destruct (loop_switch_terminator runCommand x st1 typed Hst1 Hx)
    as (st_line & Hline & Hnul' & Htr & Hsw); [lia|].
  assert (Hne : typed <> []).
  { intros ->. discriminate Htok. }
  rewrite decide_False in Hsw by done.
  pose proof (holds_cstr st_line typed Hline Hnul' Hnul) as Hcstr.
  destruct (runCommand_unknown_line st_line t ts) as (st2 & Hrun2 & Htr2);
    [by rewrite Hcstr|done|].
  rewrite Hrun2 in Hsw. cbn [mbind Result_bind] in Hsw.
  assert (Hw : loop_while runCommand (typed ++ [x]) st = Ok (set_charCnt 0 st2)).
  { rewrite loop_while_app, Hrun1. cbn [mbind Result_bind loop_while].
    by rewrite Hsw. }
  pose proof (changed_loop_while _ _ _ Hw) as Hch3. rewrite Hch in Hch3.
  unfold loop. rewrite Hw. cbn [mbind Result_bind].
  eexists. split; [reflexivity|]. unfold loop_refresh. rewrite Hch3.
  split; [done|].
  rewrite trace_emit.
  change (trace (set_charCnt 0 st2)) with (trace st2).
  rewrite Htr2, Htr, Htr1. by rewrite <- !app_assoc.
Qed.

(** The line [zork 1 2] and return, after the first listing. *)
Lemma loop_unknown_command_witness :
  charCnt (set_changed false (after_setup silent_world)) = 0 /\
  length (commandBuf (set_changed false (after_setup silent_world))) = 128%nat /\
  changed (set_changed false (after_setup silent_world)) = false /\
  Forall plain (chars "zork 1 2") /\ (NUL ∉ chars "zork 1 2") /\
  (length (chars "zork 1 2") <= 126)%nat /\ terminator CR /\
  tokens (chars "zork 1 2") = [chars "zork"; chars "1"; chars "2"] /\
  elem (hd NUL (chars "zork")) command_letters = false /\
  exists st',
    loop (chars "zork 1 2" ++ [CR]) (set_changed false (after_setup silent_world))
      = Ok st' /\
    charCnt st' = 0 /\
    trace st' =
      [ Serial_print "Unknown command:  "; Serial_println "zork" ] ++
      map Serial_println help_lines ++ [delay 100].
Proof.
  assert (H1 : charCnt (set_changed false (after_setup silent_world)) = 0)
    by reflexivity.
  assert (H2 : length (commandBuf (set_changed false (after_setup silent_world)))
               = 128%nat) by reflexivity.
  assert (H3 : changed (set_changed false (after_setup silent_world)) = false)
    by reflexivity.
  assert (H4 : Forall plain (chars "zork 1 2")).
  { repeat constructor; try discriminate; intros [H|H]; discriminate H. }
  assert (H5 : NUL ∉ chars "zork 1 2").
  { intros H. repeat (apply elem_of_cons in H as [H|H]; [discriminate H|]).
    by apply elem_of_nil in H. }
  assert (H6 : (length (chars "zork 1 2") <= 126)%nat) by (cbn; lia).
  assert (H7 : terminator CR) by (left; reflexivity).
  assert (H8 : tokens (chars "zork 1 2") = [chars "zork"; chars "1"; chars "2"])
    by reflexivity.
  assert (H9 : elem (hd NUL (chars "zork")) command_letters = false)
    by reflexivity.
  split; [exact H1|]. split; [exact H2|]. split; [exact H3|].
  split; [exact H4|]. split; [exact H5|]. split; [exact H6|].
  split; [exact H7|]. split; [exact H8|]. split; [exact H9|].
  exact (loop_unknown_command _ _ _ _ _ H1 H2 H3 H4 H5 H6 H7 H8 H9).
Defined.
